(** * Rotation creator: condition engine, rotation model and codec

    A shallow embedding of [src/conditions.py], [src/spell_data.py],
    [src/core/rotation.py] and [src/core/exporter.py], with the condition
    templates of [src/ui/condition_panel.py].

    Conventions of the embedding:
    - Python [str] is [string]; only code points below 256 are represented.
    - Python [int] is [Z].
    - A call that may raise returns [exn A]; a method that mutates [self]
      takes the object and returns the object after the call next to the
      outcome, also when the outcome is an exception.
    - [time.time()] is an input: every call that reads the clock takes the
      reading as an argument. *)

From Stdlib Require Import ZArith List Bool Ascii String DecimalString.
From Stdlib Require Import Lia Permutation Sorted Finite.
From Stdlib Require DecimalZ.
Import ListNotations.
Open Scope string_scope.
Open Scope Z_scope.

(** ** Exceptions *)

Module Py.

(** The exception classes the modelled code raises or can meet. *)
Inductive exception : Type :=
| ValueError (msg : string)
| NameError (name : string)
| IndexError
| KeyError (key : string)
| TypeError (msg : string).

(** [str(e)] *)
Definition str_exc (e : exception) : string :=
  match e with
  | ValueError msg => msg
  | NameError name => "name '" ++ name ++ "' is not defined"
  | IndexError => "list index out of range"
  | KeyError key => "'" ++ key ++ "'"
  | TypeError msg => msg
  end.

Inductive exn (A : Type) : Type :=
| Return (a : A)
| Raise (e : exception).
Arguments Return {A} a.
Arguments Raise {A} e.

Definition bind {A B} (m : exn A) (f : A -> exn B) : exn B :=
  match m with
  | Return a => f a
  | Raise e => Raise e
  end.

(** [try: body  except Exception as e: handler e] *)
Definition try_except {A} (body : exn A) (handler : exception -> exn A) : exn A :=
  match body with
  | Return a => Return a
  | Raise e => handler e
  end.

(** [l[i]] for a list *)
Definition getitem {A} (l : list A) (i : nat) : exn A :=
  match nth_error l i with
  | Some a => Return a
  | None => Raise IndexError
  end.

(** [d[k]] for a dict with string keys, kept in insertion order *)
Fixpoint dict_get {V} (d : list (string * V)) (k : string) : option V :=
  match d with
  | [] => None
  | (k', v) :: d' => if String.eqb k k' then Some v else dict_get d' k
  end.

Definition dict_getitem {V} (d : list (string * V)) (k : string) : exn V :=
  match dict_get d k with
  | Some v => Return v
  | None => Raise (KeyError k)
  end.

(** [k in d] *)
Definition dict_mem {V} (d : list (string * V)) (k : string) : bool :=
  match dict_get d k with Some _ => true | None => false end.

(** [x in l] for a list of strings *)
Definition list_mem (x : string) (l : list string) : bool :=
  existsb (String.eqb x) l.

(** The use of a global name in a module whose top level binds the names
    [bound] (its imports, classes and functions): a name that is neither
    bound there nor a builtin raises [NameError]. *)
Definition global (bound : list string) (name : string) : exn unit :=
  if list_mem name bound then Return tt else Raise (NameError name).

End Py.

Import Py.

Notation "x <- m ;; f" := (bind m (fun x => f))
  (at level 61, m at next level, right associativity).

(** ** Strings *)

Module Str.

(** The double quote character, and the string that holds only it. *)
Definition dquote : ascii := ascii_of_nat 34.
Definition quote : string := String dquote EmptyString.

(** The line feed. *)
Definition newline : ascii := ascii_of_nat 10.

(** [c.isspace()] on code points below 256; also the class [\s] of [re]. *)
Definition isspace (c : ascii) : bool :=
  let n := nat_of_ascii c in
  (((9 <=? n) && (n <=? 13)) || ((28 <=? n) && (n <=? 32))
   || (n =? 133) || (n =? 160))%nat.

(** The class [\d] of [re] on code points below 256. *)
Definition isdigit (c : ascii) : bool :=
  let n := nat_of_ascii c in ((48 <=? n) && (n <=? 57))%nat.

Fixpoint rev_acc (s acc : string) : string :=
  match s with
  | EmptyString => acc
  | String c s' => rev_acc s' (String c acc)
  end.

Definition rev (s : string) : string := rev_acc s EmptyString.

Fixpoint lstrip (s : string) : string :=
  match s with
  | String c s' => if isspace c then lstrip s' else s
  | EmptyString => EmptyString
  end.

(** [s.strip()] *)
Definition strip (s : string) : string := rev (lstrip (rev (lstrip s))).

(** [s.startswith(p)] *)
Definition startswith (s p : string) : bool := String.prefix p s.

(** [sub in s] *)
Fixpoint contains (sub s : string) : bool :=
  if String.prefix sub s then true
  else match s with
       | EmptyString => false
       | String _ s' => contains sub s'
       end.

(** [c in s] for a character *)
Fixpoint mem_char (c : ascii) (s : string) : bool :=
  match s with
  | EmptyString => false
  | String c' s' => Ascii.eqb c c' || mem_char c s'
  end.

(** [all(p(c) for c in s)] *)
Fixpoint all_chars (p : ascii -> bool) (s : string) : bool :=
  match s with
  | EmptyString => true
  | String c s' => p c && all_chars p s'
  end.

(** [s.split(sep)] for a non-empty separator: the pieces between the
    non-overlapping occurrences of [sep], scanned from the left.  [skip]
    counts the characters of an occurrence still to pass over, [cur] is
    the current piece, reversed. *)
Fixpoint split_go (sep : string) (skip : nat) (cur : string) (s : string)
  : list string :=
  match skip with
  | S k =>
      match s with
      | EmptyString => [rev cur]
      | String _ s' => split_go sep k cur s'
      end
  | O =>
      match s with
      | EmptyString => [rev cur]
      | String c s' =>
          if String.prefix sep s
          then rev cur :: split_go sep (String.length sep - 1) EmptyString s'
          else split_go sep O (String c cur) s'
      end
  end.

Definition split (s sep : string) : list string :=
  split_go sep O EmptyString s.

(** [sep.join(parts)] *)
Fixpoint join (sep : string) (parts : list string) : string :=
  match parts with
  | [] => EmptyString
  | [p] => p
  | p :: ps => p ++ sep ++ join sep ps
  end.

(** [s[1:]] *)
Definition drop1 (s : string) : string :=
  match s with
  | EmptyString => EmptyString
  | String _ s' => s'
  end.

(** The first [n] characters. *)
Fixpoint take (n : nat) (s : string) : string :=
  match n, s with
  | S k, String c s' => String c (take k s')
  | _, _ => EmptyString
  end.

(** [int(s)] for a run of decimal digits. *)
Fixpoint int_acc (acc : Z) (s : string) : Z :=
  match s with
  | EmptyString => acc
  | String c s' => int_acc (10 * acc + Z.of_nat (nat_of_ascii c) - 48) s'
  end.

Definition int_of_digits (s : string) : Z := int_acc 0 s.

(** [str(n)] for an integer: its decimal digits. *)
Definition str_int (n : Z) : string :=
  DecimalString.NilZero.string_of_int (Z.to_int n).

(** Lexicographic order by code point: [a <= b] on [str]. *)
Definition leb (a b : string) : bool := String.leb a b.

Fixpoint insert_sorted (x : string) (l : list string) : list string :=
  match l with
  | [] => [x]
  | y :: l' => if leb x y then x :: l else y :: insert_sorted x l'
  end.

(** [sorted(l)] on a list of strings. *)
Definition sorted (l : list string) : list string :=
  fold_right insert_sorted [] l.

End Str.

(** ** The fragment of [re] the program uses *)

Module Re.

(** Patterns: literal text, one character of a class, greedy repetition
    of a class, sequence, alternation and capturing groups.  Every
    repetition in the program's patterns is over a single class, and no
    group is nested in another. *)
Inductive regex : Type :=
| Lit (s : string)
| Cls (p : ascii -> bool)
| Star (p : ascii -> bool)
| Plus (p : ascii -> bool)
| Seq (r1 r2 : regex)
| Alt (r1 r2 : regex)
| Grp (r : regex).

Section Matcher.
Context {R : Type}.

(** Literal text at the head of the subject. *)
Fixpoint lit (l s : string) (k : string -> option R) : option R :=
  match l with
  | EmptyString => k s
  | String c l' =>
      match s with
      | String d s' => if Ascii.eqb c d then lit l' s' k else None
      | EmptyString => None
      end
  end.

(** Greedy repetition with backtracking: the longest run first, then
    one character less at a time. *)
Fixpoint star (p : ascii -> bool) (s : string) (k : string -> option R)
  : option R :=
  match s with
  | String c s' =>
      if p c
      then match star p s' k with
           | Some r => Some r
           | None => k s
           end
      else k s
  | EmptyString => k s
  end.

(** The backtracking matcher, in continuation-passing style: [k]
    receives the rest of the subject and the groups closed so far. *)
Fixpoint rmatch (r : regex) (s : string) (caps : list string)
         (k : string -> list string -> option R) : option R :=
  match r with
  | Lit l => lit l s (fun s' => k s' caps)
  | Cls p =>
      match s with
      | String c s' => if p c then k s' caps else None
      | EmptyString => None
      end
  | Star p => star p s (fun s' => k s' caps)
  | Plus p =>
      match s with
      | String c s' => if p c then star p s' (fun s'' => k s'' caps) else None
      | EmptyString => None
      end
  | Seq r1 r2 => rmatch r1 s caps (fun s' caps' => rmatch r2 s' caps' k)
  | Alt r1 r2 =>
      match rmatch r1 s caps k with
      | Some x => Some x
      | None => rmatch r2 s caps k
      end
  | Grp r1 =>
      rmatch r1 s caps
        (fun s' caps' =>
           k s' (caps' ++ [Str.take (String.length s - String.length s') s])%list)
  end.
End Matcher.

(** A match anchored at the head of [s]: its groups and what follows it. *)
Definition match_at (r : regex) (s : string) : option (list string * string) :=
  rmatch r s [] (fun rest caps => Some (caps, rest)).

(** [re.search(r, s)]: the leftmost match; [None] when there is none. *)
Fixpoint search (r : regex) (s : string) : option (list string * string) :=
  match match_at r s with
  | Some m => Some m
  | None =>
      match s with
      | EmptyString => None
      | String _ s' => search r s'
      end
  end.

(** [re.finditer(r, s)], as the list of the matches' groups.  [skip]
    counts the characters of the last match still to pass over.  The
    program's patterns match no empty string. *)
Fixpoint finditer_go (r : regex) (skip : nat) (s : string)
  : list (list string) :=
  match skip with
  | S k =>
      match s with
      | EmptyString => []
      | String _ s' => finditer_go r k s'
      end
  | O =>
      match s with
      | EmptyString => []
      | String _ s' =>
          match match_at r s with
          | Some (caps, rest) =>
              caps :: finditer_go r (String.length s - String.length rest - 1) s'
          | None => finditer_go r O s'
          end
      end
  end.

Definition finditer (r : regex) (s : string) : list (list string) :=
  finditer_go r O s.

(** [re.split(r, s)] for a pattern without groups that matches no empty
    string: the pieces of [s] between the matches. *)
Fixpoint split_go (r : regex) (skip : nat) (cur : string) (s : string)
  : list string :=
  match skip with
  | S k =>
      match s with
      | EmptyString => [Str.rev cur]
      | String _ s' => split_go r k cur s'
      end
  | O =>
      match s with
      | EmptyString => [Str.rev cur]
      | String c s' =>
          match match_at r s with
          | Some (_, rest) =>
              Str.rev cur
                :: split_go r (String.length s - String.length rest - 1)
                     EmptyString s'
          | None => split_go r O (String c cur) s'
          end
      end
  end.

Definition split (r : regex) (s : string) : list string :=
  split_go r O EmptyString s.

(** The sequence of the patterns of a list. *)
Fixpoint cat (l : list regex) : regex :=
  match l with
  | [] => Lit EmptyString
  | [r] => r
  | r :: l' => Seq r (cat l')
  end.

(** [[^c]] and [.] *)
Definition not_char (c : ascii) : ascii -> bool := fun d => negb (Ascii.eqb d c).
Definition dot : ascii -> bool := not_char Str.newline.

(** The repetition of the class [p] stops at the head of [rest]. *)
Definition stops (p : ascii -> bool) (rest : string) : Prop :=
  match rest with
  | EmptyString => True
  | String c _ => p c = false
  end.


End Re.

(** ** [spell_data.py]: the catalog of classes, specializations and spells *)

Module spell_data.

Definition SPEC_IDS : list (string * list (string * Z)) :=
  [ ("Mage", [("Arcane", 62); ("Fire", 63); ("Frost", 64)]);
    ("Paladin", [("Holy", 65); ("Protection", 66); ("Retribution", 70)]);
    ("Warrior", [("Arms", 71); ("Fury", 72); ("Protection", 73)]);
    ("Druid", [("Balance", 102); ("Feral", 103); ("Guardian", 104); ("Restoration", 105)]);
    ("Death Knight", [("Blood", 250); ("Frost", 251); ("Unholy", 252)]);
    ("Hunter", [("Beast Mastery", 253); ("Marksmanship", 254); ("Survival", 255)]);
    ("Priest", [("Discipline", 256); ("Holy", 257); ("Shadow", 258)]);
    ("Rogue", [("Assassination", 259); ("Combat", 260); ("Subtlety", 261)]);
    ("Shaman", [("Elemental", 262); ("Enhancement", 263); ("Restoration", 264)]);
    ("Warlock", [("Affliction", 265); ("Demonology", 266); ("Destruction", 267)]);
    ("Monk", [("Brewmaster", 268); ("Windwalker", 269); ("Mistweaver", 270)]) ].

Definition SPELL_DATA : list (string * list (string * list string)) :=
  [ ("Mage",
      [("Arcane",
         ["Arcane Blast"; "Arcane Missiles"; "Arcane Barrage";
          "Arcane Power"; "Arcane Brilliance"; "Evocation"; "Blink";
          "Frost Nova"; "Slow"; "Presence of Mind"; "Time Warp";
          "Mirror Image"; "Invisibility"; "Conjure Mana Gem";
          "Arcane Explosion"; "Counterspell"; "Spellsteal";
          "Remove Curse"; "Flamestrike"; "Polymorph"; "Ice Block"]
       );
       ("Fire",
         ["Fireball"; "Pyroblast"; "Fire Blast"; "Flamestrike";
          "Combustion"; "Dragon's Breath"; "Scorch"; "Living Bomb";
          "Blast Wave"; "Molten Armor"; "Arcane Brilliance"; "Evocation";
          "Blink"; "Frost Nova"; "Mirror Image"; "Time Warp";
          "Invisibility"; "Conjure Mana Gem"; "Counterspell";
          "Spellsteal"; "Remove Curse"; "Polymorph"; "Ice Block"]
       );
       ("Frost",
         ["Frostbolt"; "Ice Lance"; "Frost Nova"; "Blizzard";
          "Frozen Orb"; "Icy Veins"; "Cone of Cold"; "Frostfire Bolt";
          "Ice Barrier"; "Cold Snap"; "Frost Armor"; "Arcane Brilliance";
          "Evocation"; "Blink"; "Mirror Image"; "Time Warp";
          "Invisibility"; "Conjure Mana Gem"; "Counterspell";
          "Spellsteal"; "Remove Curse"; "Polymorph"; "Ice Block"]
       )]
    );
    ("Paladin",
      [("Holy",
         ["Holy Light"; "Divine Light"; "Holy Shock"; "Word of Glory";
          "Holy Radiance"; "Light of Dawn"; "Beacon of Light";
          "Divine Shield"; "Divine Protection"; "Lay on Hands";
          "Blessing of Kings"; "Blessing of Might"; "Hand of Protection";
          "Hand of Freedom"; "Hand of Sacrifice"; "Hand of Salvation";
          "Devotion Aura"; "Holy Prism"; "Judgment"; "Hammer of Justice";
          "Turn Evil"; "Divine Plea"]
       );
       ("Protection",
         ["Shield of the Righteous"; "Avenger's Shield"; "Consecration";
          "Hammer of the Righteous"; "Judgment"; "Holy Wrath";
          "Word of Glory"; "Guardian of Ancient Kings";
          "Divine Protection"; "Ardent Defender"; "Divine Shield";
          "Blessing of Kings"; "Blessing of Might"; "Hand of Protection";
          "Hand of Freedom"; "Hand of Sacrifice"; "Hand of Salvation";
          "Devotion Aura"; "Light's Hammer"; "Hammer of Justice";
          "Turn Evil"; "Divine Plea"]
       );
       ("Retribution",
         ["Templar's Verdict"; "Crusader Strike"; "Hammer of Wrath";
          "Judgment"; "Exorcism"; "Inquisition"; "Execution Sentence";
          "Avenging Wrath"; "Divine Shield"; "Divine Protection";
          "Blessing of Kings"; "Blessing of Might"; "Hand of Protection";
          "Hand of Freedom"; "Hand of Sacrifice"; "Hand of Salvation";
          "Devotion Aura"; "Hammer of Justice"; "Turn Evil"; "Divine Plea"]
       )]
    );
    ("Warrior",
      [("Arms",
         ["Mortal Strike"; "Overpower"; "Slam"; "Execute";
          "Colossus Smash"; "Rend"; "Thunder Clap"; "Sweeping Strikes";
          "Bladestorm"; "Die by the Sword"; "Battle Shout";
          "Commanding Shout"; "Charge"; "Heroic Leap"; "Hamstring";
          "Rallying Cry"; "Intervene"; "Spell Reflection"; "Shield Wall";
          "Pummel"; "Intimidating Shout"; "Berserker Rage"; "Victory Rush"]
       );
       ("Fury",
         ["Bloodthirst"; "Wild Strike"; "Raging Blow"; "Execute";
          "Colossus Smash"; "Thunder Clap"; "Whirlwind"; "Berserker Rage";
          "Recklessness"; "Battle Shout"; "Commanding Shout"; "Charge";
          "Heroic Leap"; "Hamstring"; "Rallying Cry"; "Intervene";
          "Spell Reflection"; "Shield Wall"; "Pummel";
          "Intimidating Shout"; "Victory Rush"]
       );
       ("Protection",
         ["Shield Slam"; "Revenge"; "Thunder Clap"; "Devastate";
          "Shield Block"; "Shield Barrier"; "Demoralizing Shout";
          "Last Stand"; "Shield Wall"; "Battle Shout"; "Commanding Shout";
          "Charge"; "Heroic Leap"; "Intervene"; "Spell Reflection";
          "Pummel"; "Intimidating Shout"; "Berserker Rage"; "Victory Rush"]
       )]
    );
    ("Druid",
      [("Balance",
         ["Wrath"; "Starfire"; "Starsurge"; "Moonfire"; "Sunfire";
          "Starfall"; "Hurricane"; "Wild Mushroom";
          "Wild Mushroom: Detonate"; "Celestial Alignment";
          "Force of Nature"; "Faerie Fire"; "Barkskin"; "Innervate";
          "Mark of the Wild"; "Rebirth"; "Tranquility"; "Cyclone";
          "Entangling Roots"; "Hibernate"; "Solar Beam"; "Typhoon";
          "Nature's Swiftness"; "Symbiosis"]
       );
       ("Feral",
         ["Shred"; "Rake"; "Rip"; "Ferocious Bite"; "Savage Roar";
          "Tiger's Fury"; "Berserk"; "Cat Form"; "Maim"; "Faerie Fire";
          "Barkskin"; "Innervate"; "Mark of the Wild"; "Rebirth";
          "Tranquility"; "Cyclone"; "Entangling Roots"; "Hibernate";
          "Skull Bash"; "Nature's Swiftness"; "Symbiosis"]
       );
       ("Guardian",
         ["Mangle"; "Maul"; "Lacerate"; "Thrash"; "Savage Defense";
          "Frenzied Regeneration"; "Survival Instincts"; "Bear Form";
          "Incarnation: Son of Ursoc"; "Faerie Fire"; "Barkskin";
          "Innervate"; "Mark of the Wild"; "Rebirth"; "Tranquility";
          "Cyclone"; "Entangling Roots"; "Hibernate"; "Skull Bash";
          "Nature's Swiftness"; "Symbiosis"]
       );
       ("Restoration",
         ["Rejuvenation"; "Healing Touch"; "Regrowth"; "Lifebloom";
          "Wild Growth"; "Swiftmend"; "Tranquility"; "Wild Mushroom";
          "Wild Mushroom: Bloom"; "Nature's Swiftness"; "Ironbark";
          "Innervate"; "Barkskin"; "Mark of the Wild"; "Rebirth";
          "Cyclone"; "Entangling Roots"; "Hibernate"; "Symbiosis"]
       )]
    );
    ("Death Knight",
      [("Blood",
         ["Death Strike"; "Heart Strike"; "Blood Boil"; "Outbreak";
          "Soul Reaper"; "Dancing Rune Weapon"; "Rune Tap";
          "Vampiric Blood"; "Icebound Fortitude"; "Anti-Magic Shell";
          "Death Grip"; "Mind Freeze"; "Strangulate"; "Army of the Dead";
          "Raise Dead"; "Dark Command"; "Death's Advance";
          "Empower Rune Weapon"; "Horn of Winter"]
       );
       ("Frost",
         ["Obliterate"; "Frost Strike"; "Howling Blast"; "Outbreak";
          "Soul Reaper"; "Pillar of Frost"; "Remorseless Winter";
          "Icebound Fortitude"; "Anti-Magic Shell"; "Death Grip";
          "Mind Freeze"; "Strangulate"; "Army of the Dead"; "Raise Dead";
          "Dark Command"; "Death's Advance"; "Empower Rune Weapon";
          "Horn of Winter"]
       );
       ("Unholy",
         ["Scourge Strike"; "Death Coil"; "Festering Strike"; "Outbreak";
          "Soul Reaper"; "Dark Transformation"; "Summon Gargoyle";
          "Icebound Fortitude"; "Anti-Magic Shell"; "Death Grip";
          "Mind Freeze"; "Strangulate"; "Army of the Dead"; "Raise Dead";
          "Dark Command"; "Death's Advance"; "Empower Rune Weapon";
          "Horn of Winter"]
       )]
    );
    ("Hunter",
      [("Beast Mastery",
         ["Arcane Shot"; "Steady Shot"; "Kill Command"; "Focus Fire";
          "Bestial Wrath"; "Dire Beast"; "Multi-Shot"; "Cobra Shot";
          "Rapid Fire"; "Disengage"; "Deterrence"; "Concussive Shot";
          "Freezing Trap"; "Snake Trap"; "Explosive Trap"; "Ice Trap";
          "Flare"; "Feign Death"; "Misdirection"; "Tranquilizing Shot";
          "Counter Shot"; "Aspect of the Hawk"; "Aspect of the Cheetah";
          "Aspect of the Pack"]
       );
       ("Marksmanship",
         ["Chimera Shot"; "Steady Shot"; "Aimed Shot"; "Arcane Shot";
          "Murder of Crows"; "Multi-Shot"; "Rapid Fire"; "Disengage";
          "Deterrence"; "Concussive Shot"; "Freezing Trap"; "Snake Trap";
          "Explosive Trap"; "Ice Trap"; "Flare"; "Feign Death";
          "Misdirection"; "Tranquilizing Shot"; "Counter Shot";
          "Aspect of the Hawk"; "Aspect of the Cheetah";
          "Aspect of the Pack"]
       );
       ("Survival",
         ["Explosive Shot"; "Black Arrow"; "Serpent Sting"; "Arcane Shot";
          "Multi-Shot"; "Cobra Shot"; "Rapid Fire"; "Disengage";
          "Deterrence"; "Concussive Shot"; "Freezing Trap"; "Snake Trap";
          "Explosive Trap"; "Ice Trap"; "Flare"; "Feign Death";
          "Misdirection"; "Tranquilizing Shot"; "Counter Shot";
          "Aspect of the Hawk"; "Aspect of the Cheetah";
          "Aspect of the Pack"]
       )]
    );
    ("Priest",
      [("Discipline",
         ["Power Word: Shield"; "Penance"; "Prayer of Mending";
          "Flash Heal"; "Greater Heal"; "Prayer of Healing";
          "Power Word: Barrier"; "Pain Suppression"; "Spirit Shell";
          "Divine Aegis"; "Inner Focus"; "Archangel"; "Dispel Magic";
          "Mass Dispel"; "Purify"; "Leap of Faith"; "Fear Ward"; "Fade";
          "Psychic Scream"; "Power Word: Fortitude"; "Divine Hymn";
          "Holy Fire"; "Smite"]
       );
       ("Holy",
         ["Heal"; "Flash Heal"; "Greater Heal"; "Binding Heal";
          "Prayer of Mending"; "Prayer of Healing"; "Circle of Healing";
          "Holy Word: Sanctuary"; "Divine Hymn"; "Guardian Spirit";
          "Renew"; "Chakra"; "Dispel Magic"; "Mass Dispel"; "Purify";
          "Leap of Faith"; "Fear Ward"; "Fade"; "Psychic Scream";
          "Power Word: Fortitude"; "Holy Fire"; "Smite"]
       );
       ("Shadow",
         ["Mind Blast"; "Mind Flay"; "Shadow Word: Pain";
          "Vampiric Touch"; "Devouring Plague"; "Mind Spike";
          "Shadow Word: Death"; "Shadowfiend"; "Dispersion";
          "Psychic Horror"; "Dispel Magic"; "Mass Dispel";
          "Leap of Faith"; "Fear Ward"; "Fade"; "Psychic Scream";
          "Power Word: Fortitude"; "Shadow Word: Insanity"]
       )]
    );
    ("Rogue",
      [("Assassination",
         ["Mutilate"; "Envenom"; "Dispatch"; "Rupture"; "Garrote";
          "Vendetta"; "Fan of Knives"; "Crimson Tempest";
          "Slice and Dice"; "Recuperate"; "Sprint"; "Vanish";
          "Cloak of Shadows"; "Evasion"; "Combat Readiness";
          "Shadow Step"; "Feint"; "Kick"; "Blind"; "Tricks of the Trade";
          "Kidney Shot"; "Cheap Shot"; "Sap"; "Distract"; "Stealth"]
       );
       ("Combat",
         ["Sinister Strike"; "Eviscerate"; "Revealing Strike";
          "Slice and Dice"; "Adrenaline Rush"; "Killing Spree";
          "Blade Flurry"; "Fan of Knives"; "Crimson Tempest";
          "Recuperate"; "Sprint"; "Vanish"; "Cloak of Shadows"; "Evasion";
          "Combat Readiness"; "Feint"; "Kick"; "Blind";
          "Tricks of the Trade"; "Kidney Shot"; "Cheap Shot"; "Sap";
          "Distract"; "Stealth"]
       );
       ("Subtlety",
         ["Backstab"; "Hemorrhage"; "Eviscerate"; "Rupture";
          "Shadow Dance"; "Premeditation"; "Ambush"; "Fan of Knives";
          "Crimson Tempest"; "Slice and Dice"; "Recuperate"; "Sprint";
          "Vanish"; "Cloak of Shadows"; "Evasion"; "Combat Readiness";
          "Shadow Step"; "Feint"; "Kick"; "Blind"; "Tricks of the Trade";
          "Kidney Shot"; "Cheap Shot"; "Sap"; "Distract"; "Stealth"]
       )]
    );
    ("Shaman",
      [("Elemental",
         ["Lightning Bolt"; "Chain Lightning"; "Earth Shock";
          "Flame Shock"; "Lava Burst"; "Earthquake"; "Elemental Blast";
          "Thunderstorm"; "Ascendance"; "Spiritwalker's Grace";
          "Fire Elemental Totem"; "Earth Elemental Totem";
          "Healing Stream Totem"; "Healing Tide Totem"; "Grounding Totem";
          "Capacitor Totem"; "Wind Shear"; "Ghost Wolf"; "Water Walking";
          "Water Breathing"]
       );
       ("Enhancement",
         ["Stormstrike"; "Lava Lash"; "Earth Shock"; "Flame Shock";
          "Lightning Bolt"; "Searing Totem"; "Feral Spirit"; "Ascendance";
          "Fire Elemental Totem"; "Earth Elemental Totem";
          "Healing Stream Totem"; "Healing Tide Totem"; "Grounding Totem";
          "Capacitor Totem"; "Wind Shear"; "Ghost Wolf"; "Water Walking";
          "Water Breathing"]
       );
       ("Restoration",
         ["Healing Wave"; "Healing Surge"; "Greater Healing Wave";
          "Chain Heal"; "Riptide"; "Healing Rain"; "Healing Stream Totem";
          "Healing Tide Totem"; "Spirit Link Totem"; "Ascendance";
          "Spiritwalker's Grace"; "Earth Shield"; "Water Shield";
          "Grounding Totem"; "Capacitor Totem"; "Wind Shear";
          "Ghost Wolf"; "Water Walking"; "Water Breathing"]
       )]
    );
    ("Warlock",
      [("Affliction",
         ["Agony"; "Corruption"; "Unstable Affliction"; "Malefic Grasp";
          "Haunt"; "Drain Soul"; "Seed of Corruption"; "Soulburn";
          "Dark Soul: Misery"; "Life Tap"; "Fear"; "Howl of Terror";
          "Mortal Coil"; "Demonic Circle: Teleport"; "Unending Resolve";
          "Dark Bargain"; "Soulshatter"; "Fel Armor"; "Health Funnel";
          "Create Healthstone"; "Summon Doomguard"; "Summon Infernal";
          "Summon Felhunter"; "Summon Voidwalker"; "Summon Imp";
          "Summon Succubus"]
       );
       ("Demonology",
         ["Shadow Bolt"; "Soul Fire"; "Hand of Gul'dan"; "Metamorphosis";
          "Touch of Chaos"; "Doom"; "Hellfire"; "Chaos Wave";
          "Dark Soul: Knowledge"; "Life Tap"; "Fear"; "Howl of Terror";
          "Mortal Coil"; "Demonic Circle: Teleport"; "Unending Resolve";
          "Dark Bargain"; "Soulshatter"; "Fel Armor"; "Health Funnel";
          "Create Healthstone"; "Summon Doomguard"; "Summon Infernal";
          "Summon Felhunter"; "Summon Voidwalker"; "Summon Imp";
          "Summon Felguard"]
       );
       ("Destruction",
         ["Incinerate"; "Immolate"; "Conflagrate"; "Chaos Bolt";
          "Shadowburn"; "Rain of Fire"; "Havoc"; "Dark Soul: Instability";
          "Life Tap"; "Fear"; "Howl of Terror"; "Mortal Coil";
          "Demonic Circle: Teleport"; "Unending Resolve"; "Dark Bargain";
          "Soulshatter"; "Fel Armor"; "Health Funnel";
          "Create Healthstone"; "Summon Doomguard"; "Summon Infernal";
          "Summon Felhunter"; "Summon Voidwalker"; "Summon Imp";
          "Summon Succubus"]
       )]
    );
    ("Monk",
      [("Brewmaster",
         ["Keg Smash"; "Blackout Kick"; "Tiger Palm"; "Breath of Fire";
          "Guard"; "Purifying Brew"; "Fortifying Brew"; "Zen Sphere";
          "Chi Wave"; "Leg Sweep"; "Rushing Jade Wind";
          "Summon Black Ox Statue"; "Spear Hand Strike"; "Elusive Brew";
          "Expel Harm"; "Detox"; "Roll"; "Flying Serpent Kick";
          "Spinning Crane Kick"; "Touch of Death"; "Paralysis";
          "Legacy of the Emperor"; "Legacy of the White Tiger"]
       );
       ("Windwalker",
         ["Tiger Palm"; "Blackout Kick"; "Rising Sun Kick";
          "Fists of Fury"; "Spinning Crane Kick"; "Touch of Death";
          "Storm, Earth, and Fire"; "Energizing Brew"; "Tiger's Lust";
          "Chi Wave"; "Zen Sphere"; "Leg Sweep"; "Rushing Jade Wind";
          "Spear Hand Strike"; "Expel Harm"; "Detox"; "Roll";
          "Flying Serpent Kick"; "Touch of Karma"; "Paralysis";
          "Legacy of the Emperor"; "Legacy of the White Tiger"]
       );
       ("Mistweaver",
         ["Soothing Mist"; "Enveloping Mist"; "Surging Mist";
          "Renewing Mist"; "Chi Wave"; "Zen Sphere"; "Chi Burst";
          "Life Cocoon"; "Revival"; "Thunder Focus Tea";
          "Spinning Crane Kick"; "Detox"; "Roll"; "Flying Serpent Kick";
          "Touch of Death"; "Paralysis"; "Legacy of the Emperor";
          "Legacy of the White Tiger"]
       )]
    ) ].

(** [get_spec_id(class_name, spec_name)]; [None] for an unknown pair. *)
Definition get_spec_id (class_name spec_name : string) : option Z :=
  match dict_get SPEC_IDS class_name with
  | Some specs => dict_get specs spec_name
  | None => None
  end.

(** [get_spells_for_spec(class_name, spec_name)] *)
Definition get_spells_for_spec (class_name spec_name : string) : list string :=
  match dict_get SPELL_DATA class_name with
  | Some specs =>
      match dict_get specs spec_name with
      | Some spells => Str.sorted spells
      | None => []
      end
  | None => []
  end.

End spell_data.

(** ** [conditions.py]: the condition validator and the builder *)

Module ConditionValidator.

Definition BASIC_CONDITIONS : list (string * list (string * string)) :=
  [ ("player",
      [("health", "Player's health percentage");
       ("health.actual", "Player's actual health value");
       ("health.max", "Player's maximum health");
       ("mana", "Player's mana percentage");
       ("rage", "Player's rage amount");
       ("energy", "Player's energy amount");
       ("focus", "Player's focus amount");
       ("runicpower", "Player's runic power amount");
       ("holypower", "Player's holy power amount");
       ("chi", "Player's chi amount");
       ("soulshards", "Player's soul shards amount");
       ("eclipse", "Player's eclipse value");
       ("combopoints", "Player's combo points");
       ("buff", "Check if player has a specific buff");
       ("buff.any", "Check if player has any of several buffs");
       ("buff.count", "Stack count of a buff");
       ("buff.duration", "Remaining duration of a buff");
       ("debuff", "Check if player has a specific debuff");
       ("debuff.any", "Check if player has any of several debuffs");
       ("debuff.count", "Stack count of a debuff");
       ("debuff.duration", "Remaining duration of a debuff");
       ("moving", "Check if player is moving");
       ("movingfor", "Time player has been moving");
       ("casting", "Check if player is casting");
       ("casting.percent", "Percentage of cast completed");
       ("casting.delta", "Time left on current cast");
       ("channeling", "Check if player is channeling");
       ("stance", "Current stance (Warrior)");
       ("form", "Current form (Druid)");
       ("seal", "Current seal (Paladin)");
       ("lastcast", "Last spell cast");
       ("level", "Player's level");
       ("spec", "Current specialization");
       ("talent", "Check if player has a specific talent");
       ("glyph", "Check if player has a specific glyph")]
    );
    ("target",
      [("health", "Target's health percentage");
       ("health.actual", "Target's actual health value");
       ("health.max", "Target's maximum health");
       ("exists", "Check if target exists");
       ("enemy", "Check if target is hostile");
       ("friend", "Check if target is friendly");
       ("name", "Target's name");
       ("distance", "Distance to target in yards");
       ("range", "Check if target is in range");
       ("debuff", "Check if target has a specific debuff");
       ("debuff.any", "Check if target has any of several debuffs");
       ("debuff.count", "Stack count of a debuff");
       ("debuff.duration", "Remaining duration of a debuff");
       ("casting", "Check if target is casting");
       ("casting.percent", "Percentage of cast completed");
       ("casting.delta", "Time left on current cast");
       ("interruptsat", "Percentage when cast can be interrupted");
       ("moving", "Check if target is moving");
       ("level", "Target's level");
       ("classification", "Target's classification (normal, elite, rare, etc.)");
       ("creatureType", "Target's creature type");
       ("boss", "Check if target is a boss");
       ("id", "Target's ID");
       ("threat", "Threat percentage on target");
       ("isplayer", "Check if target is a player")]
    );
    ("spell",
      [("cooldown", "Cooldown time remaining");
       ("charges", "Number of charges available");
       ("usable", "Check if spell is usable");
       ("exists", "Check if spell exists in spellbook");
       ("range", "Check if target is in range of spell");
       ("casted", "Check if spell was cast recently")]
    );
    ("area",
      [("enemies", "Number of enemies in an area");
       ("friendly", "Number of friendly units in an area")]
    );
    ("group",
      [("members", "Number of group members");
       ("avghealth", "Average health percentage of the group");
       ("raid", "Check if in a raid");
       ("party", "Check if in a party")]
    );
    ("toggle",
      [("cooldowns", "Check if cooldowns are enabled");
       ("aoe", "Check if AoE is enabled");
       ("interrupt", "Check if interrupts are enabled");
       ("custom", "Check custom toggle state")]
    );
    ("modifier",
      [("shift", "Check if shift is held");
       ("control", "Check if control is held");
       ("alt", "Check if alt is held");
       ("lshift", "Check if left shift is held");
       ("lcontrol", "Check if left control is held");
       ("lalt", "Check if left alt is held");
       ("rshift", "Check if right shift is held");
       ("rcontrol", "Check if right control is held");
       ("ralt", "Check if right alt is held")]
    ) ].

Definition CLASS_CONDITIONS : list (string * list (string * string)) :=
  [ ("Druid",
      [("solar", "Solar energy amount");
       ("lunar", "Lunar energy amount");
       ("eclipse", "Eclipse direction/value");
       ("balance.sun", "In Solar Eclipse");
       ("balance.moon", "In Lunar Eclipse");
       ("mushrooms", "Active mushrooms count")]
    );
    ("Death Knight",
      [("runes.count", "Available runes count");
       ("runes.frac", "Fractional runes");
       ("runes.depleted", "Depleted runes count")]
    );
    ("Warlock",
      [("embers", "Burning Embers count");
       ("demonicfury", "Demonic Fury amount")]
    ) ].

Definition OPERATORS : list string :=
  [">"; "<"; ">="; "<="; "=="; "!="; "&&"; "||"; "!"].

Definition valid_chars : string :=
  "abcdefghijklmnopqrstuvwxyzABCDEFGHIJKLMNOPQRSTUVWXYZ0123456789._()!&|<>= ".

Definition _check_basic_syntax (condition : string) : bool :=
  if Str.contains "  " condition then false
  else if negb (Str.all_chars (fun c => Str.mem_char c valid_chars) condition)
       then false
       else true.

Definition invalid_combinations : list string :=
  ["&&&&"; "||||"; "!!"; "<<"; ">>"; "==>"; "<=="].

(** The test of the second loop of [_validate_operators] for one [op]. *)
Definition operator_misused (condition op : string) : bool :=
  Str.contains op condition
  && negb (Str.contains (" " ++ op ++ " ") condition
           || Str.startswith condition (op ++ " ")).

Definition _validate_operators (condition : string) : bool :=
  if existsb (fun combo => Str.contains combo condition) invalid_combinations
  then false
  else if existsb (operator_misused condition) OPERATORS then false
       else true.

(** The loop of [_validate_parentheses], with its stack. *)
Fixpoint parentheses_loop (stack : list ascii) (s : string) : bool :=
  match s with
  | EmptyString => Nat.eqb (List.length stack) 0
  | String c s' =>
      if Ascii.eqb c "(" then parentheses_loop (c :: stack) s'
      else if Ascii.eqb c ")"
           then match stack with
                | [] => false
                | _ :: stack' => parentheses_loop stack' s'
                end
           else parentheses_loop stack s'
  end.

Definition _validate_parentheses (condition : string) : bool :=
  parentheses_loop [] condition.

(** The pattern [\s+(?:&&|\|\|)\s+] *)
Definition logical_separator : Re.regex :=
  Re.Seq (Re.Plus Str.isspace)
    (Re.Seq (Re.Alt (Re.Lit "&&") (Re.Lit "||")) (Re.Plus Str.isspace)).

(** [base.split(sep)[0] if sep in component else base] *)
Definition cut (component sep base : string) : exn string :=
  if Str.contains sep component then getitem (Str.split base sep) 0
  else Return base.

(** The body of the loop of [_validate_components] for one component:
    [Return true] when the loop goes on to the next component,
    [Return false] when it returns [False]. *)
Definition check_component (component : string) : exn bool :=
  let component :=
    if Str.startswith component "!" then Str.drop1 component else component in
  base <- cut component "(" component ;;
  base <- cut component ">" base ;;
  base <- cut component "<" base ;;
  base <- cut component "==" base ;;
  base <- cut component "!=" base ;;
  let parts := Str.split base "." in
  if (List.length parts <? 2)%nat then Return false
  else
    category <- getitem parts 0 ;;
    subcategory <- getitem parts 1 ;;
    if negb (dict_mem BASIC_CONDITIONS category) then Return false
    else
      subcategories <- dict_getitem BASIC_CONDITIONS category ;;
      if negb (dict_mem subcategories subcategory) then Return false
      else Return true.

Fixpoint components_loop (components : list string) : exn bool :=
  match components with
  | [] => Return true
  | component :: rest =>
      ok <- check_component component ;;
      if ok then components_loop rest else Return false
  end.

Definition _validate_components (condition : string) : exn bool :=
  components_loop (Re.split logical_separator condition).

(** [validate_condition], over the four checks it calls in its [try]
    block.  Each check may return or raise. *)
Section Validate.
Variables basic operators parentheses components : string -> exn bool.

Definition validate_body (condition : string) : exn (bool * string) :=
  let condition := Str.strip condition in
  ok <- basic condition ;;
  if negb ok then Return (false, "Invalid condition syntax")
  else
    ok <- operators condition ;;
    if negb ok then Return (false, "Invalid operator usage")
    else
      ok <- parentheses condition ;;
      if negb ok then Return (false, "Mismatched parentheses")
      else
        ok <- components condition ;;
        if negb ok then Return (false, "Invalid condition components")
        else Return (true, "").

Definition validate_condition_with (condition : string) : exn (bool * string) :=
  if String.eqb condition "" || String.eqb (Str.strip condition) "true"
  then Return (true, "")
  else
    try_except (validate_body condition)
      (fun e => Return (false, "Validation error: " ++ str_exc e)).
End Validate.

Definition validate_condition : string -> exn (bool * string) :=
  validate_condition_with
    (fun c => Return (_check_basic_syntax c))
    (fun c => Return (_validate_operators c))
    (fun c => Return (_validate_parentheses c))
    _validate_components.

End ConditionValidator.

Module ConditionBuilder.

Record t : Type := mk {
  condition_parts : list string;
  current_class : option string
}.

(** [ConditionBuilder()] *)
Definition init : t := {| condition_parts := []; current_class := None |}.

Definition set_class (self : t) (class_name : string) : t :=
  {| condition_parts := condition_parts self; current_class := Some class_name |}.

(** [self.current_class and self.current_class in CLASS_CONDITIONS] *)
Definition class_has_conditions (self : t) : bool :=
  match current_class self with
  | Some c => negb (String.eqb c "")
              && dict_mem ConditionValidator.CLASS_CONDITIONS c
  | None => false
  end.

Definition get_available_categories (self : t) : list string :=
  let categories := map fst ConditionValidator.BASIC_CONDITIONS in
  let categories :=
    match current_class self with
    | Some c => if class_has_conditions self then (categories ++ [c])%list
                else categories
    | None => categories
    end in
  Str.sorted categories.

Definition get_conditions_for_category (self : t) (category : string)
  : list (string * string) :=
  match dict_get ConditionValidator.BASIC_CONDITIONS category with
  | Some conditions => conditions
  | None =>
      match current_class self with
      | Some c =>
          if String.eqb category c && class_has_conditions self
          then match dict_get ConditionValidator.CLASS_CONDITIONS c with
               | Some conditions => conditions
               | None => []
               end
          else []
      | None => []
      end
  end.

Definition add_condition_part (self : t) (category condition operator value : string)
  : t :=
  let condition_str := category ++ "." ++ condition in
  let condition_str :=
    if negb (String.eqb operator "") && negb (String.eqb value "")
    then condition_str ++ " " ++ operator ++ " " ++ value
    else condition_str in
  {| condition_parts := (condition_parts self ++ [condition_str])%list;
     current_class := current_class self |}.

Definition add_logical_operator (self : t) (operator : string) : t :=
  {| condition_parts := (condition_parts self ++ [operator])%list;
     current_class := current_class self |}.

Definition add_not_operator (self : t) : t :=
  match List.last (map Some (condition_parts self)) None with
  | Some last =>
      if negb (list_mem last ["&&"; "||"])
      then {| condition_parts := (condition_parts self ++ ["!"])%list;
              current_class := current_class self |}
      else self
  | None => self
  end.

Definition get_condition (self : t) : string :=
  Str.join " " (condition_parts self).

Definition clear (self : t) : t :=
  {| condition_parts := []; current_class := current_class self |}.

Definition remove_last (self : t) : t :=
  {| condition_parts := List.removelast (condition_parts self);
     current_class := current_class self |}.

Definition validate (self : t) : exn (bool * string) :=
  ConditionValidator.validate_condition (get_condition self).

(** One interaction with the builder. *)
Inductive action : Type :=
| SetClass (class_name : string)
| AddConditionPart (category condition operator value : string)
| AddLogicalOperator (operator : string)
| AddNotOperator
| RemoveLast
| Clear.

Definition step (self : t) (a : action) : t :=
  match a with
  | SetClass c => set_class self c
  | AddConditionPart category condition operator value =>
      add_condition_part self category condition operator value
  | AddLogicalOperator operator => add_logical_operator self operator
  | AddNotOperator => add_not_operator self
  | RemoveLast => remove_last self
  | Clear => clear self
  end.

Definition run (actions : list action) : t := fold_left step actions init.

(** [category]/[condition] is a pair the builder offers in its menus. *)
Definition offered (self : t) (category condition : string) : bool :=
  list_mem category (get_available_categories self)
  && dict_mem (get_conditions_for_category self category) condition.

End ConditionBuilder.

(** ** Lists as Python uses them *)

Module PyList.
Section Ops.
Context {A : Type}.

(** The index of the first element that satisfies [p]: the element a
    [for] loop with an early exit stops at. *)
Fixpoint find_index (p : A -> bool) (l : list A) : option nat :=
  match l with
  | [] => None
  | x :: l' =>
      if p x then Some O
      else match find_index p l' with
           | Some i => Some (S i)
           | None => None
           end
  end.

(** Assignment to the attributes of the object at index [i]: the other
    elements, and the list's order, are untouched. *)
Fixpoint update_at (i : nat) (f : A -> A) (l : list A) : list A :=
  match l, i with
  | [], _ => []
  | x :: l', O => f x :: l'
  | x :: l', S j => x :: update_at j f l'
  end.

(** [l.pop(i)], the list that remains. *)
Fixpoint remove_at (i : nat) (l : list A) : list A :=
  match l, i with
  | [], _ => []
  | _ :: l', O => l'
  | x :: l', S j => x :: remove_at j l'
  end.

(** [l.sort(key=key)]: the sort is stable, so its result is the one
    of the stable insertion sort. *)
Fixpoint insert_by (key : A -> Z) (x : A) (l : list A) : list A :=
  match l with
  | [] => [x]
  | y :: l' => if key x <=? key y then x :: l else y :: insert_by key x l'
  end.

Definition sort_by (key : A -> Z) (l : list A) : list A :=
  fold_right (insert_by key) [] l.
End Ops.

(** Where the object at index [i] of [l] stands after [l.sort(key=key)]. *)
Definition index_after_sort {A} (key : A -> Z) (l : list A) (i : nat) : nat :=
  let tagged := combine (seq 0 (List.length l)) l in
  match find_index (fun p => Nat.eqb (fst p) i)
          (sort_by (fun p => key (snd p)) tagged) with
  | Some j => j
  | None => i
  end.
End PyList.

(** ** [core/rotation.py]: the rotation model *)

(** A reading of [time.time()].  The code stores and copies readings and
    never computes with them. *)
Definition timestamp : Type := Z.

Module SpellEntry.
Record t : Type := mk {
  name : string;
  condition : string;
  priority : Z;
  enabled : bool;
  notes : string;
  id : option Z
}.

(** [SpellEntry(name=..., condition=..., priority=...)], with the
    defaults of the other fields. *)
Definition new (name condition : string) (priority : Z) : t :=
  mk name condition priority true "" None.

Definition set_name (v : string) (s : t) : t :=
  mk v (condition s) (priority s) (enabled s) (notes s) (id s).
Definition set_condition (v : string) (s : t) : t :=
  mk (name s) v (priority s) (enabled s) (notes s) (id s).
Definition set_priority (v : Z) (s : t) : t :=
  mk (name s) (condition s) v (enabled s) (notes s) (id s).
Definition set_enabled (v : bool) (s : t) : t :=
  mk (name s) (condition s) (priority s) v (notes s) (id s).
Definition set_notes (v : string) (s : t) : t :=
  mk (name s) (condition s) (priority s) (enabled s) v (id s).
Definition set_id (v : option Z) (s : t) : t :=
  mk (name s) (condition s) (priority s) (enabled s) (notes s) v.
End SpellEntry.

Module RotationMetadata.
Record t : Type := mk {
  name : string;
  class_name : string;
  spec_name : string;
  author : string;
  version : string;
  description : string;
  created_at : timestamp;
  modified_at : timestamp;
  tags : list string
}.

Definition set_name (v : string) (m : t) : t :=
  mk v (class_name m) (spec_name m) (author m) (version m) (description m)
     (created_at m) (modified_at m) (tags m).
Definition set_author (v : string) (m : t) : t :=
  mk (name m) (class_name m) (spec_name m) v (version m) (description m)
     (created_at m) (modified_at m) (tags m).
Definition set_version (v : string) (m : t) : t :=
  mk (name m) (class_name m) (spec_name m) (author m) v (description m)
     (created_at m) (modified_at m) (tags m).
Definition set_description (v : string) (m : t) : t :=
  mk (name m) (class_name m) (spec_name m) (author m) (version m) v
     (created_at m) (modified_at m) (tags m).
Definition set_created_at (v : timestamp) (m : t) : t :=
  mk (name m) (class_name m) (spec_name m) (author m) (version m)
     (description m) v (modified_at m) (tags m).
Definition set_modified_at (v : timestamp) (m : t) : t :=
  mk (name m) (class_name m) (spec_name m) (author m) (version m)
     (description m) (created_at m) v (tags m).
Definition set_tags (v : list string) (m : t) : t :=
  mk (name m) (class_name m) (spec_name m) (author m) (version m)
     (description m) (created_at m) (modified_at m) v.
End RotationMetadata.

Module Rotation.

Record t : Type := mk {
  metadata : RotationMetadata.t;
  spells : list SpellEntry.t;
  spec_id : option Z
}.

Definition set_metadata (f : RotationMetadata.t -> RotationMetadata.t) (self : t) : t :=
  mk (f (metadata self)) (spells self) (spec_id self).
Definition set_spells (l : list SpellEntry.t) (self : t) : t :=
  mk (metadata self) l (spec_id self).

(** [self.metadata.modified_at = time.time()] *)
Definition touch (now : timestamp) (self : t) : t :=
  set_metadata (RotationMetadata.set_modified_at now) self.

(** [not self.spec_id] *)
Definition spec_id_missing (sid : option Z) : bool :=
  match sid with
  | Some n => n =? 0
  | None => true
  end.

(** [Rotation(class_name, spec_name)]; [t0] and [t1] are the two clock
    readings of the constructor. *)
Definition init (t0 t1 : timestamp) (class_name spec_name : string) : exn t :=
  let self :=
    {| metadata :=
         RotationMetadata.mk (class_name ++ " " ++ spec_name ++ " Rotation")
           class_name spec_name "" "1.0" "" t0 t1 [];
       spells := [];
       spec_id := spell_data.get_spec_id class_name spec_name |} in
  if spec_id_missing (spec_id self)
  then Raise (ValueError ("Invalid class/spec combination: "
                          ++ class_name ++ "/" ++ spec_name))
  else Return self.

Definition _sort_spells (l : list SpellEntry.t) : list SpellEntry.t :=
  PyList.sort_by SpellEntry.priority l.

(** The loop of [add_spell] that makes room for an explicit priority. *)
Definition shift_up (priority : Z) (l : list SpellEntry.t) : list SpellEntry.t :=
  map (fun spell =>
         if SpellEntry.priority spell >=? priority
         then SpellEntry.set_priority (SpellEntry.priority spell + 1) spell
         else spell) l.

(** [add_spell].  The outcome is the index in [self.spells] of the entry
    the method returns, which stays an element of the list; [now] is the
    clock reading of a successful call. *)
Definition add_spell (now : timestamp) (self : t) (spell_name condition : string)
           (priority : option Z) : exn nat * t :=
  let class_name := RotationMetadata.class_name (metadata self) in
  let spec_name := RotationMetadata.spec_name (metadata self) in
  if negb (list_mem spell_name (spell_data.get_spells_for_spec class_name spec_name))
  then (Raise (ValueError ("Spell " ++ spell_name ++ " not found for "
                           ++ class_name ++ "/" ++ spec_name)), self)
  else
    match ConditionValidator.validate_condition condition with
    | Raise e => (Raise e, self)
    | Return (is_valid, error) =>
        if negb is_valid
        then (Raise (ValueError ("Invalid condition: " ++ error)), self)
        else
          let '(priority, shifted) :=
            match priority with
            | None => (Z.of_nat (List.length (spells self)) + 1, spells self)
            | Some p => (p, shift_up p (spells self))
            end in
          let entry := SpellEntry.new spell_name condition priority in
          let appended := (shifted ++ [entry])%list in
          (Return (PyList.index_after_sort SpellEntry.priority appended
                     (List.length shifted)),
           touch now (set_spells (_sort_spells appended) self))
    end.

(** The inner loop of [remove_spell], after the [pop]. *)
Definition shift_down (priority : Z) (l : list SpellEntry.t) : list SpellEntry.t :=
  map (fun s =>
         if SpellEntry.priority s >? priority
         then SpellEntry.set_priority (SpellEntry.priority s - 1) s
         else s) l.

Definition remove_spell (now : timestamp) (self : t) (priority : Z) : bool * t :=
  match PyList.find_index (fun spell => SpellEntry.priority spell =? priority)
          (spells self) with
  | Some i =>
      (true,
       touch now (set_spells (shift_down priority (PyList.remove_at i (spells self)))
                    self))
  | None => (false, self)
  end.

(** The two loops of [move_spell] that renumber the entries between the
    two priorities. *)
Definition renumber (from_priority to_priority : Z) (l : list SpellEntry.t)
  : list SpellEntry.t :=
  if from_priority <? to_priority
  then map (fun spell =>
              if (from_priority <? SpellEntry.priority spell)
                 && (SpellEntry.priority spell <=? to_priority)
              then SpellEntry.set_priority (SpellEntry.priority spell - 1) spell
              else spell) l
  else map (fun spell =>
              if (to_priority <=? SpellEntry.priority spell)
                 && (SpellEntry.priority spell <? from_priority)
              then SpellEntry.set_priority (SpellEntry.priority spell + 1) spell
              else spell) l.

Definition move_spell (now : timestamp) (self : t) (from_priority to_priority : Z)
  : bool * t :=
  if from_priority =? to_priority then (true, self)
  else
    match PyList.find_index
            (fun spell => SpellEntry.priority spell =? from_priority)
            (spells self) with
    | None => (false, self)
    | Some spell_to_move =>
        let renumbered := renumber from_priority to_priority (spells self) in
        let assigned :=
          PyList.update_at spell_to_move (SpellEntry.set_priority to_priority)
            renumbered in
        (true, touch now (set_spells (_sort_spells assigned) self))
    end.

(** Some entry has this priority: the loop of [update_spell] finds one. *)
Definition has_entry (priority : Z) (self : t) : bool :=
  match PyList.find_index (fun spell => SpellEntry.priority spell =? priority)
          (spells self) with
  | Some _ => true
  | None => false
  end.

(** The keyword arguments of [update_spell] that name a field of
    [SpellEntry]; [None] for a keyword that is not passed. *)
Record kwargs : Type := mk_kwargs {
  kw_name : option string;
  kw_condition : option string;
  kw_priority : option Z;
  kw_enabled : option bool;
  kw_notes : option string;
  kw_id : option (option Z)
}.

Definition opt_set {V} (v : option V) (set : V -> SpellEntry.t -> SpellEntry.t)
           (s : SpellEntry.t) : SpellEntry.t :=
  match v with
  | Some x => set x s
  | None => s
  end.

(** [for key, value in kwargs.items(): setattr(spell, key, value)] *)
Definition setattrs (kw : kwargs) (s : SpellEntry.t) : SpellEntry.t :=
  opt_set (kw_id kw) SpellEntry.set_id
    (opt_set (kw_notes kw) SpellEntry.set_notes
       (opt_set (kw_enabled kw) SpellEntry.set_enabled
          (opt_set (kw_priority kw) SpellEntry.set_priority
             (opt_set (kw_condition kw) SpellEntry.set_condition
                (opt_set (kw_name kw) SpellEntry.set_name s))))).

Definition update_spell (now : timestamp) (self : t) (priority : Z) (kw : kwargs)
  : exn bool * t :=
  match PyList.find_index (fun spell => SpellEntry.priority spell =? priority)
          (spells self) with
  | None => (Return false, self)
  | Some i =>
      let checked : exn unit :=
        match kw_condition kw with
        | Some condition =>
            r <- ConditionValidator.validate_condition condition ;;
            let '(is_valid, error) := r in
            if negb is_valid
            then Raise (ValueError ("Invalid condition: " ++ error))
            else Return tt
        | None => Return tt
        end in
      match checked with
      | Raise e => (Raise e, self)
      | Return _ =>
          (Return true,
           touch now (set_spells (PyList.update_at i (setattrs kw) (spells self))
                        self))
      end
  end.

(** [to_soe_format] *)
Definition to_soe_format (self : t) : string :=
  let m := metadata self in
  let header :=
    [ "-- " ++ RotationMetadata.name m;
      "-- Author: " ++ RotationMetadata.author m;
      "-- Version: " ++ RotationMetadata.version m;
      "-- Description: " ++ RotationMetadata.description m;
      "";
      "SOEEngine.rotation.register("
        ++ match spec_id self with
           | Some n => Str.str_int n
           | None => "None"
           end ++ ", {" ] in
  let body :=
    flat_map
      (fun spell =>
         if SpellEntry.enabled spell
         then
           let condition :=
             if negb (String.eqb (SpellEntry.condition spell) "true")
             then SpellEntry.condition spell else "true" in
           ["    { " ++ Str.quote ++ SpellEntry.name spell ++ Str.quote ++ ", "
            ++ Str.quote ++ condition ++ Str.quote ++ " },"]
         else [])
      (spells self) in
  Str.join (String Str.newline EmptyString) (header ++ body ++ ["})"])%list.

(** The names bound at the top level of [core/rotation.py]: its imports
    (lines 1 to 6) and its classes.  The module does not import [re]. *)
Definition module_names : list string :=
  ["Dict"; "List"; "Optional"; "Any"; "dataclass"; "asdict"; "json"; "time";
   "ConditionValidator"; "spell_data"; "SpellEntry"; "RotationMetadata";
   "Rotation"; "RotationManager"].

(** The pattern [register\((\d+)] *)
Definition register_pattern : Re.regex :=
  Re.cat [Re.Lit "register("; Re.Grp (Re.Plus Str.isdigit)].

(** The pattern [\{\s*Q([^Q]+)Q,\s*Q([^Q]+)Q\s*\}], where [Q] stands for
    the double quote character. *)
Definition spell_pattern : Re.regex :=
  Re.cat [Re.Lit "{"; Re.Star Str.isspace; Re.Lit Str.quote;
          Re.Grp (Re.Plus (Re.not_char Str.dquote));
          Re.Lit (Str.quote ++ ","); Re.Star Str.isspace; Re.Lit Str.quote;
          Re.Grp (Re.Plus (Re.not_char Str.dquote));
          Re.Lit Str.quote; Re.Star Str.isspace; Re.Lit "}"].

(** The inner loop over [specs.items()]: the first spec with this id. *)
Fixpoint find_spec_in (specs : list (string * Z)) (spec_id : Z) : option string :=
  match specs with
  | [] => None
  | (s, sid) :: rest => if sid =? spec_id then Some s else find_spec_in rest spec_id
  end.

(** The two nested loops over [SPEC_IDS] that look a class and a spec up
    by id.  Every class and spec name of the table is a non-empty string,
    so the outer loop stops at the first class that has the id. *)
Fixpoint find_spec (table : list (string * list (string * Z))) (spec_id : Z)
  : option (string * string) :=
  match table with
  | [] => None
  | (c, specs) :: rest =>
      match find_spec_in specs spec_id with
      | Some s => Some (c, s)
      | None => find_spec rest spec_id
      end
  end.

(** [class_name, spec_name] after the loops, or the [ValueError] of the
    test [not class_name or not spec_name]. *)
Definition class_and_spec (spec_id : Z) : exn (string * string) :=
  match find_spec spell_data.SPEC_IDS spec_id with
  | Some (c, s) =>
      if String.eqb c "" || String.eqb s ""
      then Raise (ValueError ("Invalid spec ID: " ++ Str.str_int spec_id))
      else Return (c, s)
  | None => Raise (ValueError ("Invalid spec ID: " ++ Str.str_int spec_id))
  end.

(** [for i, match in enumerate(spell_matches, 1):
       spell_name, condition = match.groups()
       rotation.add_spell(spell_name, condition, i)]
    [clk k] is the clock reading of the next successful [add_spell]. *)
Fixpoint add_matches (clk : nat -> timestamp) (k : nat) (i : Z)
         (matches : list (list string)) (rotation : t) : exn t :=
  match matches with
  | [] => Return rotation
  | m :: rest =>
      match m with
      | [spell_name; condition] =>
          let '(r, rotation') :=
            add_spell (clk k) rotation spell_name condition (Some i) in
          _ <- r ;;
          add_matches clk (S k) (i + 1) rest rotation'
      | _ => Raise (ValueError "not enough values to unpack")
      end
  end.

(** [Rotation.from_soe_format]; [clk k] is the [k]-th reading of the
    clock during the call. *)
Definition from_soe_format (clk : nat -> timestamp) (soe_code : string) : exn t :=
  try_except
    (_ <- global module_names "re" ;;
     match Re.search register_pattern soe_code with
     | None => Raise (ValueError "Could not find spec ID in code")
     | Some (groups, _) =>
         digits <- getitem groups 0 ;;
         let spec_id := Str.int_of_digits digits in
         cs <- class_and_spec spec_id ;;
         rotation <- init (clk 0%nat) (clk 1%nat) (fst cs) (snd cs) ;;
         _ <- global module_names "re" ;;
         add_matches clk 2 1 (Re.finditer spell_pattern soe_code) rotation
     end)
    (fun e => Raise (ValueError ("Error parsing SOE Engine code: " ++ str_exc e))).

End Rotation.

(** ** [core/exporter.py]: the codec *)

(** The documents of [json].  [json.dumps] and [json.loads] are the
    interpreter's: on a document made of strings, integers, floats,
    booleans, lists and dicts with string keys, [loads(dumps(d))] is [d].
    The model therefore takes the document for its text. *)
Module Json.

#[local] Unset Elimination Schemes.
Inductive value : Type :=
| Null
| Bool (b : bool)
| Int (n : Z)
| Float (x : timestamp)
| String_ (s : string)
| Array (l : list value)
| Object (members : list (string * value)).
#[local] Set Elimination Schemes.

(** [k in d] and [d[k]] on a document.  Indexing a document that is not
    an object, or reading a field whose document has another type than
    the field of the record, has no counterpart in the typed records of
    the model; it raises [TypeError] here. *)
Definition mem (d : value) (k : string) : exn bool :=
  match d with
  | Object members => Return (dict_mem members k)
  | _ => Raise (TypeError "argument is not a dict")
  end.

Definition get (d : value) (k : string) : exn value :=
  match d with
  | Object members => dict_getitem members k
  | _ => Raise (TypeError "indices must be integers")
  end.

Definition as_string (d : value) : exn string :=
  match d with
  | String_ s => Return s
  | _ => Raise (TypeError "expected str")
  end.

Definition as_float (d : value) : exn timestamp :=
  match d with
  | Float x => Return x
  | _ => Raise (TypeError "expected float")
  end.

Definition as_bool (d : value) : exn bool :=
  match d with
  | Bool b => Return b
  | _ => Raise (TypeError "expected bool")
  end.

(** An optional integer: [null] is [None]. *)
Definition as_optional_int (d : value) : exn (option Z) :=
  match d with
  | Int n => Return (Some n)
  | Null => Return None
  | _ => Raise (TypeError "expected int")
  end.

Definition as_list (d : value) : exn (list value) :=
  match d with
  | Array l => Return l
  | _ => Raise (TypeError "expected list")
  end.

Fixpoint as_string_list (l : list value) : exn (list string) :=
  match l with
  | [] => Return []
  | d :: l' =>
      s <- as_string d ;;
      rest <- as_string_list l' ;;
      Return (s :: rest)
  end.

End Json.

Module RotationExporter.

(** The dict that the list comprehension of [to_json] makes of one entry. *)
Definition spell_document (spell : SpellEntry.t) : Json.value :=
  Json.Object
    [ ("name", Json.String_ (SpellEntry.name spell));
      ("condition", Json.String_ (SpellEntry.condition spell));
      ("priority", Json.Int (SpellEntry.priority spell));
      ("enabled", Json.Bool (SpellEntry.enabled spell));
      ("notes", Json.String_ (SpellEntry.notes spell)) ].

(** [to_json]: the document [data] handed to [json.dumps]. *)
Definition to_json (rotation : Rotation.t) : Json.value :=
  let m := Rotation.metadata rotation in
  Json.Object
    [ ("format_version", Json.String_ "1.0");
      ("metadata",
        Json.Object
          [ ("name", Json.String_ (RotationMetadata.name m));
            ("class_name", Json.String_ (RotationMetadata.class_name m));
            ("spec_name", Json.String_ (RotationMetadata.spec_name m));
            ("author", Json.String_ (RotationMetadata.author m));
            ("version", Json.String_ (RotationMetadata.version m));
            ("description", Json.String_ (RotationMetadata.description m));
            ("created_at", Json.Float (RotationMetadata.created_at m));
            ("modified_at", Json.Float (RotationMetadata.modified_at m));
            ("tags", Json.Array (map Json.String_ (RotationMetadata.tags m))) ]);
      ("spec_id",
        match Rotation.spec_id rotation with
        | Some n => Json.Int n
        | None => Json.Null
        end);
      ("spells", Json.Array (map spell_document (Rotation.spells rotation))) ].

End RotationExporter.

Module RotationImporter.

(** The pattern [--\s*KEY:\s*(.+)] of the three header searches. *)
Definition header_pattern (key : string) : Re.regex :=
  Re.cat [Re.Lit "--"; Re.Star Str.isspace; Re.Lit (key ++ ":");
          Re.Star Str.isspace; Re.Grp (Re.Plus Re.dot)].

(** [m = re.search(pattern, content)
     if m: rotation.metadata.FIELD = m.group(1).strip()] *)
Definition header_field (key : string)
           (set : string -> RotationMetadata.t -> RotationMetadata.t)
           (content : string) (rotation : Rotation.t) : exn Rotation.t :=
  match Re.search (header_pattern key) content with
  | Some (groups, _) =>
      text <- getitem groups 0 ;;
      Return (Rotation.set_metadata (set (Str.strip text)) rotation)
  | None => Return rotation
  end.

(** [from_soe]; [core/exporter.py] imports [re]. *)
Definition from_soe (clk : nat -> timestamp) (content : string) : exn Rotation.t :=
  try_except
    (match Re.search Rotation.register_pattern content with
     | None => Raise (ValueError "Could not find spec ID in SOE code")
     | Some (groups, _) =>
         digits <- getitem groups 0 ;;
         let spec_id := Str.int_of_digits digits in
         cs <- Rotation.class_and_spec spec_id ;;
         rotation <- Rotation.init (clk 0%nat) (clk 1%nat) (fst cs) (snd cs) ;;
         rotation <- header_field "Author" RotationMetadata.set_author content rotation ;;
         rotation <- header_field "Version" RotationMetadata.set_version content rotation ;;
         rotation <- header_field "Description" RotationMetadata.set_description
                       content rotation ;;
         Rotation.add_matches clk 2 1
           (Re.finditer Rotation.spell_pattern content) rotation
     end)
    (fun e => Raise (ValueError ("Error parsing SOE Engine code: " ++ str_exc e))).

(** The loop of [from_json] over [data["spells"]]: [add_spell], then the
    two assignments to the entry it returned. *)
Fixpoint add_json_spells (clk : nat -> timestamp) (k : nat)
         (spells : list Json.value) (rotation : Rotation.t) : exn Rotation.t :=
  match spells with
  | [] => Return rotation
  | spell_data :: rest =>
      name <- (v <- Json.get spell_data "name" ;; Json.as_string v) ;;
      condition <- (v <- Json.get spell_data "condition" ;; Json.as_string v) ;;
      priority <- (v <- Json.get spell_data "priority" ;; Json.as_optional_int v) ;;
      let '(r, rotation) := Rotation.add_spell (clk k) rotation name condition priority in
      spell <- r ;;
      enabled <- (v <- Json.get spell_data "enabled" ;; Json.as_bool v) ;;
      let rotation :=
        Rotation.set_spells
          (PyList.update_at spell (SpellEntry.set_enabled enabled)
             (Rotation.spells rotation)) rotation in
      notes <- (v <- Json.get spell_data "notes" ;; Json.as_string v) ;;
      let rotation :=
        Rotation.set_spells
          (PyList.update_at spell (SpellEntry.set_notes notes)
             (Rotation.spells rotation)) rotation in
      add_json_spells clk (S k) rest rotation
  end.

(** [from_json], on the document [json.loads(content)]. *)
Definition from_json (clk : nat -> timestamp) (data : Json.value) : exn Rotation.t :=
  try_except
    (has_version <- Json.mem data "format_version" ;;
     supported <-
       (if negb has_version then Return false
        else
          v <- Json.get data "format_version" ;;
          Return match v with
                 | Json.String_ s => String.eqb s "1.0"
                 | _ => false
                 end) ;;
     if negb supported then Raise (ValueError "Unsupported JSON format version")
     else
       metadata <- Json.get data "metadata" ;;
       class_name <- (v <- Json.get metadata "class_name" ;; Json.as_string v) ;;
       spec_name <- (v <- Json.get metadata "spec_name" ;; Json.as_string v) ;;
       rotation <- Rotation.init (clk 0%nat) (clk 1%nat) class_name spec_name ;;
       name <- (v <- Json.get metadata "name" ;; Json.as_string v) ;;
       author <- (v <- Json.get metadata "author" ;; Json.as_string v) ;;
       version <- (v <- Json.get metadata "version" ;; Json.as_string v) ;;
       description <- (v <- Json.get metadata "description" ;; Json.as_string v) ;;
       created_at <- (v <- Json.get metadata "created_at" ;; Json.as_float v) ;;
       modified_at <- (v <- Json.get metadata "modified_at" ;; Json.as_float v) ;;
       tags <- (v <- Json.get metadata "tags" ;;
                l <- Json.as_list v ;; Json.as_string_list l) ;;
       let rotation :=
         Rotation.set_metadata
           (fun m =>
              RotationMetadata.set_tags tags
                (RotationMetadata.set_modified_at modified_at
                   (RotationMetadata.set_created_at created_at
                      (RotationMetadata.set_description description
                         (RotationMetadata.set_version version
                            (RotationMetadata.set_author author
                               (RotationMetadata.set_name name m)))))))
           rotation in
       spells <- (v <- Json.get data "spells" ;; Json.as_list v) ;;
       add_json_spells clk 2 spells rotation)
    (fun e => Raise (ValueError ("Error parsing JSON: " ++ str_exc e))).

End RotationImporter.

(** ** Calls on a rotation *)

Module Calls.

(** One call of the mutating interface. *)
Inductive call : Type :=
| AddSpell (spell_name condition : string) (priority : option Z)
| RemoveSpell (priority : Z)
| MoveSpell (from_priority to_priority : Z).

(** The rotation after one call made at clock reading [now]; [None] when
    the call raises. *)
Definition apply (now : timestamp) (r : Rotation.t) (c : call) : option Rotation.t :=
  match c with
  | AddSpell spell_name condition priority =>
      match Rotation.add_spell now r spell_name condition priority with
      | (Return _, r') => Some r'
      | (Raise _, _) => None
      end
  | RemoveSpell priority => Some (snd (Rotation.remove_spell now r priority))
  | MoveSpell from_priority to_priority =>
      Some (snd (Rotation.move_spell now r from_priority to_priority))
  end.

(** A sequence of calls, each with its clock reading; [None] when one of
    them raises. *)
Fixpoint run (r : Rotation.t) (calls : list (timestamp * call)) : option Rotation.t :=
  match calls with
  | [] => Some r
  | (now, c) :: rest =>
      match apply now r c with
      | Some r' => run r' rest
      | None => None
      end
  end.

Definition priorities (l : list SpellEntry.t) : list Z := map SpellEntry.priority l.

(** [first, first + 1, ..., first + n - 1] *)
Fixpoint zrange (first : Z) (n : nat) : list Z :=
  match n with
  | O => []
  | S k => first :: zrange (first + 1) k
  end.

(** The priorities are [1, 2, ..., N] in list order. *)
Definition dense (l : list SpellEntry.t) : Prop :=
  priorities l = zrange 1 (List.length l).

Definition has_priority (p : Z) (l : list SpellEntry.t) : bool :=
  existsb (fun s => SpellEntry.priority s =? p) l.

(** The priority arguments of a call stay within the list as it stands:
    an explicit priority of [add_spell] is a position from 1 to N+1, and
    the target of a [move_spell] that finds its entry and moves it is a
    position from 1 to N. *)
Definition in_range (r : Rotation.t) (c : call) : bool :=
  let n := Z.of_nat (List.length (Rotation.spells r)) in
  match c with
  | AddSpell _ _ (Some p) => (1 <=? p) && (p <=? n + 1)
  | AddSpell _ _ None => true
  | RemoveSpell _ => true
  | MoveSpell from_priority to_priority =>
      (from_priority =? to_priority)
      || negb (has_priority from_priority (Rotation.spells r))
      || ((1 <=? to_priority) && (to_priority <=? n))
  end.

(** Every call of the sequence is in range for the rotation it is made on. *)
Fixpoint all_in_range (r : Rotation.t) (calls : list (timestamp * call)) : bool :=
  match calls with
  | [] => true
  | (now, c) :: rest =>
      in_range r c
      && match apply now r c with
         | Some r' => all_in_range r' rest
         | None => true
         end
  end.

(** An entry that [from_json] can add again: a legal name, a valid
    condition, and no [id], the field that [to_json] leaves out. *)
Definition importable (class_name spec_name : string) (s : SpellEntry.t) : Prop :=
  list_mem (SpellEntry.name s)
    (spell_data.get_spells_for_spec class_name spec_name) = true
  /\ ConditionValidator.validate_condition (SpellEntry.condition s) = Return (true, "")
  /\ SpellEntry.id s = None.

End Calls.

(** ** Sample data *)

Module Samples.

(** [Rotation("Priest", "Holy")], made when the clock reads 100 and 101. *)
Definition holy : Rotation.t :=
  Rotation.mk
    (RotationMetadata.mk "Priest Holy Rotation" "Priest" "Holy" "" "1.0" ""
       100 101 [])
    [] (Some 257).

(** [holy] after [add_spell("Heal")] at clock reading 200. *)
Definition holy_heal : Rotation.t :=
  Rotation.mk
    (RotationMetadata.mk "Priest Holy Rotation" "Priest" "Holy" "" "1.0" ""
       100 200 [])
    [SpellEntry.mk "Heal" "true" 1 true "" None] (Some 257).

(** The clock of a later import: its [k]-th reading is [300 + k]. *)
Definition clock (k : nat) : timestamp := 300 + Z.of_nat k.

(** The recognized paths [category.subcategory] of the global vocabulary. *)
Definition global_paths : list string :=
  flat_map (fun entry => map (fun sub => fst entry ++ "." ++ fst sub) (snd entry))
    ConditionValidator.BASIC_CONDITIONS.

Definition comparison_operators : list string :=
  [">"; "<"; ">="; "<="; "=="; "!="].

(** [path op literal], with one space on each side of [op]. *)
Definition comparison (path op literal : string) : string :=
  path ++ " " ++ op ++ " " ++ literal.

Definition accepted (condition : string) : bool :=
  match ConditionValidator.validate_condition condition with
  | Return (valid, _) => valid
  | Raise _ => false
  end.

(** The conditions that the editor offers as templates
    ([ui/condition_panel.py], [_create_condition_templates]). *)
Definition templates : list (string * string) :=
  [ ("Always Cast", "true");
    ("Low Health (<30%)", "player.health < 30");
    ("High Health (>80%)", "player.health > 80");
    ("Moving", "player.moving");
    ("Standing Still", "!player.moving");
    ("Has Buff", "player.buff(BuffName)");
    ("No Buff", "!player.buff(BuffName)");
    ("Target Has Debuff", "target.debuff(DebuffName)");
    ("Target No Debuff", "!target.debuff(DebuffName)");
    ("Target Below 20%", "target.health < 20");
    ("Multiple Targets (3+)", "area.enemies >= 3");
    ("Low Mana (<40%)", "player.mana < 40");
    ("High Mana (>60%)", "player.mana > 60");
    ("Target is Boss", "target.boss");
    ("Player in Combat", "player.incombat");
    ("Cooldowns Enabled", "toggle.cooldowns");
    ("AoE Enabled", "toggle.aoe");
    ("Interrupts Enabled", "toggle.interrupts");
    ("With Shift Key", "modifier.shift");
    ("With Control Key", "modifier.control");
    ("With Alt Key", "modifier.alt") ].

End Samples.

(** ** The registration-format text of a two-entry rotation *)

Module SoeText.

(** A string with no quote in it and at least one character: what each
    of the two groups of [spell_pattern] matches. *)
Definition plain (s : string) : Prop :=
  s <> EmptyString /\ Str.all_chars (Re.not_char Str.dquote) s = true.


(** One tuple, as [to_soe_format] writes it. *)
Definition tuple (name condition : string) : string :=
  "{ " ++ Str.quote ++ name ++ Str.quote ++ ", "
  ++ Str.quote ++ condition ++ Str.quote ++ " }".

(** The rotation that [Rotation("Priest", "Holy")], made at clock readings
    100 and 101, becomes after [add_spell(n1, c1)] at 200 and
    [add_spell(n2, c2)] at 201. *)
Definition holy_pair (n1 c1 n2 c2 : string) : Rotation.t :=
  Rotation.mk
    (RotationMetadata.mk "Priest Holy Rotation" "Priest" "Holy" "" "1.0" ""
       100 201 [])
    [SpellEntry.new n1 c1 1; SpellEntry.new n2 c2 2] (Some 257).

Definition nl : string := String Str.newline EmptyString.

(** The text of [to_soe_format] up to the brace that opens the table. *)
Definition soe_header : string :=
  "-- Priest Holy Rotation" ++ nl ++ "-- Author: " ++ nl ++ "-- Version: 1.0" ++ nl
  ++ "-- Description: " ++ nl ++ nl ++ "SOEEngine.rotation.register(257, ".

(** The whole text for two enabled entries. *)
Definition soe_text (n1 c1 n2 c2 : string) : string :=
  soe_header ++ "{" ++ nl ++ "    " ++ tuple n1 c1 ++ "," ++ nl
  ++ "    " ++ tuple n2 c2 ++ "," ++ nl ++ "})".


(** The name, the condition and the priority of an entry. *)
Definition summary (s : SpellEntry.t) : string * string * Z :=
  (SpellEntry.name s, SpellEntry.condition s, SpellEntry.priority s).

End SoeText.

(** * More of the code *)

Module Parens.

(** The number of occurrences of the character [c] in [s]. *)
Fixpoint count (c : ascii) (s : string) : nat :=
  match s with
  | EmptyString => O
  | String d s' => ((if Ascii.eqb d c then 1 else 0) + count c s')%nat
  end.

(** Every closing parenthesis has an opening one before it, and none is
    left open. *)
Definition balanced (s : string) : Prop :=
  count "(" s = count ")" s
  /\ forall n, (count ")" (Str.take n s) <= count "(" (Str.take n s))%nat.

End Parens.

(** The string is empty or begins with a character that is no space. *)
Definition trimmed_left (s : string) : bool :=
  match s with
  | EmptyString => true
  | String c _ => negb (Str.isspace c)
  end.

Module Entries.

(** Everything of an entry but its priority. *)
Definition content (s : SpellEntry.t) : string * string * bool * string * option Z :=
  (SpellEntry.name s, SpellEntry.condition s, SpellEntry.enabled s,
   SpellEntry.notes s, SpellEntry.id s).

(** The entries stand in ascending order of priority. *)
Definition ascending (l : list SpellEntry.t) : Prop :=
  Sorted Z.le (Calls.priorities l).

(** The body of a loop that moves an entry one place: [spell.priority += 1]
    and [spell.priority -= 1]. *)
Definition up (s : SpellEntry.t) : SpellEntry.t :=
  SpellEntry.set_priority (SpellEntry.priority s + 1) s.
Definition down (s : SpellEntry.t) : SpellEntry.t :=
  SpellEntry.set_priority (SpellEntry.priority s - 1) s.

(** The priorities count upwards from [first] in list order. *)
Definition counts (first : Z) (l : list SpellEntry.t) : Prop :=
  Calls.priorities l = Calls.zrange first (List.length l).

End Entries.

Module Accepted.

(** What [add_spell] checks of an entry before it adds it to a rotation
    for this class and spec. *)
Definition entry (class_name spec_name : string) (s : SpellEntry.t) : Prop :=
  list_mem (SpellEntry.name s)
    (spell_data.get_spells_for_spec class_name spec_name) = true
  /\ ConditionValidator.validate_condition (SpellEntry.condition s) = Return (true, "").

Definition rotation (r : Rotation.t) : Prop :=
  Forall (entry (RotationMetadata.class_name (Rotation.metadata r))
                (RotationMetadata.spec_name (Rotation.metadata r)))
    (Rotation.spells r).

(** The results [validate_condition] returns from outside its [except]
    branch. *)
Definition verdicts : list (bool * string) :=
  [ (true, "");
    (false, "Invalid condition syntax");
    (false, "Invalid operator usage");
    (false, "Mismatched parentheses");
    (false, "Invalid condition components") ].

End Accepted.

(** ** [core/rotation.py]: [to_dict] and [from_dict] *)

Module RotationDict.

Definition optional_int (n : option Z) : Json.value :=
  match n with
  | Some n => Json.Int n
  | None => Json.Null
  end.

(** [asdict(spell)] *)
Definition spell_dict (spell : SpellEntry.t) : Json.value :=
  Json.Object
    [ ("name", Json.String_ (SpellEntry.name spell));
      ("condition", Json.String_ (SpellEntry.condition spell));
      ("priority", Json.Int (SpellEntry.priority spell));
      ("enabled", Json.Bool (SpellEntry.enabled spell));
      ("notes", Json.String_ (SpellEntry.notes spell));
      ("id", optional_int (SpellEntry.id spell)) ].

(** [asdict(self.metadata)] *)
Definition metadata_dict (m : RotationMetadata.t) : Json.value :=
  Json.Object
    [ ("name", Json.String_ (RotationMetadata.name m));
      ("class_name", Json.String_ (RotationMetadata.class_name m));
      ("spec_name", Json.String_ (RotationMetadata.spec_name m));
      ("author", Json.String_ (RotationMetadata.author m));
      ("version", Json.String_ (RotationMetadata.version m));
      ("description", Json.String_ (RotationMetadata.description m));
      ("created_at", Json.Float (RotationMetadata.created_at m));
      ("modified_at", Json.Float (RotationMetadata.modified_at m));
      ("tags", Json.Array (map Json.String_ (RotationMetadata.tags m))) ].

(** [to_dict] *)
Definition to_dict (self : Rotation.t) : Json.value :=
  Json.Object
    [ ("metadata", metadata_dict (Rotation.metadata self));
      ("spells", Json.Array (map spell_dict (Rotation.spells self)));
      ("spec_id", optional_int (Rotation.spec_id self)) ].

(** The keyword arguments of a call [C( **d )] of a dataclass with the
    fields [fields], of which [required] have no default: every key of
    [d] names a field and every required field is a key, or the call
    raises [TypeError]. *)
Definition keywords (fields required : list string) (d : Json.value)
  : exn (list (string * Json.value)) :=
  match d with
  | Json.Object members =>
      if negb (forallb (fun kv => list_mem (fst kv) fields) members)
      then Raise (TypeError "got an unexpected keyword argument")
      else if negb (forallb (dict_mem members) required)
           then Raise (TypeError "missing required positional argument")
           else Return members
  | _ => Raise (TypeError "argument after ** must be a mapping")
  end.

(** A keyword of a field that has a default. *)
Definition keyword_or {V} (kw : list (string * Json.value)) (k : string)
           (read : Json.value -> exn V) (default : V) : exn V :=
  match dict_get kw k with
  | Some v => read v
  | None => Return default
  end.

Definition as_int (d : Json.value) : exn Z :=
  match d with
  | Json.Int n => Return n
  | _ => Raise (TypeError "expected int")
  end.

(** [SpellEntry( **spell )] *)
Definition spell_entry (spell : Json.value) : exn SpellEntry.t :=
  kw <- keywords ["name"; "condition"; "priority"; "enabled"; "notes"; "id"]
          ["name"; "condition"; "priority"] spell ;;
  name <- (v <- dict_getitem kw "name" ;; Json.as_string v) ;;
  condition <- (v <- dict_getitem kw "condition" ;; Json.as_string v) ;;
  priority <- (v <- dict_getitem kw "priority" ;; as_int v) ;;
  enabled <- keyword_or kw "enabled" Json.as_bool true ;;
  notes <- keyword_or kw "notes" Json.as_string "" ;;
  id <- keyword_or kw "id" Json.as_optional_int None ;;
  Return (SpellEntry.mk name condition priority enabled notes id).

(** [[SpellEntry( **spell ) for spell in l]] *)
Fixpoint spell_entries (l : list Json.value) : exn (list SpellEntry.t) :=
  match l with
  | [] => Return []
  | spell :: rest =>
      entry <- spell_entry spell ;;
      entries <- spell_entries rest ;;
      Return (entry :: entries)
  end.

Definition metadata_fields : list string :=
  ["name"; "class_name"; "spec_name"; "author"; "version"; "description";
   "created_at"; "modified_at"; "tags"].

(** [RotationMetadata( **metadata )] *)
Definition rotation_metadata (metadata : Json.value) : exn RotationMetadata.t :=
  kw <- keywords metadata_fields metadata_fields metadata ;;
  name <- (v <- dict_getitem kw "name" ;; Json.as_string v) ;;
  class_name <- (v <- dict_getitem kw "class_name" ;; Json.as_string v) ;;
  spec_name <- (v <- dict_getitem kw "spec_name" ;; Json.as_string v) ;;
  author <- (v <- dict_getitem kw "author" ;; Json.as_string v) ;;
  version <- (v <- dict_getitem kw "version" ;; Json.as_string v) ;;
  description <- (v <- dict_getitem kw "description" ;; Json.as_string v) ;;
  created_at <- (v <- dict_getitem kw "created_at" ;; Json.as_float v) ;;
  modified_at <- (v <- dict_getitem kw "modified_at" ;; Json.as_float v) ;;
  tags <- (v <- dict_getitem kw "tags" ;;
           l <- Json.as_list v ;; Json.as_string_list l) ;;
  Return (RotationMetadata.mk name class_name spec_name author version
            description created_at modified_at tags).

(** [from_dict]; [t0] and [t1] are the two clock readings of the
    constructor. *)
Definition from_dict (t0 t1 : timestamp) (data : Json.value) : exn Rotation.t :=
  class_name <- (m <- Json.get data "metadata" ;;
                 v <- Json.get m "class_name" ;; Json.as_string v) ;;
  spec_name <- (m <- Json.get data "metadata" ;;
                v <- Json.get m "spec_name" ;; Json.as_string v) ;;
  rotation <- Rotation.init t0 t1 class_name spec_name ;;
  metadata <- (m <- Json.get data "metadata" ;; rotation_metadata m) ;;
  let rotation := Rotation.set_metadata (fun _ => metadata) rotation in
  spells <- (v <- Json.get data "spells" ;;
             l <- Json.as_list v ;; spell_entries l) ;;
  let rotation := Rotation.set_spells spells rotation in
  spec_id <- (v <- Json.get data "spec_id" ;; Json.as_optional_int v) ;;
  Return (Rotation.mk (Rotation.metadata rotation) (Rotation.spells rotation)
            spec_id).

End RotationDict.

(** ** [core/rotation.py]: the rotation manager *)

Module RotationManager.

(** [self.rotations], a dict in insertion order. *)
Definition t : Type := list (string * Rotation.t).

Definition init : t := [].

(** [d[k] = v]: the value of an existing key is replaced in place, a new
    key goes to the end. *)
Fixpoint dict_set {V} (d : list (string * V)) (k : string) (v : V)
  : list (string * V) :=
  match d with
  | [] => [(k, v)]
  | (k', v') :: d' =>
      if String.eqb k k' then (k, v) :: d' else (k', v') :: dict_set d' k v
  end.

(** The [while] loop of [_generate_key], run for at most [fuel] tests of
    its condition; [None] when the fuel does not suffice. *)
Fixpoint key_loop (fuel : nat) (rotations : t) (base_key key : string)
         (counter : Z) : option string :=
  match fuel with
  | O => None
  | S fuel' =>
      if dict_mem rotations key
      then key_loop fuel' rotations base_key
             (base_key ++ "_" ++ Str.str_int counter) (counter + 1)
      else Some key
  end.

Definition base_key (rotation : Rotation.t) : string :=
  let m := Rotation.metadata rotation in
  RotationMetadata.name m ++ "_" ++ RotationMetadata.class_name m ++ "_"
  ++ RotationMetadata.spec_name m.

Definition _generate_key (fuel : nat) (self : t) (rotation : Rotation.t)
  : option string :=
  key_loop fuel self (base_key rotation) (base_key rotation) 1.

(** [create_rotation]: the new rotation and the manager after the call;
    [None] when the fuel of the key loop does not suffice. *)
Definition create_rotation (fuel : nat) (t0 t1 : timestamp) (self : t)
           (class_name spec_name : string) (name : option string)
  : option (exn (Rotation.t * t)) :=
  match Rotation.init t0 t1 class_name spec_name with
  | Raise e => Some (Raise e)
  | Return rotation =>
      let rotation :=
        match name with
        | Some n =>
            if negb (String.eqb n "")
            then Rotation.set_metadata (RotationMetadata.set_name n) rotation
            else rotation
        | None => rotation
        end in
      match _generate_key fuel self rotation with
      | None => None
      | Some key => Some (Return (rotation, dict_set self key rotation))
      end
  end.

(** [get_rotations] *)
Definition get_rotations (self : t) (class_name spec_name : option string)
  : list Rotation.t :=
  let rotations := map snd self in
  let rotations :=
    match class_name with
    | Some c =>
        if negb (String.eqb c "")
        then filter (fun r => String.eqb
                                (RotationMetadata.class_name (Rotation.metadata r)) c)
               rotations
        else rotations
    | None => rotations
    end in
  match spec_name with
  | Some s =>
      if negb (String.eqb s "")
      then filter (fun r => String.eqb
                              (RotationMetadata.spec_name (Rotation.metadata r)) s)
             rotations
      else rotations
  | None => rotations
  end.

(** The key that the loop tests at its [i]-th turn. *)
Definition candidate (base : string) (i : nat) : string :=
  match i with
  | O => base
  | S _ => base ++ "_" ++ Str.str_int (Z.of_nat i)
  end.

End RotationManager.

(** ** [core/validator.py]: the validation of a rotation *)

Module RotationValidator.

Definition CRITICAL_SPELLS : list (string * list (string * list string)) :=
  [
    ("Mage",
      [
       ("Arcane",
         ["Arcane Blast"; "Arcane Missiles"; "Evocation"]);
       ("Fire",
         ["Fireball"; "Pyroblast"; "Fire Blast"]);
       ("Frost",
         ["Frostbolt"; "Ice Lance"; "Frozen Orb"]) ]);
    ("Paladin",
      [
       ("Holy",
         ["Holy Light"; "Divine Light"; "Holy Shock"]);
       ("Protection",
         ["Shield of the Righteous"; "Avenger's Shield"; "Judgment"]);
       ("Retribution",
         ["Templar's Verdict"; "Crusader Strike"; "Judgment"]) ]);
    ("Warrior",
      [
       ("Arms",
         ["Mortal Strike"; "Colossus Smash"; "Execute"]);
       ("Fury",
         ["Bloodthirst"; "Wild Strike"; "Raging Blow"]);
       ("Protection",
         ["Shield Slam"; "Revenge"; "Thunder Clap"]) ]);
    ("Druid",
      [
       ("Balance",
         ["Wrath"; "Starfire"; "Starsurge"]);
       ("Feral",
         ["Rake"; "Shred"; "Rip"]);
       ("Guardian",
         ["Mangle"; "Thrash"; "Savage Defense"]);
       ("Restoration",
         ["Rejuvenation"; "Healing Touch"; "Swiftmend"]) ]);
    ("Death Knight",
      [
       ("Blood",
         ["Death Strike"; "Heart Strike"; "Blood Boil"]);
       ("Frost",
         ["Obliterate"; "Frost Strike"; "Howling Blast"]);
       ("Unholy",
         ["Scourge Strike"; "Festering Strike"; "Death Coil"]) ]);
    ("Hunter",
      [
       ("Beast Mastery",
         ["Kill Command"; "Arcane Shot"; "Cobra Shot"]);
       ("Marksmanship",
         ["Chimera Shot"; "Aimed Shot"; "Steady Shot"]);
       ("Survival",
         ["Explosive Shot"; "Black Arrow"; "Arcane Shot"]) ]);
    ("Priest",
      [
       ("Discipline",
         ["Penance"; "Power Word: Shield"; "Prayer of Mending"]);
       ("Holy",
         ["Prayer of Mending"; "Circle of Healing"; "Holy Word: Sanctuary"]);
       ("Shadow",
         ["Mind Blast"; "Mind Flay"; "Shadow Word: Pain"]) ]);
    ("Rogue",
      [
       ("Assassination",
         ["Mutilate"; "Envenom"; "Rupture"]);
       ("Combat",
         ["Sinister Strike"; "Eviscerate"; "Revealing Strike"]);
       ("Subtlety",
         ["Backstab"; "Hemorrhage"; "Eviscerate"]) ]);
    ("Shaman",
      [
       ("Elemental",
         ["Lightning Bolt"; "Lava Burst"; "Earth Shock"]);
       ("Enhancement",
         ["Stormstrike"; "Lava Lash"; "Lightning Bolt"]);
       ("Restoration",
         ["Healing Wave"; "Riptide"; "Chain Heal"]) ]);
    ("Warlock",
      [
       ("Affliction",
         ["Agony"; "Corruption"; "Malefic Grasp"]);
       ("Demonology",
         ["Shadow Bolt"; "Hand of Gul'dan"; "Soul Fire"]);
       ("Destruction",
         ["Incinerate"; "Chaos Bolt"; "Immolate"]) ]);
    ("Monk",
      [
       ("Brewmaster",
         ["Keg Smash"; "Blackout Kick"; "Guard"]);
       ("Windwalker",
         ["Tiger Palm"; "Rising Sun Kick"; "Fists of Fury"]);
       ("Mistweaver",
         ["Soothing Mist"; "Enveloping Mist"; "Renewing Mist"]) ]) ].

Definition DEFENSIVE_SPELLS : list (string * list string) :=
  [
    ("Mage",
      ["Ice Block"; "Frost Nova"; "Blink"]);
    ("Paladin",
      ["Divine Shield"; "Hand of Protection"; "Divine Protection"]);
    ("Warrior",
      ["Shield Wall"; "Last Stand"; "Spell Reflection"]);
    ("Druid",
      ["Barkskin"; "Survival Instincts"; "Frenzied Regeneration"]);
    ("Death Knight",
      ["Anti-Magic Shell"; "Icebound Fortitude"; "Vampiric Blood"]);
    ("Hunter",
      ["Deterrence"; "Disengage"; "Feign Death"]);
    ("Priest",
      ["Dispersion"; "Pain Suppression"; "Guardian Spirit"]);
    ("Rogue",
      ["Cloak of Shadows"; "Evasion"; "Combat Readiness"]);
    ("Shaman",
      ["Astral Shift"; "Shamanistic Rage"; "Healing Stream Totem"]);
    ("Warlock",
      ["Unending Resolve"; "Dark Bargain"; "Sacrificial Pact"]);
    ("Monk",
      ["Fortifying Brew"; "Guard"; "Touch of Karma"]) ].

Definition COOLDOWN_SPELLS : list (string * list string) :=
  [
    ("Mage",
      ["Time Warp"; "Mirror Image"; "Arcane Power"; "Combustion"; "Icy Veins"]);
    ("Paladin",
      ["Avenging Wrath"; "Guardian of Ancient Kings"; "Holy Avenger"]);
    ("Warrior",
      ["Recklessness"; "Bladestorm"; "Avatar"]);
    ("Druid",
      ["Incarnation"; "Nature's Vigil"; "Force of Nature"]);
    ("Death Knight",
      ["Pillar of Frost"; "Dancing Rune Weapon"; "Summon Gargoyle"]);
    ("Hunter",
      ["Rapid Fire"; "Bestial Wrath"; "Stampede"]);
    ("Priest",
      ["Power Infusion"; "Shadowfiend"; "Divine Hymn"]);
    ("Rogue",
      ["Adrenaline Rush"; "Shadow Dance"; "Vendetta"]);
    ("Shaman",
      ["Ascendance"; "Stormlash Totem"; "Fire Elemental Totem"]);
    ("Warlock",
      ["Dark Soul"; "Summon Doomguard"; "Grimoire of Service"]);
    ("Monk",
      ["Energizing Brew"; "Tigereye Brew"; "Thunder Focus Tea"]) ].

Record Stats : Type := mk_stats {
  spell_count : Z;
  critical_spells : Z;
  defensive_spells : Z;
  cooldown_spells : Z;
  conditional_spells : Z
}.

Record ValidationResult : Type := mk_result {
  is_valid : bool;
  errors : list string;
  warnings : list string;
  stats : Stats
}.

(** [d.get(k, [])] *)
Definition get_list {V} (d : list (string * list V)) (k : string) : list V :=
  match dict_get d k with
  | Some l => l
  | None => []
  end.

(** [len([x for x in l if test(x)])], the count a loop keeps. *)
Definition count {A} (test : A -> bool) (l : list A) : Z :=
  Z.of_nat (List.length (filter test l)).

(** The last loop of [validate_rotation]: one error for each condition
    that [validate_condition] rejects. *)
Fixpoint condition_errors (spells : list SpellEntry.t) : exn (list string) :=
  match spells with
  | [] => Return []
  | spell :: rest =>
      r <- ConditionValidator.validate_condition (SpellEntry.condition spell) ;;
      let '(is_valid, error) := r in
      others <- condition_errors rest ;;
      let message :=
        "Invalid condition for " ++ SpellEntry.name spell ++ ": " ++ error in
      Return ((if negb is_valid then [message] else []) ++ others)%list
  end.

Section SetOrder.
(** The order in which the interpreter goes through a set of strings,
    from the list of its elements. *)
Variable order : list string -> list string.

(** The message of a test [if names:] on a set or a list. *)
Definition report (head : string) (names : list string) : list string :=
  match names with
  | [] => []
  | _ => [head ++ Str.join ", " names]
  end.

(** [validate_rotation] *)
Definition validate_rotation (rotation : Rotation.t) : exn ValidationResult :=
  let spells := Rotation.spells rotation in
  let class_name := RotationMetadata.class_name (Rotation.metadata rotation) in
  let spec_name := RotationMetadata.spec_name (Rotation.metadata rotation) in
  let critical := get_list (get_list CRITICAL_SPELLS class_name) spec_name in
  let found_critical :=
    filter (fun name => list_mem name critical) (map SpellEntry.name spells) in
  let missing_critical :=
    filter (fun name => negb (list_mem name found_critical))
      (nodup string_dec critical) in
  let errors :=
    match missing_critical with
    | [] => []
    | _ => ["Missing critical spells: " ++ Str.join ", " (order missing_critical)]
    end in
  let class_defensives := get_list DEFENSIVE_SPELLS class_name in
  let defensive :=
    count (fun spell => list_mem (SpellEntry.name spell) class_defensives) spells in
  let warnings := if defensive =? 0 then ["No defensive abilities in rotation"]
                  else [] in
  let class_cooldowns := get_list COOLDOWN_SPELLS class_name in
  let cooldown :=
    count (fun spell => list_mem (SpellEntry.name spell) class_cooldowns) spells in
  let warnings :=
    (warnings ++ if cooldown =? 0 then ["No cooldown abilities in rotation"]
                 else [])%list in
  let conditional :=
    count (fun spell => negb (String.eqb (SpellEntry.condition spell) "true"))
      spells in
  let spell_names := map SpellEntry.name spells in
  let duplicates :=
    nodup string_dec
      (filter (fun name => (1 <? count_occ string_dec spell_names name)%nat)
         spell_names) in
  let duplicate_warning :=
    "Duplicate spells found: " ++ Str.join ", " (order duplicates) in
  let warnings :=
    (warnings ++ match duplicates with
                 | [] => []
                 | _ => [duplicate_warning]
                 end)%list in
  let empty_conditions :=
    map SpellEntry.name
      (filter (fun spell => String.eqb (SpellEntry.condition spell) "") spells) in
  let errors :=
    (errors ++ report "Empty conditions found for: " empty_conditions)%list in
  invalid <- condition_errors spells ;;
  let errors := (errors ++ invalid)%list in
  Return
    {| is_valid := Nat.eqb (List.length errors) 0;
       errors := errors;
       warnings := warnings;
       stats :=
         {| spell_count := Z.of_nat (List.length spells);
            critical_spells :=
              count (fun spell => list_mem (SpellEntry.name spell) critical) spells;
            defensive_spells := defensive;
            cooldown_spells := cooldown;
            conditional_spells := conditional |} |}.
End SetOrder.

End RotationValidator.

(** ** Conditions made of bare clauses *)

Module Clauses.

(** The characters of the names of the vocabulary. *)
Definition letters : string :=
  "abcdefghijklmnopqrstuvwxyzABCDEFGHIJKLMNOPQRSTUVWXYZ.".

Definition letter (c : ascii) : bool := Str.mem_char c letters.

(** The string that [get_condition] joins from a clause and the
    operators and clauses that follow it. *)
Fixpoint text (first : string) (rest : list (string * string)) : string :=
  match rest with
  | [] => first
  | (operator, clause) :: rest' =>
      first ++ " " ++ operator ++ " " ++ text clause rest'
  end.

(** The interactions that build a condition of bare clauses: a clause,
    then a logical operator and a clause any number of times. *)
Definition actions (first : string * string)
           (rest : list (string * (string * string)))
  : list ConditionBuilder.action :=
  ConditionBuilder.AddConditionPart (fst first) (snd first) "" ""
    :: flat_map
         (fun step =>
            [ConditionBuilder.AddLogicalOperator (fst step);
             ConditionBuilder.AddConditionPart (fst (snd step)) (snd (snd step))
               "" ""])
         rest.

(** The operator is one of the two the editor offers between clauses. *)
Definition logical (operator : string) : bool := list_mem operator ["&&"; "||"].

(** What the proof needs of a path of the vocabulary. *)
Definition bare (path : string) : bool :=
  (5 <=? String.length path)%nat
  && Str.all_chars letter path
  && match ConditionValidator.check_component path with
     | Return true => true
     | _ => false
     end.

(** The string begins with a letter. *)
Definition starts (s : string) : bool :=
  match s with
  | String a _ => letter a
  | EmptyString => false
  end.

(** Every step has a logical operator and a bare clause. *)
Definition well (rest : list (string * string)) : Prop :=
  Forall (fun step => logical (fst step) = true /\ bare (snd step) = true) rest.

End Clauses.

(** ** Registration texts *)

Module SoeShape.





End SoeShape.

(** * Properties *)

(** ** The validator never raises *)

Section ValidatorTotal.
Import ConditionValidator.

Lemma split_go_not_nil (sep : string) (s : string) :
  forall skip cur, Str.split_go sep skip cur s <> [].
Proof.
  induction s as [|c s IH]; intros skip cur.
  - destruct skip; discriminate.
  - destruct skip as [|k]; cbn [Str.split_go].
    + destruct (String.prefix sep (String c s)); [intros E; discriminate E | apply IH].
    + apply IH.
Qed.

Lemma cut_returns (component sep base : string) :
  exists b, cut component sep base = Return b.
Proof.
  unfold cut. destruct (Str.contains sep component); [|eauto].
  unfold Str.split.
  destruct (Str.split_go sep 0 EmptyString base) eqn:E.
  - exfalso. exact (split_go_not_nil _ _ _ _ E).
  - unfold getitem. simpl. eauto.
Qed.

Lemma dict_getitem_of_mem {V} (d : list (string * V)) (k : string) :
  dict_mem d k = true -> exists v, dict_getitem d k = Return v.
Proof.
  unfold dict_mem, dict_getitem. destruct (dict_get d k); [eauto | discriminate].
Qed.

(** The loop body of [_validate_components] never raises: the indexing of
    [parts] is guarded by the length test and the indexing of the
    vocabulary by the membership test. *)
Lemma check_component_returns (component : string) :
  exists b, check_component component = Return b.
Proof.
  unfold check_component.
  set (c := if Str.startswith component "!" then Str.drop1 component else component).
  destruct (cut_returns c "(" c) as [b1 ->]. simpl.
  destruct (cut_returns c ">" b1) as [b2 ->]. simpl.
  destruct (cut_returns c "<" b2) as [b3 ->]. simpl.
  destruct (cut_returns c "==" b3) as [b4 ->]. simpl.
  destruct (cut_returns c "!=" b4) as [b5 ->]. simpl.
  destruct (Str.split b5 ".") as [|category [|subcategory rest]]; simpl; eauto.
  destruct (dict_mem BASIC_CONDITIONS category) eqn:Hc; simpl; [|eauto].
  destruct (dict_getitem_of_mem _ _ Hc) as [subs ->]. simpl.
  destruct (dict_mem subs subcategory); simpl; eauto.
Qed.

Lemma components_loop_returns (components : list string) :
  exists b, components_loop components = Return b.
Proof.
  induction components as [|c cs IH]; simpl; [eauto|].
  destruct (check_component_returns c) as [[] ->]; simpl; eauto.
Qed.

Lemma validate_condition_with_returns
      (basic operators parentheses components : string -> exn bool) (s : string) :
  exists valid reason,
    validate_condition_with basic operators parentheses components s
    = Return (valid, reason).
Proof.
  unfold validate_condition_with, validate_body, try_except.
  destruct (_ || _); [eauto|].
  destruct (basic _) as [[]|]; simpl; eauto.
  destruct (operators _) as [[]|]; simpl; eauto.
  destruct (parentheses _) as [[]|]; simpl; eauto.
  destruct (components _) as [[]|]; simpl; eauto.
Qed.

(** C6.  For every input string [validate_condition] returns a pair of a
    boolean and a reason and raises nothing; and whatever the four checks
    of the [try] block are, an exception [e] raised in the block comes
    out as the result [(False, "Validation error: " + str(e))]. *)
Theorem validate_condition_never_raises :
  (forall s, exists valid reason, validate_condition s = Return (valid, reason))
  /\ (forall basic operators parentheses components s e,
        (String.eqb s "" || String.eqb (Str.strip s) "true") = false ->
        validate_body basic operators parentheses components s = Raise e ->
        validate_condition_with basic operators parentheses components s
        = Return (false, "Validation error: " ++ str_exc e)).
Proof.
  split.
  - intros s. apply validate_condition_with_returns.
  - intros basic operators parentheses components s e Hs Hbody.
    unfold validate_condition_with. rewrite Hs, Hbody. reflexivity.
Qed.

Lemma validate_condition_never_raises_witness :
  validate_condition_with
    (fun _ => Return true) (fun _ => Return true) (fun _ => Return true)
    (fun _ => Raise IndexError) "player.moving"
  = Return (false, "Validation error: list index out of range").
Proof.
  apply (proj2 validate_condition_never_raises
           (fun _ => Return true) (fun _ => Return true) (fun _ => Return true)
           (fun _ => Raise IndexError) "player.moving" IndexError);
    reflexivity.
Defined.

End ValidatorTotal.

(** ** What the validator rejects *)

Section ValidatorExamples.
Import ConditionValidator.

(** C9, as stated, fails on its second input: the trailing [&&] of
    [player.health > 30 &&] has no space after it, so the operator check
    rejects the string and the component check is never reached. *)
Lemma dangling_operator_not_a_component_failure :
  _check_basic_syntax "player.health > 30 &&" = true
  /\ _validate_operators "player.health > 30 &&" = false
  /\ validate_condition "player.health > 30 &&"
     = Return (false, "Invalid operator usage")
  /\ validate_condition "player.health > 30 &&"
     <> Return (false, "Invalid condition components").
Proof. repeat split; try reflexivity. discriminate. Qed.

(** C9, amended.  The four inputs are rejected: [player.health >30] and
    [player.health > 30 &&] by the operator-spacing check, [(player.moving]
    by the parenthesis check, and [foo.bar == 1] by the component check,
    [foo] being no category of the vocabulary. *)
Theorem rejected_inputs :
  validate_condition "player.health >30" = Return (false, "Invalid operator usage")
  /\ validate_condition "player.health > 30 &&"
     = Return (false, "Invalid operator usage")
  /\ validate_condition "(player.moving" = Return (false, "Mismatched parentheses")
  /\ validate_condition "foo.bar == 1"
     = Return (false, "Invalid condition components")
  /\ dict_mem BASIC_CONDITIONS "foo" = false.
Proof. repeat split; reflexivity. Qed.

(** Eleven of the twenty-one templates that the editor offers are
    rejected by the validator, all six comparisons among them. *)
Lemma templates_accepted :
  map snd (filter (fun t => Samples.accepted (snd t)) Samples.templates)
  = [ "true"; "player.moving"; "player.buff(BuffName)";
      "target.debuff(DebuffName)"; "target.boss"; "toggle.cooldowns";
      "toggle.aoe"; "modifier.shift"; "modifier.control"; "modifier.alt" ].
Proof. vm_compute. reflexivity. Qed.

(** C4 at its failing inputs.  [player.health > 30] is rejected: the text
    before [>] keeps its trailing space, and [health ] with that space is
    no subcategory.  [>=], [<=] and [!=] are rejected by the operator
    check, which looks for [ > ], [ < ] and [ ! ] with a space on each
    side.  Of the 510 clauses [path op 30] over the recognized paths and
    the six operators, 51 are accepted.  The comparison templates of the
    editor, such as [player.health < 30], are rejected too. *)
Theorem comparison_clauses_rejected :
  map (fun op => validate_condition (Samples.comparison "player.health" op "30"))
      Samples.comparison_operators
  = [ Return (false, "Invalid condition components");
      Return (false, "Invalid condition components");
      Return (false, "Invalid operator usage");
      Return (false, "Invalid operator usage");
      Return (false, "Invalid condition components");
      Return (false, "Invalid operator usage") ]
  /\ dict_mem BASIC_CONDITIONS "player" = true
  /\ (exists subs, dict_get BASIC_CONDITIONS "player" = Some subs
                   /\ dict_mem subs "health" = true)
  /\ List.length
       (list_prod Samples.global_paths Samples.comparison_operators) = 510%nat
  /\ List.length
       (filter (fun c => Samples.accepted (Samples.comparison (fst c) (snd c) "30"))
          (list_prod Samples.global_paths Samples.comparison_operators)) = 51%nat
  /\ forallb
       (fun c => list_mem c (map snd Samples.templates) && negb (Samples.accepted c))
       ["player.health < 30"; "player.health > 80"; "target.health < 20";
        "area.enemies >= 3"; "player.mana < 40"; "player.mana > 60"] = true.
Proof.
  split; [reflexivity|]. split; [reflexivity|].
  split; [eexists; split; reflexivity|].
  repeat split; vm_compute; reflexivity.
Qed.

End ValidatorExamples.

(** ** What the builder produces *)

Section BuilderExamples.
Import ConditionBuilder.

(** C3 at its failing inputs.  Each sequence uses pairs the builder
    offers, and the string it joins is rejected by [validate]: a
    comparison, a class-specific category after [set_class], and a
    negation, which [add_not_operator] appends only behind a clause. *)
Theorem builder_conditions_rejected :
  let b1 := run [AddConditionPart "player" "health" ">" "30"] in
  let b2 := run [SetClass "Druid"; AddConditionPart "Druid" "solar" "" ""] in
  let b3 := run [AddConditionPart "player" "moving" "" ""; AddNotOperator;
                 AddLogicalOperator "&&"; AddConditionPart "target" "exists" "" ""] in
  (offered init "player" "health" = true
   /\ get_condition b1 = "player.health > 30"
   /\ validate b1 = Return (false, "Invalid condition components"))
  /\ (offered (run [SetClass "Druid"]) "Druid" "solar" = true
      /\ get_condition b2 = "Druid.solar"
      /\ validate b2 = Return (false, "Invalid condition components"))
  /\ (offered init "player" "moving" = true
      /\ offered init "target" "exists" = true
      /\ get_condition b3 = "player.moving ! && target.exists"
      /\ validate b3 = Return (false, "Invalid condition components"))
  /\ add_not_operator init = init
  /\ add_not_operator (run [AddConditionPart "player" "moving" "" "";
                            AddLogicalOperator "&&"])
     = run [AddConditionPart "player" "moving" "" ""; AddLogicalOperator "&&"].
Proof. cbv zeta. repeat split; vm_compute; reflexivity. Qed.

End BuilderExamples.

(** ** Failing calls leave the rotation as it was *)

Section RotationFailures.
Import Rotation.

Lemma find_index_none {A} (p : A -> bool) (l : list A) :
  (forall x, In x l -> p x = false) -> PyList.find_index p l = None.
Proof.
  induction l as [|x l IH]; intros H; simpl; [reflexivity|].
  rewrite (H x (or_introl eq_refl)).
  rewrite IH; [reflexivity|]. intros y Hy. apply H. right. exact Hy.
Qed.

(** C5.  [move_spell(p, p)] returns [True] for every [p] and leaves the
    rotation as it is; [move_spell(from, to)] with two different
    priorities, where no entry has priority [from], returns [False] and
    leaves the rotation, its entries and its metadata, as it is. *)
Theorem move_spell_same_or_missing :
  (forall now self p, move_spell now self p p = (true, self))
  /\ (forall now self from_priority to_priority,
        from_priority <> to_priority ->
        (forall s, In s (spells self) -> SpellEntry.priority s <> from_priority) ->
        move_spell now self from_priority to_priority = (false, self)).
Proof.
  split.
  - intros now self p. unfold move_spell. rewrite Z.eqb_refl. reflexivity.
  - intros now self from_priority to_priority Hne Hmissing. unfold move_spell.
    destruct (Z.eqb_spec from_priority to_priority) as [E|_]; [contradiction|].
    rewrite find_index_none; [reflexivity|].
    intros s Hs. apply Z.eqb_neq. apply Hmissing. exact Hs.
Qed.

Lemma move_spell_same_or_missing_witness :
  move_spell 400 Samples.holy_heal 3 1 = (false, Samples.holy_heal).
Proof.
  apply (proj2 move_spell_same_or_missing 400 Samples.holy_heal 3 1).
  - discriminate.
  - intros s [<-|[]]. discriminate.
Defined.

(** C7.  A call of [add_spell] or of [update_spell] that raises leaves
    the rotation exactly as it was: same entries, same priorities, same
    order, same metadata.  [add_spell] raises for a spell name that the
    catalog does not list for the class and spec, and for a condition
    that the validator rejects; [update_spell] raises for a rejected
    condition among its keywords. *)
Theorem failed_call_changes_nothing :
  (forall now self spell_name condition priority e,
      fst (add_spell now self spell_name condition priority) = Raise e ->
      snd (add_spell now self spell_name condition priority) = self)
  /\ (forall now self priority kw e,
        fst (update_spell now self priority kw) = Raise e ->
        snd (update_spell now self priority kw) = self)
  /\ (forall now self spell_name condition priority,
        list_mem spell_name
          (spell_data.get_spells_for_spec
             (RotationMetadata.class_name (metadata self))
             (RotationMetadata.spec_name (metadata self))) = false ->
        exists e, add_spell now self spell_name condition priority = (Raise e, self))
  /\ (forall now self spell_name condition priority reason,
        ConditionValidator.validate_condition condition = Return (false, reason) ->
        exists e, add_spell now self spell_name condition priority = (Raise e, self))
  /\ (forall now self priority kw condition reason,
        kw_condition kw = Some condition ->
        ConditionValidator.validate_condition condition = Return (false, reason) ->
        has_entry priority self = true ->
        exists e, update_spell now self priority kw = (Raise e, self)).
Proof.
  split; [|split; [|split; [|split]]].
  - intros now self spell_name condition priority e. unfold add_spell.
    destruct (negb (list_mem _ _)); [reflexivity|].
    destruct (ConditionValidator.validate_condition condition) as [[valid reason]|e'];
      [|reflexivity].
    destruct valid; [|reflexivity]. simpl.
    destruct priority; simpl; discriminate.
  - intros now self priority kw e. unfold update_spell.
    destruct (PyList.find_index _ _); [|reflexivity].
    destruct (kw_condition kw) as [condition|]; simpl.
    + destruct (ConditionValidator.validate_condition condition)
        as [[valid reason]|e']; simpl; [|reflexivity].
      destruct valid; simpl; [discriminate | reflexivity].
    + discriminate.
  - intros now self spell_name condition priority Hname. unfold add_spell.
    rewrite Hname. simpl. eauto.
  - intros now self spell_name condition priority reason Hcond. unfold add_spell.
    rewrite Hcond. destruct (negb (list_mem _ _)); simpl; eauto.
  - intros now self priority kw condition reason Hkw Hcond Hentry.
    unfold update_spell, has_entry in *.
    destruct (PyList.find_index _ _); [|discriminate].
    rewrite Hkw, Hcond. simpl. eauto.
Qed.

Lemma failed_call_changes_nothing_witness :
  snd (add_spell 500 Samples.holy_heal "Fireball" "true" None) = Samples.holy_heal
  /\ snd (update_spell 500 Samples.holy_heal 1
            (mk_kwargs None (Some "player.health >30") None None None None))
     = Samples.holy_heal.
Proof.
  split.
  - apply (proj1 failed_call_changes_nothing 500 Samples.holy_heal "Fireball"
             "true" None (ValueError "Spell Fireball not found for Priest/Holy")).
    reflexivity.
  - apply (proj1 (proj2 failed_call_changes_nothing) 500 Samples.holy_heal 1
             (mk_kwargs None (Some "player.health >30") None None None None)
             (ValueError "Invalid condition: Invalid operator usage")).
    reflexivity.
Defined.

(** C10.  [Rotation.from_soe_format] raises [ValueError] for every input:
    [core/rotation.py] does not import [re], the first use of the name
    raises [NameError], and the handler of the method re-raises it as
    [ValueError]. *)
Theorem from_soe_format_always_raises :
  forall clk soe_code,
    from_soe_format clk soe_code
    = Raise (ValueError "Error parsing SOE Engine code: name 're' is not defined").
Proof. intros clk soe_code. reflexivity. Qed.

End RotationFailures.

(** ** The JSON round trip *)

Section JsonRoundTrip.
Import Rotation RotationExporter RotationImporter.

Lemma add_spell_modified_at now self spell_name condition priority spell self' :
  add_spell now self spell_name condition priority = (Return spell, self') ->
  RotationMetadata.modified_at (metadata self') = now.
Proof.
  unfold add_spell.
  destruct (negb (list_mem _ _)); [discriminate|].
  destruct (ConditionValidator.validate_condition condition) as [[valid reason]|e];
    [|discriminate].
  destruct valid; [|discriminate]. simpl.
  destruct priority; simpl; intros H; inversion H; reflexivity.
Qed.

(** One more step of a computation in [exn] that is known to return. *)
Ltac returns H :=
  match type of H with
  | context [match ?m with Return _ => _ | Raise _ => _ end] =>
      let E := fresh "E" in
      destruct m eqn:E; simpl in H; [|discriminate H]
  end.

(** Every [add_spell] of the import loop stamps the rotation with the
    clock of the import, after [from_json] has restored [modified_at]. *)
Lemma add_json_spells_modified_at clk :
  forall (items : list Json.value) k rotation rotation',
    items <> [] ->
    add_json_spells clk k items rotation = Return rotation' ->
    RotationMetadata.modified_at (metadata rotation')
    = clk (k + List.length items - 1)%nat.
Proof.
  induction items as [|d rest IH]; intros k rotation rotation' Hne H;
    [contradiction|].
  cbn [add_json_spells] in H. unfold bind in H.
  do 3 returns H.
  destruct (add_spell (clk k) rotation a a0 a1) as [[spell|e] rotation1] eqn:Hadd;
    [|discriminate H].
  do 2 returns H.
  apply add_spell_modified_at in Hadd.
  destruct rest as [|d' rest'].
  - simpl in H. inversion H. subst rotation'. simpl.
    replace (k + 1 - 1)%nat with k by lia. exact Hadd.
  - apply IH in H; [|discriminate]. rewrite H. f_equal. simpl. lia.
Qed.

(** For every rotation with at least one entry, the rotation imported
    from its JSON export carries the clock of the import as [modified_at],
    not the exported value. *)
Lemma from_json_to_json_modified_at clk r r' :
  spells r <> [] ->
  from_json clk (to_json r) = Return r' ->
  RotationMetadata.modified_at (metadata r') = clk (S (List.length (spells r))).
Proof.
  intros Hne H. unfold from_json, to_json, try_except in H.
  match type of H with
  | match ?body with Return _ => _ | Raise _ => _ end = _ =>
      destruct body as [r0|e] eqn:Hbody; [|discriminate H]
  end.
  inversion H; subst r0. clear H.
  cbn in Hbody. unfold bind in Hbody.
  returns Hbody.
  returns Hbody.
  apply add_json_spells_modified_at in Hbody.
  - rewrite Hbody, length_map. f_equal; lia.
  - destruct (spells r); [contradiction | discriminate].
Qed.

(** C2 at its failing input.  The rotation [holy_heal] has one entry and
    was last modified at clock reading 200.  Importing its JSON export
    when the clock reads 300, 301, 302 gives a rotation whose
    [modified_at] is 302: [from_json] restores the field and then calls
    [add_spell], which overwrites it. *)
Theorem json_round_trip_loses_modified_at :
  init 100 101 "Priest" "Holy" = Return Samples.holy
  /\ add_spell 200 Samples.holy "Heal" "true" None
     = (Return 0%nat, Samples.holy_heal)
  /\ RotationMetadata.modified_at (metadata Samples.holy_heal) = 200
  /\ exists r',
       from_json Samples.clock (to_json Samples.holy_heal) = Return r'
       /\ RotationMetadata.modified_at (metadata r') = 302
       /\ spells r' = spells Samples.holy_heal
       /\ r' <> Samples.holy_heal.
Proof.
  split; [reflexivity|]. split; [reflexivity|]. split; [reflexivity|].
  eexists. split; [vm_compute; reflexivity|].
  split; [reflexivity|]. split; [reflexivity|]. discriminate.
Qed.

End JsonRoundTrip.

(** ** The priority invariant *)

Section PriorityInvariant.
Import Rotation Calls.

(** *** The stable sort *)

Lemma insert_by_perm {A} (key : A -> Z) (x : A) (l : list A) :
  Permutation (PyList.insert_by key x l) (x :: l).
Proof.
  induction l as [|y l IH]; simpl; [apply Permutation_refl|].
  destruct (key x <=? key y); [apply Permutation_refl|].
  apply perm_trans with (y :: x :: l); [|apply perm_swap].
  apply perm_skip. exact IH.
Qed.

Lemma sort_by_perm {A} (key : A -> Z) (l : list A) :
  Permutation (PyList.sort_by key l) l.
Proof.
  induction l as [|x l IH]; simpl; [apply perm_nil|].
  apply perm_trans with (x :: PyList.sort_by key l).
  - apply insert_by_perm.
  - apply perm_skip. exact IH.
Qed.

Lemma insert_by_sorted {A} (key : A -> Z) (x : A) (l : list A) :
  Sorted Z.le (map key l) -> Sorted Z.le (map key (PyList.insert_by key x l)).
Proof.
  induction l as [|y l IH]; intros Hs; simpl.
  - repeat constructor.
  - destruct (Z.leb_spec (key x) (key y)) as [Hle|Hgt]; simpl.
    + constructor; [exact Hs|]. constructor. exact Hle.
    + inversion Hs as [|? ? Htail Hhd]; subst.
      constructor; [apply IH; exact Htail|].
      destruct l as [|z l]; simpl.
      * constructor. lia.
      * destruct (key x <=? key z); simpl; constructor; try lia.
        inversion Hhd; assumption.
Qed.

Lemma sort_by_sorted {A} (key : A -> Z) (l : list A) :
  Sorted Z.le (map key (PyList.sort_by key l)).
Proof.
  induction l as [|x l IH]; simpl; [constructor|].
  apply insert_by_sorted. exact IH.
Qed.

(** A sorted list is determined by its elements. *)
Lemma sorted_perm_eq (l1 : list Z) :
  forall l2, StronglySorted Z.le l1 -> StronglySorted Z.le l2 ->
             Permutation l1 l2 -> l1 = l2.
Proof.
  induction l1 as [|a l1 IH]; intros l2 H1 H2 Hp.
  - apply Permutation_nil in Hp. symmetry. exact Hp.
  - destruct l2 as [|b l2].
    + apply Permutation_sym, Permutation_nil in Hp. discriminate.
    + apply StronglySorted_inv in H1 as [H1 F1].
      apply StronglySorted_inv in H2 as [H2 F2].
      rewrite Forall_forall in F1, F2.
      assert (Hab : a <= b).
      { assert (Hin : In b (a :: l1))
          by (apply Permutation_in with (b :: l2);
              [apply Permutation_sym; exact Hp | left; reflexivity]).
        destruct Hin as [->|Hin]; [lia | apply F1; exact Hin]. }
      assert (Hba : b <= a).
      { assert (Hin : In a (b :: l2))
          by (apply Permutation_in with (a :: l1); [exact Hp | left; reflexivity]).
        destruct Hin as [->|Hin]; [lia | apply F2; exact Hin]. }
      assert (a = b) by lia. subst b.
      f_equal. apply IH; [exact H1 | exact H2 |].
      apply Permutation_cons_inv with a. exact Hp.
Qed.

(** *** The range [first .. first + n - 1] *)

Lemma zrange_length first n : List.length (zrange first n) = n.
Proof. revert first. induction n; intros; simpl; [|rewrite IHn]; reflexivity. Qed.

Lemma zrange_in first n x :
  In x (zrange first n) <-> first <= x < first + Z.of_nat n.
Proof.
  revert first. induction n as [|n IH]; intros first; simpl.
  - lia.
  - rewrite IH. lia.
Qed.

Lemma zrange_nodup first n : NoDup (zrange first n).
Proof.
  revert first. induction n as [|n IH]; intros first; simpl; constructor.
  - rewrite zrange_in. lia.
  - apply IH.
Qed.

Lemma zrange_sorted first n : StronglySorted Z.le (zrange first n).
Proof.
  revert first. induction n as [|n IH]; intros first; simpl; constructor.
  - apply IH.
  - apply Forall_forall. intros x Hx. apply zrange_in in Hx. lia.
Qed.

Lemma zrange_snoc first n :
  (zrange first n ++ [first + Z.of_nat n])%list = zrange first (S n).
Proof.
  revert first. induction n as [|n IH]; intros first.
  - simpl. f_equal. lia.
  - cbn [zrange app]. f_equal.
    replace (first + Z.of_nat (S n)) with (first + 1 + Z.of_nat n) by lia.
    rewrite IH. reflexivity.
Qed.

(** A list whose priorities are a rearrangement of [1 .. N] is dense once
    it is sorted. *)
Lemma sorted_dense (l : list SpellEntry.t) :
  NoDup (priorities l) ->
  (forall q, In q (priorities l) -> 1 <= q <= Z.of_nat (List.length l)) ->
  dense (_sort_spells l).
Proof.
  intros Hnd Hin. unfold dense, _sort_spells.
  assert (Hlen : List.length (PyList.sort_by SpellEntry.priority l) = List.length l)
    by (apply Permutation_length, sort_by_perm).
  rewrite Hlen.
  apply sorted_perm_eq.
  - apply Sorted_StronglySorted; [intros x y z; lia | apply sort_by_sorted].
  - apply zrange_sorted.
  - apply perm_trans with (priorities l).
    + apply Permutation_map, sort_by_perm.
    + apply NoDup_Permutation_bis; [exact Hnd | |].
      * rewrite zrange_length. unfold priorities. rewrite length_map. lia.
      * intros q Hq. apply zrange_in. specialize (Hin q Hq). lia.
Qed.

(** *** The priorities after each loop *)

Lemma priorities_renumbered (test : Z -> bool) (move : Z -> Z) (l : list SpellEntry.t) :
  priorities
    (map (fun s => if test (SpellEntry.priority s)
                   then SpellEntry.set_priority (move (SpellEntry.priority s)) s
                   else s) l)
  = map (fun q => if test q then move q else q) (priorities l).
Proof.
  unfold priorities. rewrite !map_map. apply map_ext. intros s.
  destruct (test (SpellEntry.priority s)); reflexivity.
Qed.

Lemma priorities_update_at (i : nat) (v : Z) (l : list SpellEntry.t) :
  priorities (PyList.update_at i (SpellEntry.set_priority v) l)
  = PyList.update_at i (fun _ => v) (priorities l).
Proof.
  revert i. induction l as [|s l IH]; intros [|i]; simpl; try reflexivity.
  f_equal. apply IH.
Qed.

Lemma priorities_remove_at (i : nat) (l : list SpellEntry.t) :
  priorities (PyList.remove_at i l) = PyList.remove_at i (priorities l).
Proof.
  revert i. induction l as [|s l IH]; intros [|i]; simpl; try reflexivity.
  f_equal. apply IH.
Qed.

Lemma find_index_priorities (p : Z) (l : list SpellEntry.t) :
  PyList.find_index (fun s => SpellEntry.priority s =? p) l
  = PyList.find_index (fun q => q =? p) (priorities l).
Proof.
  induction l as [|s l IH]; simpl; [reflexivity|].
  destruct (SpellEntry.priority s =? p); [reflexivity|]. rewrite IH. reflexivity.
Qed.

Lemma find_index_in (p : Z) (ps : list Z) (i : nat) :
  PyList.find_index (fun q => q =? p) ps = Some i -> In p ps.
Proof.
  revert i. induction ps as [|q ps IH]; intros i; simpl; [discriminate|].
  destruct (Z.eqb_spec q p) as [->|Hne]; [left; reflexivity|].
  destruct (PyList.find_index _ ps) as [j|] eqn:E; [|discriminate].
  intros _. right. apply (IH j). reflexivity.
Qed.

(** In a list without repetition, assigning [v] to the first element equal
    to [p], after a renumbering [g] of all elements, is a renumbering. *)
Lemma update_found (p v : Z) (g : Z -> Z) (ps : list Z) :
  forall i, NoDup ps ->
            PyList.find_index (fun q => q =? p) ps = Some i ->
            PyList.update_at i (fun _ => v) (map g ps)
            = map (fun q => if q =? p then v else g q) ps.
Proof.
  induction ps as [|q ps IH]; intros i Hnd; simpl; [discriminate|].
  apply NoDup_cons_iff in Hnd as [Hq Hnd].
  destruct (Z.eqb_spec q p) as [->|Hne].
  - intros E. inversion E; subst i. simpl. f_equal.
    apply map_ext_in. intros x Hx.
    destruct (Z.eqb_spec x p) as [->|_]; [contradiction | reflexivity].
  - destruct (PyList.find_index _ ps) as [j|] eqn:E; [|discriminate].
    intros E'. inversion E'; subst i. simpl. f_equal. apply IH; [exact Hnd | reflexivity].
Qed.

(** *** [remove_spell] *)

Lemma shift_down_above (p first : Z) (n : nat) :
  p <= first ->
  map (fun q => if q >? p then q - 1 else q) (zrange (first + 1) n) = zrange first n.
Proof.
  revert first. induction n as [|n IH]; intros first Hp; simpl; [reflexivity|].
  destruct (Z.gtb_spec (first + 1) p); [|lia].
  f_equal; [lia|]. apply IH. lia.
Qed.

Lemma remove_from_range (p : Z) (n : nat) :
  forall first i,
    PyList.find_index (fun q => q =? p) (zrange first n) = Some i ->
    map (fun q => if q >? p then q - 1 else q)
        (PyList.remove_at i (zrange first n))
    = zrange first (n - 1).
Proof.
  induction n as [|n IH]; intros first i; simpl; [discriminate|].
  destruct (Z.eqb_spec first p) as [->|Hne].
  - intros E. inversion E; subst i. simpl.
    rewrite Nat.sub_0_r. apply shift_down_above. lia.
  - destruct (PyList.find_index _ (zrange (first + 1) n)) as [j|] eqn:E;
      [|discriminate].
    intros E'. inversion E'; subst i. simpl.
    pose proof (find_index_in _ _ _ E) as Hin. apply zrange_in in Hin.
    destruct (Z.gtb_spec first p); [lia|].
    rewrite (IH _ _ E). destruct n as [|n]; [simpl in Hin; lia|].
    simpl. rewrite Nat.sub_0_r. reflexivity.
Qed.

Lemma remove_at_length {A} (l : list A) :
  forall i, (i < List.length l)%nat ->
            List.length (PyList.remove_at i l) = (List.length l - 1)%nat.
Proof.
  induction l as [|x l IH]; intros [|i] Hi; simpl in *; try lia.
  rewrite IH; lia.
Qed.

Lemma find_index_lt {A} (test : A -> bool) (l : list A) :
  forall i, PyList.find_index test l = Some i -> (i < List.length l)%nat.
Proof.
  induction l as [|x l IH]; intros i; simpl; [discriminate|].
  destruct (test x); [intros E; inversion E; lia|].
  destruct (PyList.find_index test l) as [j|]; [|discriminate].
  intros E; inversion E; subst. specialize (IH j eq_refl). lia.
Qed.

Lemma remove_spell_dense now self p :
  dense (spells self) -> dense (spells (snd (remove_spell now self p))).
Proof.
  intros Hd. unfold remove_spell.
  destruct (PyList.find_index _ (spells self)) as [i|] eqn:E; simpl; [|exact Hd].
  unfold dense in *. unfold shift_down.
  rewrite (priorities_renumbered (fun q => q >? p) (fun q => q - 1)).
  rewrite priorities_remove_at, length_map.
  rewrite (remove_at_length _ _ (find_index_lt _ _ _ E)).
  rewrite find_index_priorities, Hd in E. rewrite Hd.
  apply remove_from_range. exact E.
Qed.

(** *** [add_spell] *)

Lemma dense_in (l : list SpellEntry.t) (q : Z) :
  dense l -> In q (priorities l) -> 1 <= q <= Z.of_nat (List.length l).
Proof. intros Hd Hq. rewrite Hd in Hq. apply zrange_in in Hq. lia. Qed.

Lemma dense_nodup (l : list SpellEntry.t) : dense l -> NoDup (priorities l).
Proof. intros Hd. rewrite Hd. apply zrange_nodup. Qed.

Lemma add_spell_dense now self spell_name condition priority spell self' :
  dense (spells self) ->
  in_range self (AddSpell spell_name condition priority) = true ->
  add_spell now self spell_name condition priority = (Return spell, self') ->
  dense (spells self').
Proof.
  intros Hd Hr. unfold add_spell.
  destruct (negb (list_mem _ _)); [discriminate|].
  destruct (ConditionValidator.validate_condition condition) as [[valid reason]|e];
    [|discriminate].
  destruct valid; [|discriminate]. simpl.
  destruct priority as [p|]; simpl; intros H; inversion H; subst; clear H; simpl.
  - (* an explicit priority between 1 and N + 1 *)
    simpl in Hr. apply andb_prop in Hr as [Hlo Hhi].
    apply Z.leb_le in Hlo, Hhi.
    apply sorted_dense.
    + unfold priorities. rewrite map_app. fold (priorities (shift_up p (spells self))).
      unfold shift_up.
      rewrite (priorities_renumbered (fun q => q >=? p) (fun q => q + 1)).
      apply NoDup_app.
      * apply Injective_map_NoDup_in; [|apply dense_nodup; exact Hd].
        intros x y _ _.
        destruct (Z.geb_spec x p); destruct (Z.geb_spec y p); lia.
      * repeat constructor. intros [].
      * intros q Hq [<-|[]]. apply in_map_iff in Hq as (x & Hx & _).
        simpl in Hx. destruct (Z.geb_spec x p); lia.
    + intros q Hq. unfold priorities in Hq. rewrite map_app in Hq.
      unfold shift_up at 1. rewrite length_app, length_map. simpl List.length.
      apply in_app_or in Hq as [Hq|[<-|[]]].
      * fold (priorities (shift_up p (spells self))) in Hq. unfold shift_up in Hq.
        rewrite (priorities_renumbered (fun q => q >=? p) (fun q => q + 1)) in Hq.
        apply in_map_iff in Hq as (x & Hx & Hin).
        pose proof (dense_in _ _ Hd Hin).
        destruct (Z.geb_spec x p); lia.
      * simpl. lia.
  - (* no priority: the entry goes last *)
    apply sorted_dense.
    + unfold priorities. rewrite map_app. fold (priorities (spells self)).
      rewrite Hd. simpl. rewrite Z.add_comm, (zrange_snoc 1). apply zrange_nodup.
    + intros q Hq. unfold priorities in Hq. rewrite map_app in Hq.
      rewrite length_app. simpl List.length.
      apply in_app_or in Hq as [Hq|[<-|[]]].
      * pose proof (dense_in _ _ Hd Hq). lia.
      * simpl. lia.
Qed.

(** *** [move_spell] *)

Lemma has_priority_found (p : Z) (l : list SpellEntry.t) (i : nat) :
  PyList.find_index (fun s => SpellEntry.priority s =? p) l = Some i ->
  has_priority p l = true.
Proof.
  revert i. unfold has_priority. induction l as [|s l IH]; intros i; simpl;
    [discriminate|].
  destruct (SpellEntry.priority s =? p); [reflexivity|]. simpl.
  destruct (PyList.find_index _ l) as [j|]; [|discriminate].
  intros _. apply (IH j). reflexivity.
Qed.

Lemma update_at_length {A} (f : A -> A) (l : list A) :
  forall i, List.length (PyList.update_at i f l) = List.length l.
Proof.
  induction l as [|x l IH]; intros [|i]; simpl; try reflexivity.
  rewrite IH. reflexivity.
Qed.

Lemma move_spell_dense now self from_priority to_priority :
  dense (spells self) ->
  in_range self (MoveSpell from_priority to_priority) = true ->
  dense (spells (snd (move_spell now self from_priority to_priority))).
Proof.
  intros Hd Hr. unfold move_spell.
  destruct (Z.eqb_spec from_priority to_priority) as [Heq|Hne]; [exact Hd|].
  destruct (PyList.find_index _ (spells self)) as [i|] eqn:E; [|exact Hd].
  simpl in Hr.
  rewrite (proj2 (Z.eqb_neq _ _) Hne), (has_priority_found _ _ _ E) in Hr.
  simpl in Hr.
  apply andb_prop in Hr as [Hlo Hhi]. apply Z.leb_le in Hlo, Hhi.
  assert (Hfrom : 1 <= from_priority <= Z.of_nat (List.length (spells self))).
  { apply dense_in; [exact Hd|]. apply find_index_in with i.
    rewrite <- find_index_priorities. exact E. }
  rewrite find_index_priorities in E.
  simpl. unfold renumber.
  assert (Hlen : forall l : list SpellEntry.t,
             List.length l = List.length (spells self) ->
             List.length
               (PyList.update_at i (SpellEntry.set_priority to_priority) l)
             = List.length (spells self))
    by (intros l Hl; rewrite update_at_length; exact Hl).
  destruct (Z.ltb_spec from_priority to_priority) as [Hlt|Hge].
  - apply sorted_dense.
    + rewrite priorities_update_at.
      rewrite (priorities_renumbered
                 (fun q => (from_priority <? q) && (q <=? to_priority))
                 (fun q => q - 1)).
      rewrite (update_found _ _ _ _ _ (dense_nodup _ Hd) E).
      apply Injective_map_NoDup_in; [|apply dense_nodup; exact Hd].
      intros x y _ _.
      destruct (Z.eqb_spec x from_priority); destruct (Z.eqb_spec y from_priority);
        destruct (Z.ltb_spec from_priority x); destruct (Z.leb_spec x to_priority);
        destruct (Z.ltb_spec from_priority y); destruct (Z.leb_spec y to_priority);
        simpl; lia.
    + intros q Hq. rewrite Hlen by apply length_map.
      rewrite priorities_update_at in Hq.
      rewrite (priorities_renumbered
                 (fun q => (from_priority <? q) && (q <=? to_priority))
                 (fun q => q - 1)) in Hq.
      rewrite (update_found _ _ _ _ _ (dense_nodup _ Hd) E) in Hq.
      apply in_map_iff in Hq as (x & Hx & Hin).
      pose proof (dense_in _ _ Hd Hin).
      destruct (Z.eqb_spec x from_priority);
        destruct (Z.ltb_spec from_priority x); destruct (Z.leb_spec x to_priority);
        simpl in Hx; lia.
  - apply sorted_dense.
    + rewrite priorities_update_at.
      rewrite (priorities_renumbered
                 (fun q => (to_priority <=? q) && (q <? from_priority))
                 (fun q => q + 1)).
      rewrite (update_found _ _ _ _ _ (dense_nodup _ Hd) E).
      apply Injective_map_NoDup_in; [|apply dense_nodup; exact Hd].
      intros x y _ _.
      destruct (Z.eqb_spec x from_priority); destruct (Z.eqb_spec y from_priority);
        destruct (Z.leb_spec to_priority x); destruct (Z.ltb_spec x from_priority);
        destruct (Z.leb_spec to_priority y); destruct (Z.ltb_spec y from_priority);
        simpl; lia.
    + intros q Hq. rewrite Hlen by apply length_map.
      rewrite priorities_update_at in Hq.
      rewrite (priorities_renumbered
                 (fun q => (to_priority <=? q) && (q <? from_priority))
                 (fun q => q + 1)) in Hq.
      rewrite (update_found _ _ _ _ _ (dense_nodup _ Hd) E) in Hq.
      apply in_map_iff in Hq as (x & Hx & Hin).
      pose proof (dense_in _ _ Hd Hin).
      destruct (Z.eqb_spec x from_priority);
        destruct (Z.leb_spec to_priority x); destruct (Z.ltb_spec x from_priority);
        simpl in Hx; lia.
Qed.

(** *** Sequences of calls *)

Lemma apply_dense now r c r' :
  dense (spells r) -> in_range r c = true -> apply now r c = Some r' ->
  dense (spells r').
Proof.
  intros Hd Hr. destruct c as [spell_name condition priority|p|from_p to_p];
    simpl; intros H.
  - destruct (add_spell now r spell_name condition priority) as [[spell|e] r1] eqn:E;
      inversion H; subst.
    eapply add_spell_dense; eauto.
  - inversion H; subst. apply remove_spell_dense. exact Hd.
  - inversion H; subst. apply move_spell_dense; assumption.
Qed.

(** C1, as stated, fails: [add_spell] with the explicit priority 5 on the
    rotation without entries completes and leaves one entry, of
    priority 5. *)
Lemma explicit_priority_breaks_density :
  exists r',
    run Samples.holy [(200, AddSpell "Heal" "true" (Some 5))] = Some r'
    /\ dense (spells Samples.holy)
    /\ priorities (spells r') = [5]
    /\ ~ dense (spells r').
Proof.
  eexists. split; [vm_compute; reflexivity|].
  split; [reflexivity|]. split; [reflexivity|].
  unfold dense. simpl. discriminate.
Qed.

(** C1, amended.  From a rotation whose priorities are [1 .. N] in list
    order, in particular from a new rotation, every sequence of
    [add_spell], [remove_spell] and [move_spell] calls that complete, and
    whose priority arguments are in range (an explicit priority of
    [add_spell] between 1 and N+1, the target of a [move_spell] that moves
    an entry between 1 and N, N being the number of entries at the call),
    leaves the priorities [1 .. N'] in list order, N' the number of
    entries. *)
Theorem priorities_stay_dense :
  forall calls r r',
    dense (spells r) ->
    all_in_range r calls = true ->
    run r calls = Some r' ->
    dense (spells r').
Proof.
  induction calls as [|[now c] calls IH]; intros r r' Hd Hr Hrun; simpl in *.
  - inversion Hrun; subst. exact Hd.
  - apply andb_prop in Hr as [Hc Hrest].
    destruct (apply now r c) as [r1|] eqn:E; [|discriminate].
    apply (IH r1 r'); [|exact Hrest | exact Hrun].
    eapply apply_dense; eauto.
Qed.

Lemma priorities_stay_dense_witness :
  exists r',
    run Samples.holy
      [ (200, AddSpell "Heal" "true" None);
        (201, AddSpell "Renew" "player.moving" (Some 1));
        (202, AddSpell "Smite" "target.exists" (Some 3));
        (203, MoveSpell 3 1);
        (204, RemoveSpell 2) ] = Some r'
    /\ dense (spells r').
Proof.
  eexists. split; [vm_compute; reflexivity|].
  apply (priorities_stay_dense
           [ (200, AddSpell "Heal" "true" None);
             (201, AddSpell "Renew" "player.moving" (Some 1));
             (202, AddSpell "Smite" "target.exists" (Some 3));
             (203, MoveSpell 3 1);
             (204, RemoveSpell 2) ] Samples.holy).
  - reflexivity.
  - vm_compute. reflexivity.
  - vm_compute. reflexivity.
Defined.

End PriorityInvariant.

(** ** What the JSON round trip keeps *)

Section JsonKeeps.
Import Rotation RotationExporter RotationImporter Calls.

Lemma shift_up_below (p : Z) (l : list SpellEntry.t) :
  (forall q, In q (priorities l) -> q < p) -> shift_up p l = l.
Proof.
  intros H. unfold shift_up. rewrite <- (map_id l) at 2. apply map_ext_in.
  intros s Hs. destruct (Z.geb_spec (SpellEntry.priority s) p) as [Hge|_];
    [|reflexivity].
  specialize (H _ (in_map SpellEntry.priority _ _ Hs)). lia.
Qed.

(** Sorting a list whose keys already count upwards changes nothing. *)
Lemma sort_by_zrange {A} (key : A -> Z) (l : list A) :
  forall first, map key l = zrange first (List.length l) -> PyList.sort_by key l = l.
Proof.
  induction l as [|x l IH]; intros first H; [reflexivity|].
  simpl in H. injection H as Hx Hl. simpl. rewrite (IH _ Hl).
  destruct l as [|y l]; [reflexivity|]. simpl in Hl. injection Hl as Hy _.
  simpl. destruct (Z.leb_spec (key x) (key y)); [reflexivity | lia].
Qed.

Lemma keys_of_tagged {A} (key : A -> Z) (l : list A) :
  forall start, map (fun p : nat * A => key (snd p)) (combine (seq start (List.length l)) l)
                = map key l.
Proof.
  induction l as [|x l IH]; intros start; [reflexivity|].
  simpl. rewrite IH. reflexivity.
Qed.

Lemma find_tag {A} (l : list A) :
  forall start i, (start <= i < start + List.length l)%nat ->
    PyList.find_index (fun p : nat * A => Nat.eqb (fst p) i)
      (combine (seq start (List.length l)) l) = Some (i - start)%nat.
Proof.
  induction l as [|x l IH]; intros start i Hi; simpl in *; [lia|].
  destruct (Nat.eqb_spec start i) as [->|Hne].
  - rewrite Nat.sub_diag. reflexivity.
  - rewrite (IH (S start) i) by lia. f_equal. lia.
Qed.

Lemma index_after_sort_zrange {A} (key : A -> Z) (l : list A) (first : Z) (i : nat) :
  map key l = zrange first (List.length l) -> (i < List.length l)%nat ->
  PyList.index_after_sort key l i = i.
Proof.
  intros H Hi. unfold PyList.index_after_sort.
  rewrite (sort_by_zrange _ _ first).
  - rewrite find_tag by lia. lia.
  - rewrite keys_of_tagged, length_combine, length_seq, Nat.min_id. exact H.
Qed.

Lemma update_at_last {A} (f : A -> A) (pre : list A) (x : A) :
  PyList.update_at (List.length pre) f (pre ++ [x]) = (pre ++ [f x])%list.
Proof. induction pre as [|y pre IH]; simpl; [|rewrite IH]; reflexivity. Qed.

Lemma as_string_list_strings (l : list string) :
  Json.as_string_list (map Json.String_ l) = Return l.
Proof. induction l as [|s l IH]; simpl; [|rewrite IH]; reflexivity. Qed.


Lemma add_spell_returns now self n c p :
  list_mem n
    (spell_data.get_spells_for_spec
       (RotationMetadata.class_name (metadata self))
       (RotationMetadata.spec_name (metadata self))) = true ->
  ConditionValidator.validate_condition c = Return (true, "") ->
  add_spell now self n c (Some p)
  = (Return (PyList.index_after_sort SpellEntry.priority
               (shift_up p (spells self) ++ [SpellEntry.new n c p])
               (List.length (shift_up p (spells self)))),
     touch now
       (set_spells (_sort_spells (shift_up p (spells self) ++ [SpellEntry.new n c p]))
          self)).
Proof. intros Hn Hc. unfold add_spell. rewrite Hn, Hc. reflexivity. Qed.

(** The import loop appends the exported entries one after the other
    and, when there is any, leaves the clock of the last [add_spell] in
    [modified_at]. *)
Lemma add_json_spells_rebuilds clk :
  forall rest pre k rot,
    spells rot = pre ->
    priorities pre = zrange 1 (List.length pre) ->
    priorities rest = zrange (1 + Z.of_nat (List.length pre)) (List.length rest) ->
    Forall (importable (RotationMetadata.class_name (metadata rot))
              (RotationMetadata.spec_name (metadata rot))) rest ->
    add_json_spells clk k (map spell_document rest) rot
    = Return
        (Rotation.mk
           match rest with
           | [] => metadata rot
           | _ => RotationMetadata.set_modified_at
                    (clk (k + List.length rest - 1)%nat) (metadata rot)
           end
           (pre ++ rest) (spec_id rot)).
Proof.
  induction rest as [|s rest IH]; intros pre k rot Hpre Hdense Hrest Hok.
  - simpl. rewrite app_nil_r, <- Hpre. destruct rot; reflexivity.
  - inversion Hok as [|? ? [Hn [Hc Hid]] Hok']; subst.
    cbn [priorities map zrange List.length] in Hrest.
    pose proof (f_equal (hd 0) Hrest) as Hp.
    apply (f_equal (@tl Z)) in Hrest. cbn [hd tl] in Hp, Hrest.
    fold (priorities rest) in Hrest.
    cbn [map add_json_spells].
    change (Json.get (spell_document s) "name")
      with (Return (Json.String_ (SpellEntry.name s))).
    change (Json.get (spell_document s) "condition")
      with (Return (Json.String_ (SpellEntry.condition s))).
    change (Json.get (spell_document s) "priority")
      with (Return (Json.Int (SpellEntry.priority s))).
    change (Json.get (spell_document s) "enabled")
      with (Return (Json.Bool (SpellEntry.enabled s))).
    change (Json.get (spell_document s) "notes")
      with (Return (Json.String_ (SpellEntry.notes s))).
    cbn [bind Json.as_string Json.as_optional_int Json.as_bool].
    rewrite (add_spell_returns _ _ _ _ _ Hn Hc).
    rewrite shift_up_below
      by (intros q Hq; rewrite Hdense in Hq; apply zrange_in in Hq; lia).
    assert (Hnew : priorities (spells rot ++ [SpellEntry.new (SpellEntry.name s)
                      (SpellEntry.condition s) (SpellEntry.priority s)])
                   = zrange 1 (List.length (spells rot ++ [SpellEntry.new
                        (SpellEntry.name s) (SpellEntry.condition s)
                        (SpellEntry.priority s)]))).
    { unfold priorities. rewrite map_app, length_app. simpl.
      fold (priorities (spells rot)). rewrite Hdense, Hp.
      rewrite Nat.add_1_r. apply (zrange_snoc 1). }
    unfold _sort_spells.
    rewrite (sort_by_zrange _ _ 1 Hnew).
    rewrite (index_after_sort_zrange _ _ 1 _ Hnew) by (rewrite length_app; simpl; lia).
    cbn [bind touch set_spells set_metadata spells metadata spec_id].
    rewrite !update_at_last.
    assert (Hs : SpellEntry.set_notes (SpellEntry.notes s)
                   (SpellEntry.set_enabled (SpellEntry.enabled s)
                      (SpellEntry.new (SpellEntry.name s) (SpellEntry.condition s)
                         (SpellEntry.priority s))) = s)
      by (destruct s; simpl in Hid; subst; reflexivity).
    rewrite Hs.
    rewrite (IH (spells rot ++ [s])%list (S k)).
    + f_equal. unfold set_spells, touch, set_metadata. cbn [metadata spells spec_id].
      rewrite <- app_assoc. cbn [app]. f_equal.
      destruct rest as [|s' rest].
      * cbn [List.length]. replace (k + 1 - 1)%nat with k by lia. reflexivity.
      * cbn [List.length].
        replace (S k + S (List.length rest) - 1)%nat
          with (k + S (S (List.length rest)) - 1)%nat by lia.
        destruct (metadata rot); reflexivity.
    + reflexivity.
    + unfold priorities. rewrite map_app, length_app. simpl.
      fold (priorities (spells rot)). rewrite Hdense, Hp.
      rewrite Nat.add_1_r. apply (zrange_snoc 1).
    + rewrite Hrest. f_equal. rewrite length_app. cbn [List.length]. lia.
    + exact Hok'.
Qed.


(** X27.  Apart from [modified_at], the JSON round trip gives the rotation
    back: for a rotation of a known class and spec whose entries have
    legal names, valid conditions, no [id] and the priorities [1 .. N]. *)
Lemma json_round_trip_keeps_the_rest clk r :
  spec_id r
  = spell_data.get_spec_id (RotationMetadata.class_name (metadata r))
      (RotationMetadata.spec_name (metadata r)) ->
  spec_id_missing (spec_id r) = false ->
  dense (spells r) ->
  Forall (importable (RotationMetadata.class_name (metadata r))
            (RotationMetadata.spec_name (metadata r))) (spells r) ->
  from_json clk (to_json r)
  = Return
      (Rotation.mk
         match spells r with
         | [] => metadata r
         | _ => RotationMetadata.set_modified_at
                  (clk (S (List.length (spells r)))) (metadata r)
         end
         (spells r) (spec_id r)).
Proof.
  intros Hid Hknown Hdense Hok. unfold from_json, to_json.
  cbn [Json.mem Json.get dict_mem dict_getitem dict_get String.eqb Ascii.eqb
       Bool.eqb bind negb Json.as_string Json.as_float Json.as_list].
  unfold init. cbn [spec_id]. rewrite <- Hid, Hknown.
  cbn [bind]. rewrite as_string_list_strings. cbn [bind].
    rewrite (add_json_spells_rebuilds clk (spells r) [] 2).
  - unfold try_except, set_metadata. cbn [metadata spells spec_id app].
    f_equal. f_equal.
    destruct (spells r) as [|s l].
    + destruct (metadata r); reflexivity.
    + cbn [List.length]. replace (2 + S (List.length l) - 1)%nat
        with (S (S (List.length l))) by lia.
      destruct (metadata r); reflexivity.
  - reflexivity.
  - reflexivity.
  - exact Hdense.
  - exact Hok.
Qed.

End JsonKeeps.

(** ** The import of the registration format *)

Section SoeImport.
Import Rotation RotationImporter SoeText.

(** *** Strings *)

Lemma append_assoc (a b c : string) : (a ++ b) ++ c = a ++ (b ++ c).
Proof. induction a as [|x a IH]; simpl; [|rewrite IH]; reflexivity. Qed.

Lemma length_append (a b : string) :
  String.length (a ++ b) = (String.length a + String.length b)%nat.
Proof. induction a as [|x a IH]; simpl; [|rewrite IH]; reflexivity. Qed.

Lemma take_append (a b : string) : Str.take (String.length a) (a ++ b) = a.
Proof. induction a as [|x a IH]; simpl; [destruct b|rewrite IH]; reflexivity. Qed.

(** The text matched by a group, from the lengths before and after. *)
Lemma take_consumed (a b : string) :
  Str.take (String.length (a ++ b) - String.length b) (a ++ b) = a.
Proof.
  rewrite length_append.
  replace (String.length a + String.length b - String.length b)%nat
    with (String.length a) by lia.
  apply take_append.
Qed.

(** *** The matcher on a run of a class *)

Lemma star_run {R} (p : ascii -> bool) (run rest : string)
      (k : string -> option R) (r : R) :
  Str.all_chars p run = true -> Re.stops p rest -> k rest = Some r ->
  Re.star p (run ++ rest) k = Some r.
Proof.
  intros Hrun Hstop Hk. induction run as [|c run IH]; simpl.
  - destruct rest as [|d rest]; simpl; [exact Hk|].
    simpl in Hstop. rewrite Hstop. exact Hk.
  - simpl in Hrun. apply andb_prop in Hrun as [Hc Hrun].
    rewrite Hc, (IH Hrun). reflexivity.
Qed.

Lemma group_run {R} (p : ascii -> bool) (run rest : string) (caps : list string)
      (k : string -> list string -> option R) (r : R) :
  run <> EmptyString -> Str.all_chars p run = true -> Re.stops p rest ->
  k rest (caps ++ [run])%list = Some r ->
  Re.rmatch (Re.Grp (Re.Plus p)) (run ++ rest) caps k = Some r.
Proof.
  intros Hne Hrun Hstop Hk. destruct run as [|c run]; [contradiction|].
  simpl in Hrun. apply andb_prop in Hrun as [Hc Hrun].
  cbn [Re.rmatch String.append]. rewrite Hc.
  apply star_run; [exact Hrun | exact Hstop |].
  change (String c (run ++ rest)) with (String c run ++ rest).
  rewrite take_consumed. exact Hk.
Qed.

(** *** [finditer] *)

Lemma finditer_skip (r : Re.regex) (a b : string) :
  Re.finditer_go r (String.length a) (a ++ b) = Re.finditer_go r 0 b.
Proof.
  induction a as [|x a IH]; simpl; [|exact IH].
  destruct b; reflexivity.
Qed.

(** Stepping the matcher: each lemma consumes one element of a sequence
    and hands the rest of the subject to the continuation. *)
Lemma seq_some {R} (r1 r2 : Re.regex) (s : string) (caps : list string)
      (k : string -> list string -> option R) (r : R) :
  Re.rmatch r1 s caps (fun s' caps' => Re.rmatch r2 s' caps' k) = Some r ->
  Re.rmatch (Re.Seq r1 r2) s caps k = Some r.
Proof. intros H. exact H. Qed.

Lemma lit_prefix {R} (l rest : string) (k : string -> option R) :
  Re.lit l (l ++ rest) k = k rest.
Proof.
  induction l as [|c l IH]; simpl; [reflexivity|].
  rewrite Ascii.eqb_refl. exact IH.
Qed.

Lemma lit_some {R} (l s rest : string) (caps : list string)
      (k : string -> list string -> option R) (r : R) :
  s = l ++ rest -> k rest caps = Some r ->
  Re.rmatch (Re.Lit l) s caps k = Some r.
Proof. intros -> H. cbn [Re.rmatch]. rewrite lit_prefix. exact H. Qed.

Lemma star_some {R} (p : ascii -> bool) (s run rest : string) (caps : list string)
      (k : string -> list string -> option R) (r : R) :
  s = run ++ rest -> Str.all_chars p run = true -> Re.stops p rest ->
  k rest caps = Some r ->
  Re.rmatch (Re.Star p) s caps k = Some r.
Proof. intros -> Hrun Hstop H. cbn [Re.rmatch]. apply star_run; assumption. Qed.

Lemma tuple_match (name condition rest : string) :
  plain name -> plain condition ->
  Re.match_at spell_pattern (tuple name condition ++ rest)
  = Some ([name; condition], rest).
Proof.
  intros [Hn1 Hn2] [Hc1 Hc2]. unfold tuple, Re.match_at, spell_pattern.
  rewrite !append_assoc. cbn [Re.cat].
  apply seq_some. eapply lit_some; [reflexivity|].
  apply seq_some. eapply (star_some _ _ " "); [reflexivity | reflexivity | reflexivity |].
  apply seq_some. eapply lit_some; [reflexivity|].
  apply seq_some, group_run; [exact Hn1 | exact Hn2 | reflexivity |].
  apply seq_some. eapply lit_some; [reflexivity|].
  apply seq_some. eapply (star_some _ _ " "); [reflexivity | reflexivity | reflexivity |].
  apply seq_some. eapply lit_some; [reflexivity|].
  apply seq_some, group_run; [exact Hc1 | exact Hc2 | reflexivity |].
  apply seq_some. eapply lit_some; [reflexivity|].
  apply seq_some. eapply (star_some _ _ " "); [reflexivity | reflexivity | reflexivity |].
  eapply lit_some; [reflexivity|].
  reflexivity.
Qed.

(** A start at which the pattern does not match is passed over. *)
Lemma finditer_no_match (r : Re.regex) (c : ascii) (s : string) :
  Re.match_at r (String c s) = None ->
  Re.finditer_go r 0 (String c s) = Re.finditer_go r 0 s.
Proof. intros H. cbn [Re.finditer_go]. rewrite H. reflexivity. Qed.

(** A match is recorded and the scan goes on behind it. *)
Lemma finditer_match (r : Re.regex) (c : ascii) (m rest : string)
      (caps : list string) :
  Re.match_at r (String c (m ++ rest)) = Some (caps, rest) ->
  Re.finditer_go r 0 (String c (m ++ rest)) = caps :: Re.finditer_go r 0 rest.
Proof.
  intros H. cbn [Re.finditer_go]. rewrite H. f_equal.
  cbn [String.length]. rewrite length_append.
  replace (S (String.length m + String.length rest) - String.length rest - 1)%nat
    with (String.length m) by lia.
  apply finditer_skip.
Qed.

Lemma finditer_no_brace (prefix rest : string) :
  Str.mem_char "{" prefix = false ->
  Re.finditer_go spell_pattern 0 (prefix ++ rest)
  = Re.finditer_go spell_pattern 0 rest.
Proof.
  induction prefix as [|c prefix IH]; intros H; [reflexivity|].
  cbn [Str.mem_char] in H. apply orb_false_elim in H as [Hc H].
  change (String c prefix ++ rest) with (String c (prefix ++ rest)).
  rewrite finditer_no_match; [apply IH; exact H|].
  unfold Re.match_at, spell_pattern. cbn [Re.cat Re.rmatch Re.lit].
  rewrite Hc. reflexivity.
Qed.

Lemma finditer_tuple (name condition rest : string) :
  plain name -> plain condition ->
  Re.finditer_go spell_pattern 0 (tuple name condition ++ rest)
  = [name; condition] :: Re.finditer_go spell_pattern 0 rest.
Proof.
  intros Hn Hc.
  apply (finditer_match spell_pattern "{"
           (" " ++ Str.quote ++ name ++ Str.quote ++ ", "
            ++ Str.quote ++ condition ++ Str.quote ++ " }") rest).
  apply (tuple_match name condition rest Hn Hc).
Qed.


(** *** The exported text *)

Lemma written_condition (c : string) :
  (if negb (String.eqb c "true") then c else "true") = c.
Proof. destruct (String.eqb_spec c "true") as [->|]; reflexivity. Qed.

Lemma to_soe_format_pair (n1 c1 n2 c2 : string) :
  to_soe_format (holy_pair n1 c1 n2 c2) = soe_text n1 c1 n2 c2.
Proof.
  unfold to_soe_format, holy_pair, soe_text, soe_header, tuple, nl.
  cbn [metadata spells spec_id flat_map SpellEntry.new SpellEntry.enabled
       SpellEntry.name SpellEntry.condition RotationMetadata.name
       RotationMetadata.author RotationMetadata.version
       RotationMetadata.description app Str.join].
  rewrite !written_condition.
  change (Str.str_int 257) with "257".
  rewrite ?append_assoc. reflexivity.
Qed.

Lemma finditer_soe_text (n1 c1 n2 c2 : string) :
  plain n1 -> plain c1 -> plain n2 -> plain c2 ->
  Re.finditer spell_pattern (soe_text n1 c1 n2 c2) = [[n1; c1]; [n2; c2]].
Proof.
  intros Hn1 Hc1 Hn2 Hc2. unfold Re.finditer, soe_text.
  rewrite finditer_no_brace by reflexivity.
  change ("{" ++ nl ++ "    " ++ tuple n1 c1 ++ "," ++ nl ++ "    "
            ++ tuple n2 c2 ++ "," ++ nl ++ "})")
    with (String "{" (nl ++ "    " ++ tuple n1 c1 ++ "," ++ nl ++ "    "
            ++ tuple n2 c2 ++ "," ++ nl ++ "})")).
  rewrite finditer_no_match by reflexivity.
  rewrite (finditer_no_brace nl), (finditer_no_brace "    ") by reflexivity.
  rewrite finditer_tuple by assumption.
  rewrite (finditer_no_brace ","), (finditer_no_brace nl),
    (finditer_no_brace "    ") by reflexivity.
  rewrite finditer_tuple by assumption.
  reflexivity.
Qed.

(** *** The groups of a match *)






(** *** The search for the spec id *)

Lemma search_no_match (r : Re.regex) (c : ascii) (s : string) :
  Re.match_at r (String c s) = None ->
  Re.search r (String c s) = Re.search r s.
Proof. intros H. cbn [Re.search]. rewrite H. reflexivity. Qed.

Lemma search_match (r : Re.regex) (s : string) (m : list string * string) :
  Re.match_at r s = Some m -> Re.search r s = Some m.
Proof. intros H. destruct s; cbn [Re.search]; rewrite H; reflexivity. Qed.

Lemma search_register (body : string) :
  Re.search register_pattern (soe_header ++ body) = Some (["257"], ", " ++ body).
Proof.
  unfold soe_header, nl. cbn [String.append].
  repeat (rewrite search_no_match by reflexivity).
  apply search_match. unfold Re.match_at, register_pattern. cbn [Re.cat].
  apply seq_some. eapply lit_some; [reflexivity|].
  apply (group_run Str.isdigit "257" (", " ++ body)); reflexivity || discriminate.
Qed.


(** *** Legal names and valid conditions hold no quote *)


Lemma all_chars_rev_acc (q : ascii -> bool) (s acc : string) :
  Str.all_chars q (Str.rev_acc s acc) = Str.all_chars q s && Str.all_chars q acc.
Proof.
  revert acc. induction s as [|c s IH]; intros acc; simpl; [reflexivity|].
  rewrite IH. simpl. destruct (q c), (Str.all_chars q s); reflexivity.
Qed.

Lemma all_chars_rev (q : ascii -> bool) (s : string) :
  Str.all_chars q (Str.rev s) = Str.all_chars q s.
Proof. unfold Str.rev. rewrite all_chars_rev_acc. simpl. apply andb_true_r. Qed.








(** *** The import *)


(** The rotation [holy_pair] is the one the interface builds. *)
Lemma holy_pair_built (n1 c1 n2 c2 : string) :
  list_mem n1 (spell_data.get_spells_for_spec "Priest" "Holy") = true ->
  list_mem n2 (spell_data.get_spells_for_spec "Priest" "Holy") = true ->
  ConditionValidator.validate_condition c1 = Return (true, "") ->
  ConditionValidator.validate_condition c2 = Return (true, "") ->
  exists spell1 spell2 r1,
    init 100 101 "Priest" "Holy" = Return Samples.holy
    /\ add_spell 200 Samples.holy n1 c1 None = (Return spell1, r1)
    /\ add_spell 201 r1 n2 c2 None = (Return spell2, holy_pair n1 c1 n2 c2).
Proof.
  intros Hn1 Hn2 Hc1 Hc2. unfold add_spell at 1.
  cbn [Samples.holy metadata RotationMetadata.class_name RotationMetadata.spec_name].
  rewrite Hn1, Hc1. cbn [negb]. do 3 eexists.
  split; [reflexivity|]. split; [reflexivity|].
  unfold add_spell.
  cbn [Samples.holy touch set_spells set_metadata metadata
       RotationMetadata.set_modified_at RotationMetadata.class_name
       RotationMetadata.spec_name].
  rewrite Hn2, Hc2. reflexivity.
Qed.


(** *** Registration texts in general *)

Import SoeShape.

Lemma string_app_nil (s : string) : s ++ "" = s.
Proof. induction s as [|c s IH]; simpl; [|rewrite IH]; reflexivity. Qed.

Lemma all_chars_app (q : ascii -> bool) (a b : string) :
  Str.all_chars q (a ++ b) = Str.all_chars q a && Str.all_chars q b.
Proof.
  induction a as [|c a IH]; cbn [String.append Str.all_chars]; [reflexivity|].
  rewrite IH. apply andb_assoc.
Qed.

Lemma prefix_nil (s : string) : String.prefix "" s = true.
Proof. destruct s; reflexivity. Qed.

Lemma prefix_cons (x y : ascii) (s t : string) :
  String.prefix (String x s) (String y t)
  = if Ascii.eqb x y then String.prefix s t else false.
Proof.
  cbn [String.prefix]. destruct (ascii_dec x y) as [->|H].
  - rewrite Ascii.eqb_refl. reflexivity.
  - apply Ascii.eqb_neq in H. rewrite H. reflexivity.
Qed.

Lemma lit_is_prefix {R} (l : string) :
  forall (s : string) (k : string -> option R) (x : R),
    Re.lit l s k = Some x -> String.prefix l s = true.
Proof.
  induction l as [|c l IH]; intros s k x; cbn [Re.lit];
    [intros _; destruct s; reflexivity|].
  destruct s as [|d s]; [discriminate|].
  destruct (Ascii.eqb_spec c d) as [->|Hne]; [|discriminate].
  intros H. cbn [String.prefix].
  destruct (ascii_dec d d) as [_|Hd]; [|contradiction].
  apply (IH _ _ _ H).
Qed.


(** *** The search for the spec id in any text *)



(** *** The tuples of any text *)










(** The conditions on the text around the tuples are needed.  With the
    name "old register(62) build" the search for the id stops in the
    title line, and the import raises for a spell that Mage/Arcane does
    not have; with a tuple in the description the import adds a third
    entry, in front of the two of the table. *)
Lemma registration_conditions_are_needed :
  from_soe Samples.clock
    (to_soe_format
       (set_metadata (RotationMetadata.set_name "old register(62) build")
          (holy_pair "Heal" "true" "Renew" "true")))
  = Raise (ValueError
             "Error parsing SOE Engine code: Spell Heal not found for Mage/Arcane")
  /\ exists r',
       from_soe Samples.clock
         (to_soe_format
            (set_metadata
               (RotationMetadata.set_description (tuple "Smite" "true"))
               (holy_pair "Heal" "true" "Renew" "true")))
       = Return r'
       /\ map summary (spells r')
          = [("Smite", "true", 1); ("Heal", "true", 2); ("Renew", "true", 3)].
Proof.
  split; [vm_compute; reflexivity|].
  eexists. split; [vm_compute; reflexivity | reflexivity].
Qed.


End SoeImport.

(** * Further properties *)

Section Catalog.
Import spell_data Rotation.

(** Case analysis on the comparisons of a symbolic key with the keys of a
    table. *)
Ltac split_keys :=
  repeat match goal with
         | H : context [String.eqb ?a ?b] |- _ =>
             destruct (String.eqb_spec a b); [subst|]; cbn [dict_get] in H
         | |- context [String.eqb ?a ?b] =>
             destruct (String.eqb_spec a b); [subst|]; cbn [dict_get]
         end.

Ltac split_ids :=
  repeat match goal with
         | H : context [Z.eqb ?a ?b] |- _ =>
             destruct (Z.eqb_spec a b); [subst|]; cbn [find_spec find_spec_in] in H
         end.

(** X1.  The search of the importers for the class and spec of an id is the
    inverse of [get_spec_id]: no id stands for two specs, and no class
    or spec of the table has an empty name. *)
Theorem spec_id_lookup_inverse (c s : string) (id : Z) :
  get_spec_id c s = Some id <-> class_and_spec id = Return (c, s).
Proof.
  split.
  - unfold get_spec_id, SPEC_IDS. cbn [dict_get]. intros H.
    split_keys; try discriminate H;
      injection H as <-; reflexivity.
  - unfold class_and_spec, SPEC_IDS. cbn [find_spec find_spec_in]. intros H.
    split_ids; try discriminate H;
      cbn in H; injection H as <- <-; reflexivity.
Qed.

Lemma spec_id_lookup_inverse_witness :
  class_and_spec 257 = Return ("Priest", "Holy").
Proof. apply (proj1 (spec_id_lookup_inverse "Priest" "Holy" 257)). reflexivity. Defined.

Lemma insert_sorted_not_nil (x : string) (l : list string) : Str.insert_sorted x l <> [].
Proof. destruct l as [|y l]; simpl; [|destruct (Str.leb x y)]; discriminate. Qed.

Lemma sorted_not_nil (l : list string) : l <> [] -> Str.sorted l <> [].
Proof.
  destruct l as [|x l]; [contradiction|]. intros _. apply insert_sorted_not_nil.
Qed.

(** X2.  The two tables of the catalog have the same keys: a class and spec
    has an id exactly when it has spells. *)
Theorem spec_known_iff_spells (c s : string) :
  get_spec_id c s <> None <-> get_spells_for_spec c s <> [].
Proof.
  unfold get_spec_id, get_spells_for_spec, SPEC_IDS, SPELL_DATA. cbn [dict_get].
  split_keys;
    (split; intros H; try (exfalso; apply H; reflexivity);
     try discriminate; try (apply sorted_not_nil; discriminate)).
Qed.

Lemma spec_known_iff_spells_witness :
  get_spells_for_spec "Monk" "Mistweaver" <> [].
Proof.
  apply (proj1 (spec_known_iff_spells "Monk" "Mistweaver")). discriminate.
Defined.

End Catalog.

Section Whitespace.
Import ConditionValidator.

Lemma lstrip_spaces (s : string) :
  Str.all_chars Str.isspace s = true -> Str.lstrip s = EmptyString.
Proof.
  induction s as [|c s IH]; [reflexivity|]. cbn [Str.all_chars Str.lstrip].
  intros H. apply andb_prop in H as [Hc Hs]. rewrite Hc. apply IH. exact Hs.
Qed.

Lemma strip_spaces (s : string) :
  Str.all_chars Str.isspace s = true -> Str.strip s = EmptyString.
Proof. intros H. unfold Str.strip. rewrite (lstrip_spaces s H). reflexivity. Qed.

(** X3.  The empty condition is valid, but a condition made of white space
    only is not: it is stripped to the empty string after the test for
    the empty string, and then has no [category.subcategory]. *)
Theorem blank_condition_rejected (s : string) :
  s <> EmptyString -> Str.all_chars Str.isspace s = true ->
  validate_condition s = Return (false, "Invalid condition components")
  /\ validate_condition EmptyString = Return (true, "").
Proof.
  intros Hne Hsp. split; [|reflexivity].
  unfold validate_condition, validate_condition_with, validate_body.
  rewrite (strip_spaces s Hsp).
  destruct (String.eqb_spec s "") as [E|_]; [contradiction|]. reflexivity.
Qed.

Lemma blank_condition_rejected_witness :
  validate_condition "  " = Return (false, "Invalid condition components")
  /\ validate_condition EmptyString = Return (true, "").
Proof. apply (blank_condition_rejected "  "); [discriminate | reflexivity]. Defined.

(** *** [strip] is idempotent *)

Lemma rev_acc_app (s acc : string) : Str.rev_acc s acc = Str.rev s ++ acc.
Proof.
  unfold Str.rev. revert acc. induction s as [|c s IH]; intros acc; simpl; [reflexivity|].
  rewrite (IH (String c EmptyString)), IH, append_assoc. reflexivity.
Qed.

Lemma rev_cons (c : ascii) (s : string) :
  Str.rev (String c s) = Str.rev s ++ String c EmptyString.
Proof. unfold Str.rev at 1. simpl. apply rev_acc_app. Qed.

Lemma rev_app (a b : string) : Str.rev (a ++ b) = Str.rev b ++ Str.rev a.
Proof.
  induction a as [|c a IH]; simpl.
  - rewrite string_app_nil. reflexivity.
  - rewrite !rev_cons, IH, append_assoc. reflexivity.
Qed.

Lemma rev_involutive (s : string) : Str.rev (Str.rev s) = s.
Proof.
  induction s as [|c s IH]; [reflexivity|].
  rewrite rev_cons, rev_app, IH. reflexivity.
Qed.

Lemma lstrip_trimmed (s : string) : trimmed_left (Str.lstrip s) = true.
Proof.
  induction s as [|c s IH]; [reflexivity|]. cbn [Str.lstrip].
  destruct (Str.isspace c) eqn:E; [exact IH|]. simpl. rewrite E. reflexivity.
Qed.

Lemma lstrip_of_trimmed (s : string) : trimmed_left s = true -> Str.lstrip s = s.
Proof.
  destruct s as [|c s]; [reflexivity|]. simpl. intros H.
  destruct (Str.isspace c); [discriminate H | reflexivity].
Qed.

Lemma trimmed_app (a b : string) :
  a <> EmptyString -> trimmed_left (a ++ b) = trimmed_left a.
Proof. destruct a; [contradiction | reflexivity]. Qed.

Lemma rev_empty (s : string) : Str.rev s = EmptyString -> s = EmptyString.
Proof.
  intros H. rewrite <- (rev_involutive s), H. reflexivity.
Qed.

(** Stripping on the left keeps the last character. *)
Lemma lstrip_keeps_end (s : string) :
  trimmed_left (Str.rev s) = true -> trimmed_left (Str.rev (Str.lstrip s)) = true.
Proof.
  induction s as [|c s IH]; [reflexivity|]. cbn [Str.lstrip].
  destruct (Str.isspace c) eqn:E; [|intros H; exact H].
  rewrite rev_cons. intros H. apply IH.
  destruct (Str.rev s) as [|d r] eqn:R; [reflexivity|]. exact H.
Qed.

Lemma strip_idempotent (s : string) : Str.strip (Str.strip s) = Str.strip s.
Proof.
  unfold Str.strip.
  set (t := Str.lstrip (Str.rev (Str.lstrip s))).
  assert (Ht : trimmed_left t = true) by apply lstrip_trimmed.
  assert (Hr : trimmed_left (Str.rev t) = true).
  { apply lstrip_keeps_end. rewrite rev_involutive. apply lstrip_trimmed. }
  rewrite (lstrip_of_trimmed _ Hr), rev_involutive, (lstrip_of_trimmed _ Ht).
  reflexivity.
Qed.

(** X4.  White space around a condition does not count, as long as something
    is left of it. *)
Theorem surrounding_space_ignored (s : string) :
  Str.strip s <> EmptyString ->
  validate_condition s = validate_condition (Str.strip s).
Proof.
  intros Hne. unfold validate_condition, validate_condition_with, validate_body.
  rewrite strip_idempotent.
  destruct (String.eqb_spec (Str.strip s) "") as [E|_]; [contradiction|].
  destruct (String.eqb_spec s "") as [->|_]; [exfalso; apply Hne; reflexivity|].
  reflexivity.
Qed.

Lemma surrounding_space_ignored_witness :
  validate_condition "  player.moving " = validate_condition (Str.strip "  player.moving ").
Proof. apply surrounding_space_ignored. discriminate. Defined.

End Whitespace.

Section Parentheses.
Import ConditionValidator Parens.

Lemma take_nil (n : nat) : Str.take n EmptyString = EmptyString.
Proof. destruct n; reflexivity. Qed.

Lemma parentheses_loop_spec (s : string) :
  forall stack,
    parentheses_loop stack s = true
    <-> ((List.length stack + count "(" s = count ")" s)%nat
         /\ forall n, (count ")" (Str.take n s)
                       <= List.length stack + count "(" (Str.take n s))%nat).
Proof.
  induction s as [|c s IH]; intros stack.
  - cbn [parentheses_loop count]. rewrite Nat.eqb_eq. split.
    + intros H. split; [lia|]. intros n. rewrite take_nil. simpl. lia.
    + intros [H _]. lia.
  - cbn [parentheses_loop count].
    destruct (Ascii.eqb_spec c "(") as [->|Hopen].
    + rewrite IH. cbn [List.length Ascii.eqb Bool.eqb]. split.
      * intros [H1 H2]. split; [lia|]. intros [|n]; [simpl; lia|].
        specialize (H2 n). cbn [Str.take count Ascii.eqb Bool.eqb]. lia.
      * intros [H1 H2]. split; [lia|]. intros n. specialize (H2 (S n)).
        cbn [Str.take count Ascii.eqb Bool.eqb] in H2. lia.
    + destruct (Ascii.eqb_spec c ")") as [->|Hclose].
      * destruct stack as [|x stack].
        -- split; [discriminate|]. intros [_ H2]. specialize (H2 1%nat).
           cbn in H2. lia.
        -- rewrite IH. cbn [List.length Ascii.eqb Bool.eqb]. split.
           ++ intros [H1 H2]. split; [lia|]. intros [|n]; [simpl; lia|].
              specialize (H2 n). cbn [Str.take count Ascii.eqb Bool.eqb]. lia.
           ++ intros [H1 H2]. split; [lia|]. intros n. specialize (H2 (S n)).
              cbn [Str.take count Ascii.eqb Bool.eqb] in H2. lia.
      * rewrite IH.
        assert (E1 : Ascii.eqb c "(" = false) by (apply Ascii.eqb_neq; exact Hopen).
        assert (E2 : Ascii.eqb c ")" = false) by (apply Ascii.eqb_neq; exact Hclose).
        rewrite ?E1, ?E2. cbn [Nat.add]. split.
        -- intros [H1 H2]. split; [lia|]. intros [|n]; [simpl; lia|].
           specialize (H2 n). cbn [Str.take count]. rewrite E1, E2. cbn [Nat.add]. lia.
        -- intros [H1 H2]. split; [lia|]. intros n. specialize (H2 (S n)).
           cbn [Str.take count] in H2. rewrite E1, E2 in H2. cbn [Nat.add] in H2. lia.
Qed.

(** X5.  The parenthesis check accepts exactly the balanced strings. *)
Theorem validate_parentheses_balanced (s : string) :
  _validate_parentheses s = true <-> balanced s.
Proof.
  unfold _validate_parentheses, balanced. rewrite parentheses_loop_spec. reflexivity.
Qed.

Lemma validate_parentheses_balanced_witness :
  _validate_parentheses "(player.buff(x))" = true.
Proof.
  apply (proj2 (validate_parentheses_balanced "(player.buff(x))")).
  split; [reflexivity|].
  intros n. do 17 (destruct n as [|n]; [cbn; lia|]). cbn. lia.
Defined.

End Parentheses.

Section SortedAlways.
Import Rotation Calls Entries.

Lemma sorted_map_monotone (f : Z -> Z) (l : list Z) :
  (forall a b, a <= b -> f a <= f b) ->
  StronglySorted Z.le l -> StronglySorted Z.le (map f l).
Proof.
  intros Hf. induction 1 as [|a l Hs IH Hall]; simpl; constructor; [exact IH|].
  rewrite Forall_map. rewrite Forall_forall in *. intros b Hb. apply Hf, Hall, Hb.
Qed.

Lemma sorted_remove_at (l : list Z) :
  forall i, StronglySorted Z.le l -> StronglySorted Z.le (PyList.remove_at i l).
Proof.
  induction l as [|a l IH]; intros i Hs; [destruct i; exact Hs|].
  apply StronglySorted_inv in Hs as [Hs Hall].
  destruct i as [|i]; simpl; [exact Hs|].
  constructor; [apply IH; exact Hs|].
  rewrite Forall_forall in *. intros b Hb. apply Hall.
  clear - Hb. revert i Hb. induction l as [|x l IHl]; intros [|i] Hb; simpl in *;
    try contradiction; auto.
  destruct Hb as [<-|Hb]; [left; reflexivity | right; eapply IHl; exact Hb].
Qed.

Lemma le_trans_Z : Relations_1.Transitive Z.le.
Proof. intros x y z; lia. Qed.

Lemma remove_spell_ascending now self p :
  ascending (spells self) -> ascending (spells (snd (remove_spell now self p))).
Proof.
  unfold ascending, remove_spell. intros Hs.
  destruct (PyList.find_index _ (spells self)) as [i|]; [|exact Hs].
  cbn [snd touch set_spells set_metadata spells]. unfold shift_down.
  rewrite (priorities_renumbered (fun q => q >? p) (fun q => q - 1)).
  rewrite priorities_remove_at.
  apply StronglySorted_Sorted, sorted_map_monotone.
  - intros a b Hab. destruct (Z.gtb_spec a p); destruct (Z.gtb_spec b p); lia.
  - apply sorted_remove_at, Sorted_StronglySorted; [exact le_trans_Z | exact Hs].
Qed.

(** X8.  Whatever the priority arguments are, in range or not, the list stays
    in ascending order of priority: [add_spell] and [move_spell] sort it
    and [remove_spell] keeps the order. *)
Theorem entries_stay_ascending :
  forall calls r r',
    ascending (spells r) -> run r calls = Some r' -> ascending (spells r').
Proof.
  induction calls as [|[now c] calls IH]; intros r r' Hs Hrun; simpl in Hrun.
  - inversion Hrun; subst. exact Hs.
  - destruct (apply now r c) as [r1|] eqn:E; [|discriminate].
    apply (IH r1 r'); [|exact Hrun]. clear IH Hrun.
    destruct c as [n c p|p|from_p to_p]; simpl in E.
    + unfold add_spell in E.
      destruct (negb (list_mem _ _)); [discriminate|].
      destruct (ConditionValidator.validate_condition c) as [[valid reason]|e];
        [|discriminate].
      destruct valid; [|discriminate]. simpl in E.
      destruct p; inversion E; subst; apply sort_by_sorted.
    + inversion E; subst. apply remove_spell_ascending. exact Hs.
    + inversion E; subst. unfold move_spell.
      destruct (from_p =? to_p); [exact Hs|].
      destruct (PyList.find_index _ (spells r)); [|exact Hs].
      apply sort_by_sorted.
Qed.

Lemma entries_stay_ascending_witness :
  exists r',
    run Samples.holy
      [ (200, AddSpell "Heal" "true" (Some 7));
        (201, AddSpell "Renew" "true" (Some (-3)));
        (202, MoveSpell 8 40);
        (203, AddSpell "Smite" "true" None);
        (204, RemoveSpell 40) ] = Some r'
    /\ priorities (spells r') = [-3; 3]
    /\ ascending (spells r').
Proof.
  eexists. split; [vm_compute; reflexivity|]. split; [reflexivity|].
  apply (entries_stay_ascending
           [ (200, AddSpell "Heal" "true" (Some 7));
             (201, AddSpell "Renew" "true" (Some (-3)));
             (202, MoveSpell 8 40);
             (203, AddSpell "Smite" "true" None);
             (204, RemoveSpell 40) ] Samples.holy).
  - constructor.
  - vm_compute. reflexivity.
Defined.

End SortedAlways.

Section Contents.
Import Rotation Calls Entries.

Lemma content_renumbered (test : Z -> bool) (move : Z -> Z) (l : list SpellEntry.t) :
  map content
    (map (fun s => if test (SpellEntry.priority s)
                   then SpellEntry.set_priority (move (SpellEntry.priority s)) s
                   else s) l)
  = map content l.
Proof.
  rewrite map_map. apply map_ext. intros s.
  destruct (test (SpellEntry.priority s)); reflexivity.
Qed.

Lemma content_update_at (i : nat) (v : Z) (l : list SpellEntry.t) :
  map content (PyList.update_at i (SpellEntry.set_priority v) l) = map content l.
Proof.
  revert i. induction l as [|s l IH]; intros [|i]; simpl; try reflexivity.
  rewrite IH. reflexivity.
Qed.

Lemma map_remove_at {A B} (f : A -> B) (l : list A) :
  forall i, map f (PyList.remove_at i l) = PyList.remove_at i (map f l).
Proof.
  induction l as [|x l IH]; intros [|i]; simpl; try reflexivity.
  rewrite IH. reflexivity.
Qed.

(** X9.  No call changes what an entry holds besides its priority:
    [move_spell] keeps the same entries, [remove_spell] takes out the one
    it finds and keeps the others in their order, and [add_spell] adds
    its entry to the ones that were there. *)
Theorem calls_keep_contents :
  (forall now self from_priority to_priority,
      Permutation
        (map content (spells (snd (move_spell now self from_priority to_priority))))
        (map content (spells self)))
  /\ (forall now self priority i,
        PyList.find_index (fun s => SpellEntry.priority s =? priority) (spells self)
        = Some i ->
        map content (spells (snd (remove_spell now self priority)))
        = PyList.remove_at i (map content (spells self)))
  /\ (forall now self spell_name condition priority spell self',
        add_spell now self spell_name condition priority = (Return spell, self') ->
        Permutation (map content (spells self'))
          ((spell_name, condition, true, "", None) :: map content (spells self))).
Proof.
  split; [|split].
  - intros now self from_p to_p. unfold move_spell.
    destruct (from_p =? to_p); [apply Permutation_refl|].
    destruct (PyList.find_index _ (spells self)); [|apply Permutation_refl].
    cbn [snd touch set_spells set_metadata spells]. unfold _sort_spells.
    eapply perm_trans; [apply Permutation_map, sort_by_perm|].
    rewrite content_update_at. unfold renumber.
    destruct (from_p <? to_p);
      [rewrite (content_renumbered
                  (fun q => (from_p <? q) && (q <=? to_p)) (fun q => q - 1))
      |rewrite (content_renumbered
                  (fun q => (to_p <=? q) && (q <? from_p)) (fun q => q + 1))];
      apply Permutation_refl.
  - intros now self priority i E. unfold remove_spell. rewrite E.
    cbn [snd touch set_spells set_metadata spells]. unfold shift_down.
    rewrite (content_renumbered (fun q => q >? priority) (fun q => q - 1)).
    apply map_remove_at.
  - intros now self n c priority spell self'. unfold add_spell.
    destruct (negb (list_mem _ _)); [discriminate|].
    destruct (ConditionValidator.validate_condition c) as [[valid reason]|e];
      [|discriminate].
    destruct valid; [|discriminate]. cbn [negb].
    destruct priority as [p|]; intros H; inversion H; subst; clear H;
      cbn [touch set_spells set_metadata spells]; unfold _sort_spells;
      (eapply perm_trans; [apply Permutation_map, sort_by_perm|]);
      rewrite map_app; cbn [map content SpellEntry.new SpellEntry.name
        SpellEntry.condition SpellEntry.enabled SpellEntry.notes SpellEntry.id].
    + unfold shift_up.
      rewrite (content_renumbered (fun q => q >=? p) (fun q => q + 1)).
      apply Permutation_sym, Permutation_cons_append.
    + apply Permutation_sym, Permutation_cons_append.
Qed.

Lemma calls_keep_contents_witness :
  map content (spells (snd (remove_spell 300 Samples.holy_heal 1)))
  = PyList.remove_at 0 (map content (spells Samples.holy_heal))
  /\ Permutation
       (map content (spells (snd (add_spell 300 Samples.holy_heal "Renew" "true" (Some 1)))))
       (("Renew", "true", true, "", None) :: map content (spells Samples.holy_heal)).
Proof.
  split.
  - apply (proj1 (proj2 calls_keep_contents) 300 Samples.holy_heal 1 0%nat). reflexivity.
  - apply (proj2 (proj2 calls_keep_contents) 300 Samples.holy_heal "Renew" "true"
             (Some 1) 0%nat). reflexivity.
Defined.

End Contents.

Section Positions.
Import Rotation Calls Entries.

(** *** Sorting a rearrangement of a strictly ascending list *)

Lemma sorted_keys_unique {A} (key : A -> Z) (l1 : list A) :
  forall l2, StronglySorted Z.le (map key l1) ->
             StronglySorted Z.lt (map key l2) ->
             Permutation l1 l2 -> l1 = l2.
Proof.
  induction l1 as [|a l1 IH]; intros l2 H1 H2 Hp.
  - apply Permutation_nil in Hp. symmetry. exact Hp.
  - destruct l2 as [|b l2].
    + apply Permutation_sym, Permutation_nil in Hp. discriminate.
    + cbn [map] in H1, H2.
      apply StronglySorted_inv in H1 as [H1 F1].
      apply StronglySorted_inv in H2 as [H2 F2].
      rewrite Forall_forall in F1, F2.
      assert (Hab : a = b).
      { assert (Ha : In a (b :: l2))
          by (apply Permutation_in with (a :: l1); [exact Hp | left; reflexivity]).
        assert (Hb : In b (a :: l1))
          by (apply Permutation_in with (b :: l2);
              [apply Permutation_sym; exact Hp | left; reflexivity]).
        destruct Ha as [Ha|Ha]; [symmetry; exact Ha|].
        destruct Hb as [Hb|Hb]; [exact Hb|].
        specialize (F2 _ (in_map key _ _ Ha)).
        specialize (F1 _ (in_map key _ _ Hb)). lia. }
      subst b. f_equal. apply IH; [exact H1 | exact H2 |].
      apply Permutation_cons_inv with a. exact Hp.
Qed.

Lemma zrange_strictly_sorted first n : StronglySorted Z.lt (zrange first n).
Proof.
  revert first. induction n as [|n IH]; intros first; simpl; constructor.
  - apply IH.
  - apply Forall_forall. intros x Hx. apply zrange_in in Hx. lia.
Qed.

(** The sort puts a list into the one order in which its keys count
    upwards. *)
Lemma sort_by_to_zrange {A} (key : A -> Z) (l l' : list A) (first : Z) :
  Permutation l l' -> map key l' = zrange first (List.length l') ->
  PyList.sort_by key l = l'.
Proof.
  intros Hp Hk. apply (sorted_keys_unique key).
  - apply Sorted_StronglySorted; [intros x y z; lia | apply sort_by_sorted].
  - rewrite Hk. apply zrange_strictly_sorted.
  - apply perm_trans with l; [apply sort_by_perm | exact Hp].
Qed.

Lemma zrange_app first n m :
  zrange first (n + m) = (zrange first n ++ zrange (first + Z.of_nat n) m)%list.
Proof.
  revert first. induction n as [|n IH]; intros first.
  - cbn [Nat.add zrange app]. f_equal. lia.
  - cbn [Nat.add zrange app]. f_equal. rewrite IH. do 2 f_equal. lia.
Qed.

Lemma app_same_length {A} (a : list A) :
  forall c b d, List.length a = List.length c -> (a ++ b = c ++ d)%list ->
                a = c /\ b = d.
Proof.
  induction a as [|x a IH]; intros [|y c] b d Hlen H; try discriminate Hlen.
  - split; [reflexivity | exact H].
  - cbn [app] in H. injection H as Hx H. injection Hlen as Hlen.
    destruct (IH _ _ _ Hlen H) as [-> ->]. subst y. split; reflexivity.
Qed.


Lemma counts_app (first : Z) (l1 l2 : list SpellEntry.t) :
  counts first (l1 ++ l2)
  <-> counts first l1 /\ counts (first + Z.of_nat (List.length l1)) l2.
Proof.
  unfold counts, priorities. rewrite map_app, length_app, zrange_app. split.
  - intros H. apply app_same_length in H; [exact H|].
    rewrite length_map, zrange_length. reflexivity.
  - intros [-> ->]. reflexivity.
Qed.

Lemma counts_in (first : Z) (l : list SpellEntry.t) (s : SpellEntry.t) :
  counts first l -> In s l ->
  first <= SpellEntry.priority s < first + Z.of_nat (List.length l).
Proof.
  intros H Hs. apply (in_map SpellEntry.priority) in Hs.
  unfold counts, priorities in H. rewrite H in Hs. apply zrange_in in Hs. exact Hs.
Qed.

Lemma counts_cons (first : Z) (s : SpellEntry.t) (l : list SpellEntry.t) :
  counts first (s :: l) <-> SpellEntry.priority s = first /\ counts (first + 1) l.
Proof.
  unfold counts. cbn [priorities map List.length zrange]. split.
  - intros H. injection H as H1 H2. split; assumption.
  - intros [-> H]. unfold priorities in H. rewrite H. reflexivity.
Qed.


Lemma map_where {A} (f g : A -> A) (l : list A) :
  (forall x, In x l -> f x = g x) -> map f l = map g l.
Proof. intros H. apply map_ext_in. exact H. Qed.

Lemma map_kept {A} (f : A -> A) (l : list A) :
  (forall x, In x l -> f x = x) -> map f l = l.
Proof. intros H. rewrite <- (map_id l) at 2. apply map_ext_in. exact H. Qed.

Lemma counts_up (first : Z) (l : list SpellEntry.t) :
  counts first l -> counts (first + 1) (map up l).
Proof.
  revert first. induction l as [|s l IH]; intros first H; [reflexivity|].
  apply counts_cons in H as [Hs H]. cbn [map]. apply counts_cons. split.
  - unfold up. cbn [SpellEntry.priority SpellEntry.set_priority]. lia.
  - apply IH. exact H.
Qed.

Lemma counts_down (first : Z) (l : list SpellEntry.t) :
  counts first l -> counts (first - 1) (map down l).
Proof.
  revert first. induction l as [|s l IH]; intros first H; [reflexivity|].
  apply counts_cons in H as [Hs H]. cbn [map]. apply counts_cons. split.
  - unfold down. cbn [SpellEntry.priority SpellEntry.set_priority]. lia.
  - replace (first - 1 + 1) with (first + 1 - 1) by lia. apply IH. exact H.
Qed.

Lemma down_up (l : list SpellEntry.t) : map down (map up l) = l.
Proof.
  rewrite map_map. apply map_kept. intros [n c p e o i] _.
  unfold down, up, SpellEntry.set_priority.
  cbn [SpellEntry.priority SpellEntry.name SpellEntry.condition
       SpellEntry.enabled SpellEntry.notes SpellEntry.id].
  f_equal. lia.
Qed.

Lemma up_down (l : list SpellEntry.t) : map up (map down l) = l.
Proof.
  rewrite map_map. apply map_kept. intros [n c p e o i] _.
  unfold down, up, SpellEntry.set_priority.
  cbn [SpellEntry.priority SpellEntry.name SpellEntry.condition
       SpellEntry.enabled SpellEntry.notes SpellEntry.id].
  f_equal. lia.
Qed.

Lemma find_index_app {A} (test : A -> bool) (l1 : list A) (x : A) (l2 : list A) :
  (forall y, In y l1 -> test y = false) -> test x = true ->
  PyList.find_index test (l1 ++ x :: l2) = Some (List.length l1).
Proof.
  intros H Hx. induction l1 as [|y l1 IH]; cbn [app PyList.find_index List.length].
  - rewrite Hx. reflexivity.
  - rewrite (H y (or_introl eq_refl)), IH; [reflexivity|].
    intros z Hz. apply H. right. exact Hz.
Qed.

Lemma remove_at_app {A} (l1 : list A) (x : A) (l2 : list A) :
  PyList.remove_at (List.length l1) (l1 ++ x :: l2) = (l1 ++ l2)%list.
Proof. induction l1 as [|y l1 IH]; simpl; [|rewrite IH]; reflexivity. Qed.

Lemma update_at_app {A} (f : A -> A) (l1 : list A) (x : A) (l2 : list A) :
  PyList.update_at (List.length l1) f (l1 ++ x :: l2) = (l1 ++ f x :: l2)%list.
Proof. induction l1 as [|y l1 IH]; simpl; [|rewrite IH]; reflexivity. Qed.

Lemma combine_seq_app {A} (l1 l2 : list A) :
  forall start,
    combine (seq start (List.length (l1 ++ l2))) (l1 ++ l2)
    = (combine (seq start (List.length l1)) l1
       ++ combine (seq (start + List.length l1) (List.length l2)) l2)%list.
Proof.
  induction l1 as [|x l1 IH]; intros start.
  - cbn [app List.length seq combine]. rewrite Nat.add_0_r. reflexivity.
  - cbn [app List.length seq combine]. rewrite IH.
    replace (start + S (List.length l1))%nat with (S start + List.length l1)%nat
      by lia.
    reflexivity.
Qed.

Lemma tags_in {A} (l : list A) :
  forall start p, In p (combine (seq start (List.length l)) l) ->
                  (start <= fst p < start + List.length l)%nat.
Proof.
  induction l as [|x l IH]; intros start p Hp; [destruct Hp|].
  cbn [List.length seq combine] in Hp. destruct Hp as [<-|Hp].
  - cbn. lia.
  - apply IH in Hp. cbn [List.length]. lia.
Qed.

(** Where the object appended to a list stands after the sort, when the
    sorted list is [l1 ++ x :: l2]. *)
Lemma index_after_sort_appended {A} (key : A -> Z) (l1 l2 : list A) (x : A) (first : Z) :
  map key (l1 ++ x :: l2) = zrange first (List.length (l1 ++ x :: l2)) ->
  PyList.index_after_sort key ((l1 ++ l2) ++ [x]) (List.length (l1 ++ l2))
  = List.length l1.
Proof.
  intros Hk. unfold PyList.index_after_sort.
  rewrite (sort_by_to_zrange (fun p : nat * A => key (snd p)) _
             (combine (seq 0 (List.length l1)) l1
              ++ (List.length (l1 ++ l2), x)
                 :: combine (seq (List.length l1) (List.length l2)) l2) first).
  - rewrite find_index_app;
      [rewrite length_combine, length_seq, Nat.min_id; reflexivity
      | | apply Nat.eqb_refl].
    intros p Hp. apply tags_in in Hp. apply Nat.eqb_neq.
    rewrite length_app. lia.
  - rewrite combine_seq_app, combine_seq_app. cbn [List.length seq combine].
    rewrite Nat.add_0_l, <- app_assoc.
    apply Permutation_app_head. rewrite Nat.add_0_l.
    apply Permutation_sym, Permutation_cons_append.
  - rewrite map_app. cbn [map snd].
    rewrite (keys_of_tagged key l1 0), (keys_of_tagged key l2 (List.length l1)).
    rewrite !length_app. cbn [List.length].
    rewrite !length_combine, !length_seq, !Nat.min_id.
    rewrite map_app, length_app in Hk. exact Hk.
Qed.

(** *** [add_spell] *)

Lemma shift_up_split (first : Z) (before after : list SpellEntry.t) :
  counts first (before ++ after) ->
  shift_up (first + Z.of_nat (List.length before)) (before ++ after)
  = (before ++ map up after)%list.
Proof.
  intros H. apply counts_app in H as [Hb Ha].
  unfold shift_up. rewrite map_app. f_equal.
  - apply map_kept. intros s Hs. apply (counts_in _ _ _ Hb) in Hs.
    destruct (Z.geb_spec (SpellEntry.priority s)
                (first + Z.of_nat (List.length before))); [lia | reflexivity].
  - apply map_where. intros s Hs. apply (counts_in _ _ _ Ha) in Hs.
    destruct (Z.geb_spec (SpellEntry.priority s)
                (first + Z.of_nat (List.length before))); [reflexivity | lia].
Qed.

Lemma counts_inserted (first : Z) (before after : list SpellEntry.t) (x : SpellEntry.t) :
  counts first (before ++ after) ->
  SpellEntry.priority x = first + Z.of_nat (List.length before) ->
  counts first (before ++ x :: map up after).
Proof.
  intros H Hx. apply counts_app in H as [Hb Ha]. apply counts_app.
  split; [exact Hb|]. apply counts_cons. split; [exact Hx|].
  apply counts_up. exact Ha.
Qed.

(** [add_spell] with the priority of the place between [before] and
    [after]. *)
Lemma add_spell_at now self spell_name condition
      (before after : list SpellEntry.t) :
  spells self = (before ++ after)%list ->
  dense (spells self) ->
  list_mem spell_name
    (spell_data.get_spells_for_spec
       (RotationMetadata.class_name (metadata self))
       (RotationMetadata.spec_name (metadata self))) = true ->
  ConditionValidator.validate_condition condition = Return (true, "") ->
  add_spell now self spell_name condition
    (Some (Z.of_nat (List.length before) + 1))
  = (Return (List.length before),
     touch now
       (set_spells
          (before
           ++ SpellEntry.new spell_name condition (Z.of_nat (List.length before) + 1)
              :: map up after)
          self)).
Proof.
  intros Hl Hd Hn Hc. rewrite (add_spell_returns _ _ _ _ _ Hn Hc).
  rewrite Hl in *.
  replace (Z.of_nat (List.length before) + 1)
    with (1 + Z.of_nat (List.length before)) by lia.
  rewrite (shift_up_split 1 before after Hd).
  pose proof (counts_inserted 1 before after
                (SpellEntry.new spell_name condition
                   (1 + Z.of_nat (List.length before))) Hd eq_refl) as Hk.
  f_equal.
  - f_equal. apply (index_after_sort_appended _ _ _ _ 1). exact Hk.
  - do 2 f_equal. unfold _sort_spells.
    apply (sort_by_to_zrange _ _ _ 1); [|exact Hk].
    rewrite <- app_assoc. apply Permutation_app_head.
    apply Permutation_sym, Permutation_cons_append.
Qed.

Lemma split_at_priority (l : list SpellEntry.t) (priority : Z) :
  1 <= priority <= Z.of_nat (List.length l) + 1 ->
  let k := Z.to_nat (priority - 1) in
  l = (firstn k l ++ skipn k l)%list
  /\ Z.of_nat (List.length (firstn k l)) + 1 = priority.
Proof.
  intros Hp k. split; [symmetry; apply firstn_skipn|].
  rewrite firstn_length_le by lia. lia.
Qed.

(** X10.  On a rotation whose priorities are 1 to N, [add_spell] with an
    explicit priority p from 1 to N+1 puts the new entry at place p: the
    p-1 entries before it stay as they are, the entries from p on follow
    it with their priorities raised by one, and the entry the method
    returns is the one at index p-1. *)
Theorem add_spell_inserts now self spell_name condition (priority : Z) :
  dense (spells self) ->
  1 <= priority <= Z.of_nat (List.length (spells self)) + 1 ->
  list_mem spell_name
    (spell_data.get_spells_for_spec
       (RotationMetadata.class_name (metadata self))
       (RotationMetadata.spec_name (metadata self))) = true ->
  ConditionValidator.validate_condition condition = Return (true, "") ->
  let k := Z.to_nat (priority - 1) in
  add_spell now self spell_name condition (Some priority)
  = (Return k,
     touch now
       (set_spells
          (firstn k (spells self)
           ++ SpellEntry.new spell_name condition priority
              :: map up (skipn k (spells self)))
          self)).
Proof.
  intros Hd Hp Hn Hc k.
  destruct (split_at_priority (spells self) priority Hp) as [Hl Hk].
  fold k in Hl, Hk.
  pose proof (add_spell_at now self spell_name condition _ _ Hl Hd Hn Hc) as Ha.
  rewrite Hk in Ha. rewrite Ha. do 2 f_equal.
  apply firstn_length_le. lia.
Qed.

Lemma add_spell_inserts_witness :
  add_spell 300 Samples.holy_heal "Renew" "true" (Some 1)
  = (Return 0%nat,
     touch 300
       (set_spells
          (SpellEntry.new "Renew" "true" 1 :: map up (spells Samples.holy_heal))
          Samples.holy_heal)).
Proof.
  apply (add_spell_inserts 300 Samples.holy_heal "Renew" "true" 1);
    [reflexivity | cbn; lia | reflexivity | reflexivity].
Defined.

(** *** [add_spell], then [remove_spell] *)

Lemma shift_down_split (first : Z) (before after : list SpellEntry.t) :
  counts first (before ++ after) ->
  shift_down (first + Z.of_nat (List.length before)) (before ++ map up after)
  = (before ++ after)%list.
Proof.
  intros H. apply counts_app in H as [Hb Ha].
  unfold shift_down. rewrite map_app. f_equal.
  - apply map_kept. intros s Hs. apply (counts_in _ _ _ Hb) in Hs.
    destruct (Z.gtb_spec (SpellEntry.priority s)
                (first + Z.of_nat (List.length before))); [lia | reflexivity].
  - rewrite <- (down_up after) at 2. apply map_where. intros s Hs.
    apply (counts_in _ _ _ (counts_up _ _ Ha)) in Hs.
    rewrite length_map in Hs.
    destruct (Z.gtb_spec (SpellEntry.priority s)
                (first + Z.of_nat (List.length before))); [reflexivity | lia].
Qed.

(** X11.  On a rotation whose priorities are 1 to N, removing the entry that
    [add_spell] has just put at priority p, with p from 1 to N+1, gives
    back the list of entries as it was. *)
Theorem add_then_remove_restores now now' self spell_name condition (priority : Z) :
  dense (spells self) ->
  1 <= priority <= Z.of_nat (List.length (spells self)) + 1 ->
  list_mem spell_name
    (spell_data.get_spells_for_spec
       (RotationMetadata.class_name (metadata self))
       (RotationMetadata.spec_name (metadata self))) = true ->
  ConditionValidator.validate_condition condition = Return (true, "") ->
  let added := snd (add_spell now self spell_name condition (Some priority)) in
  fst (remove_spell now' added priority) = true
  /\ spells (snd (remove_spell now' added priority)) = spells self.
Proof.
  intros Hd Hp Hn Hc.
  set (k := Z.to_nat (priority - 1)).
  assert (Hl : spells self = (firstn k (spells self) ++ skipn k (spells self))%list)
    by (symmetry; apply firstn_skipn).
  assert (Hk : List.length (firstn k (spells self)) = k)
    by (apply firstn_length_le; lia).
  pose proof (add_spell_at now self spell_name condition _ _ Hl Hd Hn Hc) as Ha.
  rewrite Hk in Ha.
  replace (Z.of_nat k + 1) with priority in Ha by lia.
  intros added. unfold added. rewrite Ha.
  cbn [snd]. unfold remove_spell.
  cbn [touch set_spells set_metadata spells].
  rewrite find_index_app.
  - cbn [fst snd touch set_spells set_metadata spells]. split; [reflexivity|].
    rewrite remove_at_app.
    rewrite Hl in Hd.
    replace priority with (1 + Z.of_nat (List.length (firstn k (spells self))))
      by lia.
    rewrite (shift_down_split 1 _ _ Hd). symmetry. exact Hl.
  - intros s Hs. rewrite Hl in Hd. apply counts_app in Hd as [Hb _].
    apply (counts_in _ _ _ Hb) in Hs. apply Z.eqb_neq. lia.
  - apply Z.eqb_refl.
Qed.

Lemma add_then_remove_restores_witness :
  fst (remove_spell 301
         (snd (add_spell 300 Samples.holy_heal "Renew" "true" (Some 1))) 1) = true
  /\ spells (snd (remove_spell 301
                    (snd (add_spell 300 Samples.holy_heal "Renew" "true" (Some 1))) 1))
     = spells Samples.holy_heal.
Proof.
  apply (add_then_remove_restores 300 301 Samples.holy_heal "Renew" "true" 1);
    [reflexivity | cbn; lia | reflexivity | reflexivity].
Defined.

End Positions.

Section Moves.
Import Rotation Calls Entries.

Lemma counts_at (first first' : Z) (l : list SpellEntry.t) :
  counts first l -> first = first' -> counts first' l.
Proof. intros H <-. exact H. Qed.

Lemma set_own_priority (s : SpellEntry.t) :
  SpellEntry.set_priority (SpellEntry.priority s) s = s.
Proof. destruct s. reflexivity. Qed.

Lemma renumber_down (a b : list SpellEntry.t) (x : SpellEntry.t) (c : list SpellEntry.t) :
  b <> [] ->
  counts 1 (a ++ x :: b ++ c) ->
  renumber (Z.of_nat (List.length a) + 1)
    (Z.of_nat (List.length a) + Z.of_nat (List.length b) + 1) (a ++ x :: b ++ c)
  = (a ++ x :: map down b ++ c)%list.
Proof.
  intros Hne H. apply counts_app in H as [Ha H]. apply counts_cons in H as [Hx H].
  apply counts_app in H as [Hb Hc].
  assert (Hlen : (0 < List.length b)%nat) by (destruct b; [contradiction | cbn; lia]).
  unfold renumber.
  destruct (Z.ltb_spec (Z.of_nat (List.length a) + 1)
              (Z.of_nat (List.length a) + Z.of_nat (List.length b) + 1)); [|lia].
  rewrite map_app. cbn [map]. rewrite map_app. f_equal; [|f_equal; [|f_equal]].
  - apply map_kept. intros s Hs. apply (counts_in _ _ _ Ha) in Hs.
    destruct (Z.ltb_spec (Z.of_nat (List.length a) + 1) (SpellEntry.priority s));
      [lia | reflexivity].
  - destruct (Z.ltb_spec (Z.of_nat (List.length a) + 1) (SpellEntry.priority x));
      [lia | reflexivity].
  - apply map_where. intros s Hs. apply (counts_in _ _ _ Hb) in Hs.
    destruct (Z.ltb_spec (Z.of_nat (List.length a) + 1) (SpellEntry.priority s));
      [|lia].
    destruct (Z.leb_spec (SpellEntry.priority s)
                (Z.of_nat (List.length a) + Z.of_nat (List.length b) + 1));
      [reflexivity | lia].
  - apply map_kept. intros s Hs. apply (counts_in _ _ _ Hc) in Hs.
    destruct (Z.ltb_spec (Z.of_nat (List.length a) + 1) (SpellEntry.priority s));
      [|lia].
    destruct (Z.leb_spec (SpellEntry.priority s)
                (Z.of_nat (List.length a) + Z.of_nat (List.length b) + 1));
      [lia | reflexivity].
Qed.

Lemma renumber_up (a b : list SpellEntry.t) (x : SpellEntry.t) (c : list SpellEntry.t) :
  counts 1 (a ++ b ++ x :: c) ->
  renumber (Z.of_nat (List.length a) + Z.of_nat (List.length b) + 1)
    (Z.of_nat (List.length a) + 1) (a ++ b ++ x :: c)
  = (a ++ map up b ++ x :: c)%list.
Proof.
  intros H. apply counts_app in H as [Ha H]. apply counts_app in H as [Hb H].
  apply counts_cons in H as [Hx Hc].
  unfold renumber.
  destruct (Z.ltb_spec (Z.of_nat (List.length a) + Z.of_nat (List.length b) + 1)
              (Z.of_nat (List.length a) + 1)); [lia|].
  rewrite map_app, map_app. cbn [map]. f_equal; [|f_equal; [|f_equal]].
  - apply map_kept. intros s Hs. apply (counts_in _ _ _ Ha) in Hs.
    destruct (Z.leb_spec (Z.of_nat (List.length a) + 1) (SpellEntry.priority s));
      [lia | reflexivity].
  - apply map_where. intros s Hs. apply (counts_in _ _ _ Hb) in Hs.
    destruct (Z.leb_spec (Z.of_nat (List.length a) + 1) (SpellEntry.priority s));
      [|lia].
    destruct (Z.ltb_spec (SpellEntry.priority s)
                (Z.of_nat (List.length a) + Z.of_nat (List.length b) + 1));
      [reflexivity | lia].
  - destruct (Z.leb_spec (Z.of_nat (List.length a) + 1) (SpellEntry.priority x));
      [|reflexivity].
    destruct (Z.ltb_spec (SpellEntry.priority x)
                (Z.of_nat (List.length a) + Z.of_nat (List.length b) + 1));
      [lia | reflexivity].
  - apply map_kept. intros s Hs. apply (counts_in _ _ _ Hc) in Hs.
    destruct (Z.leb_spec (Z.of_nat (List.length a) + 1) (SpellEntry.priority s));
      [|reflexivity].
    destruct (Z.ltb_spec (SpellEntry.priority s)
                (Z.of_nat (List.length a) + Z.of_nat (List.length b) + 1));
      [lia | reflexivity].
Qed.

Lemma counts_moved_down (a b : list SpellEntry.t) (x : SpellEntry.t) (c : list SpellEntry.t) :
  counts 1 (a ++ x :: b ++ c) ->
  counts 1
    (a ++ map down b
       ++ SpellEntry.set_priority
            (Z.of_nat (List.length a) + Z.of_nat (List.length b) + 1) x :: c).
Proof.
  intros H. apply counts_app in H as [Ha H]. apply counts_cons in H as [Hx H].
  apply counts_app in H as [Hb Hc].
  apply counts_app. split; [exact Ha|].
  apply counts_app. split.
  - apply (counts_at _ _ _ (counts_down _ _ Hb)). lia.
  - rewrite length_map. apply counts_cons. split.
    + cbn [SpellEntry.priority SpellEntry.set_priority]. lia.
    + apply (counts_at _ _ _ Hc). lia.
Qed.

Lemma counts_moved_up (a b : list SpellEntry.t) (x : SpellEntry.t) (c : list SpellEntry.t) :
  counts 1 (a ++ b ++ x :: c) ->
  counts 1
    (a ++ SpellEntry.set_priority (Z.of_nat (List.length a) + 1) x
       :: map up b ++ c).
Proof.
  intros H. apply counts_app in H as [Ha H]. apply counts_app in H as [Hb H].
  apply counts_cons in H as [Hx Hc].
  apply counts_app. split; [exact Ha|].
  apply counts_cons. split.
  - cbn [SpellEntry.priority SpellEntry.set_priority]. lia.
  - apply counts_app. split.
    + apply (counts_at _ _ _ (counts_up _ _ Hb)). lia.
    + rewrite length_map. apply (counts_at _ _ _ Hc). lia.
Qed.

(** Where [move_spell] puts the entries of a rotation in order. *)
Lemma move_spell_at now self (a b : list SpellEntry.t) (x : SpellEntry.t)
        (c : list SpellEntry.t) :
  dense (spells self) ->
  let near := Z.of_nat (List.length a) + 1 in
  let far := Z.of_nat (List.length a) + Z.of_nat (List.length b) + 1 in
  (spells self = (a ++ x :: b ++ c)%list ->
   spells (snd (move_spell now self near far))
   = (a ++ map down b ++ SpellEntry.set_priority far x :: c)%list)
  /\ (spells self = (a ++ b ++ x :: c)%list ->
      spells (snd (move_spell now self far near))
      = (a ++ SpellEntry.set_priority near x :: map up b ++ c)%list).
Proof.
  intros Hd near far. split; intros Hl; rewrite Hl in Hd.
  - destruct b as [|y b].
    + unfold near, far. cbn [List.length map app]. unfold move_spell.
      replace (Z.of_nat (List.length a) + Z.of_nat 0 + 1)
        with (Z.of_nat (List.length a) + 1) by lia.
      rewrite Z.eqb_refl. cbn [snd]. rewrite Hl. cbn [app]. do 2 f_equal.
      apply counts_app in Hd as [_ Hd]. apply counts_cons in Hd as [Hx _].
      rewrite <- (set_own_priority x) at 1. f_equal. lia.
    + pose proof (counts_moved_down _ _ _ _ Hd) as Hk.
      pose proof (renumber_down a (y :: b) x c ltac:(discriminate) Hd) as Hr.
      unfold move_spell.
      destruct (Z.eqb_spec near far) as [E|_];
        [unfold near, far in E; cbn [List.length] in E; lia|].
      rewrite Hl. rewrite find_index_app.
      * cbn [snd touch set_spells set_metadata spells].
        unfold near, far. rewrite Hr, update_at_app. unfold _sort_spells.
        apply (sort_by_to_zrange _ _ _ 1); [|exact Hk].
        apply Permutation_app_head.
        apply (Permutation_middle (map down (y :: b)) c).
      * intros s Hs. apply counts_app in Hd as [Ha _].
        apply (counts_in _ _ _ Ha) in Hs. apply Z.eqb_neq. unfold near. lia.
      * apply counts_app in Hd as [_ Hd]. apply counts_cons in Hd as [Hx _].
        apply Z.eqb_eq. unfold near. lia.
  - destruct b as [|y b].
    + unfold near, far. cbn [List.length map app]. unfold move_spell.
      replace (Z.of_nat (List.length a) + Z.of_nat 0 + 1)
        with (Z.of_nat (List.length a) + 1) by lia.
      rewrite Z.eqb_refl. cbn [snd]. rewrite Hl. cbn [app]. do 2 f_equal.
      apply counts_app in Hd as [_ Hd]. apply counts_cons in Hd as [Hx _].
      rewrite <- (set_own_priority x) at 1. f_equal. lia.
    + pose proof (counts_moved_up _ _ _ _ Hd) as Hk.
      pose proof (renumber_up a (y :: b) x c Hd) as Hr.
      unfold move_spell.
      destruct (Z.eqb_spec far near) as [E|_];
        [unfold near, far in E; cbn [List.length] in E; lia|].
      rewrite Hl.
      rewrite (app_assoc a (y :: b) (x :: c)). rewrite find_index_app.
      * cbn [snd touch set_spells set_metadata spells].
        unfold near, far. rewrite <- (app_assoc a (y :: b) (x :: c)).
        rewrite Hr.
        rewrite (app_assoc a (map up (y :: b)) (x :: c)).
        replace (List.length (a ++ y :: b))
          with (List.length (a ++ map up (y :: b)))
          by (rewrite !length_app, length_map; reflexivity).
        rewrite update_at_app. unfold _sort_spells.
        apply (sort_by_to_zrange _ _ _ 1); [|exact Hk].
        rewrite <- app_assoc. apply Permutation_app_head.
        apply Permutation_sym.
        apply (Permutation_middle (map up (y :: b)) c).
      * intros s Hs. rewrite app_assoc in Hd. apply counts_app in Hd as [Hab _].
        apply (counts_in _ _ _ Hab) in Hs. rewrite length_app in Hs.
        apply Z.eqb_neq. unfold far. lia.
      * apply counts_app in Hd as [_ Hd]. apply counts_app in Hd as [_ Hd].
        apply counts_cons in Hd as [Hx _]. apply Z.eqb_eq. unfold far. lia.
Qed.

(** X12.  On a rotation whose priorities are 1 to N, [move_spell] takes the
    entry out of its place and puts it at the target place: the entries
    between the two places move one place towards the old one, with
    their priorities changed by one, and all others stay where they
    are. *)
Theorem move_spell_places now self (a b : list SpellEntry.t) (x : SpellEntry.t)
        (c : list SpellEntry.t) :
  dense (spells self) ->
  let near := Z.of_nat (List.length a) + 1 in
  let far := Z.of_nat (List.length a) + Z.of_nat (List.length b) + 1 in
  (spells self = (a ++ x :: b ++ c)%list ->
   spells (snd (move_spell now self near far))
   = (a ++ map down b ++ SpellEntry.set_priority far x :: c)%list)
  /\ (spells self = (a ++ b ++ x :: c)%list ->
      spells (snd (move_spell now self far near))
      = (a ++ SpellEntry.set_priority near x :: map up b ++ c)%list).
Proof. apply move_spell_at. Qed.


Lemma move_spell_places_witness :
  spells (snd (move_spell 400 (SoeText.holy_pair "Heal" "true" "Renew" "true") 1 2))
  = [SpellEntry.new "Renew" "true" 1; SpellEntry.new "Heal" "true" 2].
Proof.
  apply (proj1 (move_spell_places 400 (SoeText.holy_pair "Heal" "true" "Renew" "true")
                  [] [SpellEntry.new "Renew" "true" 2]
                  (SpellEntry.new "Heal" "true" 1) [] eq_refl) eq_refl).
Defined.

(** *** [move_spell] there and back *)

Lemma split_at {A} (l : list A) (k : nat) :
  (k < List.length l)%nat ->
  exists a x c, l = (a ++ x :: c)%list /\ List.length a = k.
Proof.
  intros Hk. exists (firstn k l).
  destruct (skipn k l) as [|x c] eqn:E.
  - apply (f_equal (@List.length A)) in E. rewrite length_skipn in E.
    cbn [List.length] in E. lia.
  - exists x, c. split.
    + rewrite <- E. symmetry. apply firstn_skipn.
    + apply firstn_length_le. lia.
Qed.

Lemma split_before {A} (l : list A) (k m : nat) :
  (k + m < List.length l)%nat ->
  exists a x b c, l = (a ++ x :: b ++ c)%list
                  /\ List.length a = k /\ List.length b = m.
Proof.
  intros H. destruct (split_at l k ltac:(lia)) as (a & x & rest & Hl & Ha).
  assert (Hr : (m <= List.length rest)%nat).
  { apply (f_equal (@List.length A)) in Hl.
    rewrite length_app in Hl. cbn [List.length] in Hl. lia. }
  exists a, x, (firstn m rest), (skipn m rest). split; [|split].
  - rewrite firstn_skipn. exact Hl.
  - exact Ha.
  - apply firstn_length_le. exact Hr.
Qed.

Lemma split_after {A} (l : list A) (k m : nat) :
  (k + m < List.length l)%nat ->
  exists a b x c, l = (a ++ b ++ x :: c)%list
                  /\ List.length a = k /\ List.length b = m.
Proof.
  intros H. destruct (split_at l (k + m) H) as (ab & x & c & Hl & Hab).
  exists (firstn k ab), (skipn k ab), x, c. split; [|split].
  - rewrite app_assoc, firstn_skipn. exact Hl.
  - apply firstn_length_le. lia.
  - rewrite length_skipn. lia.
Qed.

Lemma set_priority_twice (v w : Z) (s : SpellEntry.t) :
  SpellEntry.set_priority v (SpellEntry.set_priority w s)
  = SpellEntry.set_priority v s.
Proof. reflexivity. Qed.

(** X13.  On a rotation whose priorities are 1 to N, moving the entry at
    priority [from_priority] to [to_priority] and then the entry at
    [to_priority] to [from_priority], both from 1 to N, gives back the
    list of entries as it was. *)
Theorem move_there_and_back now now' self (from_priority to_priority : Z) :
  dense (spells self) ->
  1 <= from_priority <= Z.of_nat (List.length (spells self)) ->
  1 <= to_priority <= Z.of_nat (List.length (spells self)) ->
  spells (snd (move_spell now'
                 (snd (move_spell now self from_priority to_priority))
                 to_priority from_priority))
  = spells self.
Proof.
  intros Hd Hf Ht.
  destruct (Z.lt_trichotomy from_priority to_priority) as [Hlt|[Heq|Hgt]].
  - destruct (split_before (spells self) (Z.to_nat (from_priority - 1))
                (Z.to_nat (to_priority - from_priority)) ltac:(lia))
      as (a & x & b & c & Hl & Ha & Hb).
    replace from_priority with (Z.of_nat (List.length a) + 1) by lia.
    replace to_priority
      with (Z.of_nat (List.length a) + Z.of_nat (List.length b) + 1) by lia.
    pose proof Hd as Hd'. rewrite Hl in Hd'.
    assert (Hx : SpellEntry.priority x = Z.of_nat (List.length a) + 1).
    { apply counts_app in Hd' as [_ Hd']. apply counts_cons in Hd' as [Hx _]. lia. }
    pose proof (proj1 (move_spell_at now self a b x c Hd) Hl) as H1.
    cbv zeta in H1.
    set (self1 := snd (move_spell now self (Z.of_nat (List.length a) + 1)
                         (Z.of_nat (List.length a) + Z.of_nat (List.length b) + 1)))
      in *.
    assert (Hd1 : dense (spells self1))
      by (rewrite H1; apply counts_moved_down; exact Hd').
    pose proof (proj2 (move_spell_at now' self1 a (map down b)
                         (SpellEntry.set_priority
                            (Z.of_nat (List.length a) + Z.of_nat (List.length b) + 1) x)
                         c Hd1) H1) as H2.
    cbv zeta in H2. rewrite length_map in H2. rewrite H2.
    rewrite set_priority_twice, up_down, <- Hx, set_own_priority.
    symmetry. exact Hl.
  - subst to_priority. unfold move_spell. rewrite Z.eqb_refl. reflexivity.
  - destruct (split_after (spells self) (Z.to_nat (to_priority - 1))
                (Z.to_nat (from_priority - to_priority)) ltac:(lia))
      as (a & b & x & c & Hl & Ha & Hb).
    replace to_priority with (Z.of_nat (List.length a) + 1) by lia.
    replace from_priority
      with (Z.of_nat (List.length a) + Z.of_nat (List.length b) + 1) by lia.
    pose proof Hd as Hd'. rewrite Hl in Hd'.
    assert (Hx : SpellEntry.priority x
                 = Z.of_nat (List.length a) + Z.of_nat (List.length b) + 1).
    { apply counts_app in Hd' as [_ Hd']. apply counts_app in Hd' as [_ Hd'].
      apply counts_cons in Hd' as [Hx _]. lia. }
    pose proof (proj2 (move_spell_at now self a b x c Hd) Hl) as H1.
    cbv zeta in H1.
    set (self1 := snd (move_spell now self
                         (Z.of_nat (List.length a) + Z.of_nat (List.length b) + 1)
                         (Z.of_nat (List.length a) + 1))) in *.
    assert (Hd1 : dense (spells self1))
      by (rewrite H1; apply counts_moved_up; exact Hd').
    pose proof (proj1 (move_spell_at now' self1 a (map up b)
                         (SpellEntry.set_priority (Z.of_nat (List.length a) + 1) x)
                         c Hd1) H1) as H2.
    cbv zeta in H2. rewrite length_map in H2. rewrite H2.
    rewrite set_priority_twice, down_up, <- Hx, set_own_priority.
    symmetry. exact Hl.
Qed.

Lemma move_there_and_back_witness :
  spells (snd (move_spell 401
                 (snd (move_spell 400
                         (SoeText.holy_pair "Heal" "true" "Renew" "true") 1 2))
                 2 1))
  = spells (SoeText.holy_pair "Heal" "true" "Renew" "true").
Proof.
  apply (move_there_and_back 400 401
           (SoeText.holy_pair "Heal" "true" "Renew" "true") 1 2);
    [reflexivity | cbn; lia | cbn; lia].
Defined.

End Moves.

Section Verdicts.
Import ConditionValidator Parens Accepted.

(** X6.  [validate_condition] returns one of five results: the [except]
    branch, with its reason "Validation error: ...", is never taken,
    because none of the four checks raises. *)
Theorem validation_reasons (condition : string) :
  exists verdict, validate_condition condition = Return verdict
                  /\ In verdict verdicts.
Proof.
  unfold validate_condition, validate_condition_with, validate_body, try_except,
    verdicts.
  destruct (_ || _); [eexists; split; [reflexivity | simpl; tauto]|].
  cbn [bind].
  destruct (_check_basic_syntax _); cbn [negb];
    [|eexists; split; [reflexivity | simpl; tauto]].
  destruct (_validate_operators _); cbn [negb];
    [|eexists; split; [reflexivity | simpl; tauto]].
  destruct (_validate_parentheses _); cbn [negb];
    [|eexists; split; [reflexivity | simpl; tauto]].
  unfold _validate_components.
  destruct (components_loop_returns
              (Re.split logical_separator (Str.strip condition))) as [[] ->];
    cbn [bind negb]; eexists; (split; [reflexivity | simpl; tauto]).
Qed.

(** X7.  A condition that [validate_condition] accepts is the empty string, or
    is "true" between white space, or, once stripped, is made of the
    allowed characters only, has no two spaces in a row and has balanced
    parentheses; and the reason that comes with the acceptance is
    empty. *)
Theorem accepted_condition_shape (condition reason : string) :
  validate_condition condition = Return (true, reason) ->
  reason = ""
  /\ (condition = ""
      \/ Str.strip condition = "true"
      \/ (Str.all_chars (fun c => Str.mem_char c valid_chars) (Str.strip condition)
          = true
          /\ Str.contains "  " (Str.strip condition) = false
          /\ balanced (Str.strip condition))).
Proof.
  unfold validate_condition, validate_condition_with, validate_body, try_except.
  destruct (String.eqb_spec condition "") as [E|_];
    [intros H; inversion H; split; [reflexivity | left; exact E]|].
  cbn [orb].
  destruct (String.eqb_spec (Str.strip condition) "true") as [E|_];
    [intros H; inversion H; split; [reflexivity | right; left; exact E]|].
  cbn [bind].
  destruct (_check_basic_syntax _) eqn:B; cbn [negb]; [|discriminate].
  destruct (_validate_operators _); cbn [negb]; [|discriminate].
  destruct (_validate_parentheses _) eqn:P; cbn [negb]; [|discriminate].
  destruct (_validate_components _) as [[]|]; cbn [bind negb]; try discriminate.
  intros H. inversion H. split; [reflexivity|]. right. right.
  unfold _check_basic_syntax in B.
  destruct (Str.contains "  " (Str.strip condition)); [discriminate B|].
  destruct (Str.all_chars _ (Str.strip condition)); [|discriminate B].
  split; [reflexivity|]. split; [reflexivity|].
  unfold _validate_parentheses in P. unfold balanced.
  apply parentheses_loop_spec in P. exact P.
Qed.

Lemma accepted_condition_shape_witness :
  "" = ""
  /\ ("player.moving" = ""
      \/ Str.strip "player.moving" = "true"
      \/ (Str.all_chars (fun c => Str.mem_char c valid_chars)
            (Str.strip "player.moving") = true
          /\ Str.contains "  " (Str.strip "player.moving") = false
          /\ balanced (Str.strip "player.moving"))).
Proof.
  apply (accepted_condition_shape "player.moving" ""). reflexivity.
Defined.

End Verdicts.

Section AcceptedEntries.
Import Rotation Calls Accepted.

Lemma accepted_reason (c reason : string) :
  ConditionValidator.validate_condition c = Return (true, reason) ->
  ConditionValidator.validate_condition c = Return (true, "").
Proof.
  intros H. rewrite H. do 2 f_equal. revert H.
  unfold ConditionValidator.validate_condition,
    ConditionValidator.validate_condition_with,
    ConditionValidator.validate_body, try_except.
  destruct (_ || _); [intros H; inversion H; reflexivity|].
  cbn [bind].
  destruct (ConditionValidator._check_basic_syntax _); cbn [negb]; [|discriminate].
  destruct (ConditionValidator._validate_operators _); cbn [negb]; [|discriminate].
  destruct (ConditionValidator._validate_parentheses _); cbn [negb]; [|discriminate].
  destruct (ConditionValidator._validate_components _) as [[]|];
    cbn [bind negb]; try discriminate.
  intros H. inversion H. reflexivity.
Qed.

Lemma entry_set_priority class_name spec_name (v : Z) (s : SpellEntry.t) :
  entry class_name spec_name s ->
  entry class_name spec_name (SpellEntry.set_priority v s).
Proof. intros H. exact H. Qed.

Lemma forall_renumbered {P : SpellEntry.t -> Prop} (test : Z -> bool) (move : Z -> Z)
      (l : list SpellEntry.t) :
  (forall v s, P s -> P (SpellEntry.set_priority v s)) ->
  Forall P l ->
  Forall P (map (fun s => if test (SpellEntry.priority s)
                          then SpellEntry.set_priority (move (SpellEntry.priority s)) s
                          else s) l).
Proof.
  intros Hset H. induction H as [|s l Hs H IH]; cbn [map]; constructor.
  - destruct (test (SpellEntry.priority s)); [apply Hset|]; exact Hs.
  - exact IH.
Qed.

Lemma forall_update_at {A} {P : A -> Prop} (f : A -> A) (l : list A) :
  forall i, (forall x, P x -> P (f x)) -> Forall P l ->
            Forall P (PyList.update_at i f l).
Proof.
  induction l as [|x l IH]; intros [|i] Hf H; cbn [PyList.update_at];
    try constructor; inversion H; subst; auto.
Qed.

Lemma forall_remove_at {A} {P : A -> Prop} (l : list A) :
  forall i, Forall P l -> Forall P (PyList.remove_at i l).
Proof.
  induction l as [|x l IH]; intros [|i] H; cbn [PyList.remove_at];
    try constructor; inversion H; subst; auto.
Qed.

Lemma forall_sorted {A} {P : A -> Prop} (key : A -> Z) (l : list A) :
  Forall P l -> Forall P (PyList.sort_by key l).
Proof.
  apply Permutation_Forall, Permutation_sym, sort_by_perm.
Qed.

Lemma add_spell_accepted now self spell_name condition priority spell self' :
  add_spell now self spell_name condition priority = (Return spell, self') ->
  Accepted.rotation self -> Accepted.rotation self'.
Proof.
  unfold add_spell, Accepted.rotation.
  destruct (list_mem _ _) eqn:Hn; cbn [negb]; [|discriminate].
  destruct (ConditionValidator.validate_condition condition)
    as [[valid reason]|e] eqn:Hc; [|discriminate].
  destruct valid; cbn [negb]; [|discriminate].
  apply accepted_reason in Hc.
  assert (Hnew : forall p,
             entry (RotationMetadata.class_name (metadata self))
                   (RotationMetadata.spec_name (metadata self))
                   (SpellEntry.new spell_name condition p))
    by (intros p; split; [exact Hn | exact Hc]).
  destruct priority as [p|]; intros H Hall; inversion H; subst; clear H;
    cbn [touch set_spells set_metadata spells metadata
         RotationMetadata.set_modified_at RotationMetadata.class_name
         RotationMetadata.spec_name];
    unfold _sort_spells; apply forall_sorted, Forall_app; split;
    try (constructor; [apply Hnew | constructor]).
  - unfold shift_up.
    apply (forall_renumbered (fun q => q >=? p) (fun q => q + 1));
      [intros v s Hs; exact Hs | exact Hall].
  - exact Hall.
Qed.

Lemma remove_spell_accepted now self priority :
  Accepted.rotation self ->
  Accepted.rotation (snd (remove_spell now self priority)).
Proof.
  unfold remove_spell, Accepted.rotation. intros Hall.
  destruct (PyList.find_index _ _); [|exact Hall].
  cbn [snd touch set_spells set_metadata spells metadata
       RotationMetadata.set_modified_at RotationMetadata.class_name
       RotationMetadata.spec_name].
  unfold shift_down.
  apply (forall_renumbered (fun q => q >? priority) (fun q => q - 1));
    [intros v s Hs; exact Hs | apply forall_remove_at; exact Hall].
Qed.

Lemma move_spell_accepted now self from_priority to_priority :
  Accepted.rotation self ->
  Accepted.rotation (snd (move_spell now self from_priority to_priority)).
Proof.
  unfold move_spell, Accepted.rotation. intros Hall.
  destruct (from_priority =? to_priority); [exact Hall|].
  destruct (PyList.find_index _ _); [|exact Hall].
  cbn [snd touch set_spells set_metadata spells metadata
       RotationMetadata.set_modified_at RotationMetadata.class_name
       RotationMetadata.spec_name].
  unfold _sort_spells. apply forall_sorted, forall_update_at;
    [intros s Hs; exact Hs|].
  unfold renumber. destruct (from_priority <? to_priority).
  - apply (forall_renumbered (fun q => (from_priority <? q) && (q <=? to_priority))
             (fun q => q - 1)); [intros v s Hs; exact Hs | exact Hall].
  - apply (forall_renumbered (fun q => (to_priority <=? q) && (q <? from_priority))
             (fun q => q + 1)); [intros v s Hs; exact Hs | exact Hall].
Qed.

Lemma setattrs_accepted class_name spec_name (kw : kwargs) (s : SpellEntry.t) :
  kw_name kw = None ->
  match kw_condition kw with
  | Some c => ConditionValidator.validate_condition c = Return (true, "")
  | None => True
  end ->
  entry class_name spec_name s -> entry class_name spec_name (setattrs kw s).
Proof.
  destruct kw as [n c p e o i]. cbn [kw_name kw_condition]. intros -> Hc [Hn Hv].
  unfold setattrs. cbn [kw_name kw_condition kw_priority kw_enabled kw_notes kw_id].
  destruct c as [c|], p as [p|], e as [e|], o as [o|], i as [i|];
    split; cbn; assumption.
Qed.

(** X14.  Every entry of a rotation keeps a name of the rotation's class and
    spec and a condition that [validate_condition] accepts: a sequence
    of [add_spell], [remove_spell] and [move_spell] calls that raises
    nothing keeps this, and so does an [update_spell] that passes no
    [name] keyword.  The [name] keyword itself is not checked: an
    [update_spell] that passes one can leave a name the class does not
    have. *)
Theorem entries_stay_accepted :
  (forall calls r r',
      Accepted.rotation r -> run r calls = Some r' -> Accepted.rotation r')
  /\ (forall now r priority kw outcome r',
        Accepted.rotation r -> kw_name kw = None ->
        update_spell now r priority kw = (Return outcome, r') ->
        Accepted.rotation r')
  /\ (let kw := mk_kwargs (Some "Fireball") None None None None None in
      Accepted.rotation Samples.holy_heal
      /\ fst (update_spell 500 Samples.holy_heal 1 kw) = Return true
      /\ ~ Accepted.rotation (snd (update_spell 500 Samples.holy_heal 1 kw))).
Proof.
  split; [|split].
  - induction calls as [|[now c] calls IH]; intros r r' Hr H.
    + inversion H; subst. exact Hr.
    + cbn [run] in H. destruct (apply now r c) as [r1|] eqn:E; [|discriminate].
      apply (IH r1 r'); [|exact H]. clear IH H.
      destruct c as [n c p|p|f t]; cbn [apply] in E.
      * destruct (add_spell now r n c p) as [[spell|e] r2] eqn:Ha; [|discriminate].
        inversion E; subst. exact (add_spell_accepted _ _ _ _ _ _ _ Ha Hr).
      * inversion E; subst. apply remove_spell_accepted. exact Hr.
      * inversion E; subst. apply move_spell_accepted. exact Hr.
  - intros now r priority kw outcome r' Hr Hname. unfold update_spell.
    destruct (PyList.find_index _ _) as [i|];
      [|intros H; inversion H; subst; exact Hr].
    destruct (kw_condition kw) as [c|] eqn:Hkc.
    + destruct (ConditionValidator.validate_condition c) as [[valid reason]|e] eqn:Hc;
        cbn [bind]; [|discriminate].
      destruct valid; cbn [negb]; [|discriminate].
      intros H. inversion H; subst. unfold Accepted.rotation.
      cbn [touch set_spells set_metadata spells metadata
           RotationMetadata.set_modified_at RotationMetadata.class_name
           RotationMetadata.spec_name].
      apply forall_update_at; [|exact Hr].
      intros s Hs. apply setattrs_accepted; [exact Hname | | exact Hs].
      rewrite Hkc. exact (accepted_reason _ _ Hc).
    + intros H. inversion H; subst. unfold Accepted.rotation.
      cbn [touch set_spells set_metadata spells metadata
           RotationMetadata.set_modified_at RotationMetadata.class_name
           RotationMetadata.spec_name].
      apply forall_update_at; [|exact Hr].
      intros s Hs. apply setattrs_accepted; [exact Hname | | exact Hs].
      rewrite Hkc. exact I.
  - cbv zeta. split; [|split].
    + constructor; [|constructor]. split; reflexivity.
    + reflexivity.
    + intros H. inversion H as [|s l [Hn _] _]; subst.
      vm_compute in Hn. discriminate Hn.
Qed.

Lemma entries_stay_accepted_witness :
  Accepted.rotation
    (snd (move_spell 202
            (snd (add_spell 201 Samples.holy_heal "Renew" "player.moving" (Some 1)))
            2 1)).
Proof.
  apply (proj1 entries_stay_accepted
           [(201, AddSpell "Renew" "player.moving" (Some 1)); (202, MoveSpell 2 1)]
           Samples.holy_heal).
  - constructor; [|constructor]. split; reflexivity.
  - reflexivity.
Defined.

End AcceptedEntries.

Section DictRoundTrip.
Import Rotation RotationDict.

Lemma spell_entries_of_dicts (l : list SpellEntry.t) :
  spell_entries (map spell_dict l) = Return l.
Proof.
  induction l as [|[n c p e o i] l IH]; [reflexivity|].
  cbn [map spell_entries]. rewrite IH.
  destruct i as [i|]; reflexivity.
Qed.

(** X15.  [from_dict] gives back the rotation that [to_dict] was called on,
    whatever its entries, its priorities and its clock readings are, as
    long as its class and spec are known; when they are not, it raises
    the [ValueError] of the constructor. *)
Theorem from_dict_to_dict (t0 t1 : timestamp) (r : Rotation.t) :
  let class_name := RotationMetadata.class_name (metadata r) in
  let spec_name := RotationMetadata.spec_name (metadata r) in
  from_dict t0 t1 (to_dict r)
  = if spec_id_missing (spell_data.get_spec_id class_name spec_name)
    then Raise (ValueError ("Invalid class/spec combination: "
                            ++ class_name ++ "/" ++ spec_name))
    else Return r.
Proof.
  destruct r as [[n c s a v d ca mo tg] l sid]. cbv zeta.
  cbn [metadata RotationMetadata.class_name RotationMetadata.spec_name].
  unfold from_dict, to_dict, init.
  cbn [Json.get dict_getitem dict_get String.eqb Ascii.eqb Bool.eqb bind
       metadata_dict metadata spells spec_id Json.as_string
       RotationMetadata.class_name RotationMetadata.spec_name].
  destruct (spec_id_missing (spell_data.get_spec_id c s)); [reflexivity|].
  cbn [bind]. unfold rotation_metadata, keywords, metadata_fields.
  cbn -[spell_entries Json.as_string_list].
  rewrite as_string_list_strings. cbn -[spell_entries].
  rewrite spell_entries_of_dicts. cbn.
  destruct sid; reflexivity.
Qed.

End DictRoundTrip.

Section Manager.
Import Rotation RotationManager.

Lemma str_int_inj (a b : Z) : Str.str_int a = Str.str_int b -> a = b.
Proof.
  unfold Str.str_int. intros H. apply DecimalZ.to_int_inj.
  assert (Hnil : forall n, Z.to_int n <> Decimal.Pos Decimal.Nil
                           /\ Z.to_int n <> Decimal.Neg Decimal.Nil).
  { intros n. split; intros E; pose proof (f_equal Z.of_int E) as E';
      rewrite DecimalZ.of_to in E'; cbn in E'; subst n; vm_compute in E;
      discriminate E. }
  apply (f_equal NilZero.int_of_string) in H.
  rewrite !NilZero.isi in H by apply Hnil.
  injection H as H. exact H.
Qed.

Lemma append_inv_head (a b c : string) : a ++ b = a ++ c -> b = c.
Proof.
  induction a as [|x a IH]; cbn [String.append]; intros H; [exact H|].
  injection H as H. apply IH. exact H.
Qed.

Lemma append_longer (a b : string) : b <> "" -> a <> a ++ b.
Proof.
  intros Hb H. apply (f_equal String.length) in H.
  rewrite length_append in H. destruct b; [contradiction | cbn in H; lia].
Qed.

Lemma candidate_inj (base : string) (i j : nat) :
  candidate base i = candidate base j -> i = j.
Proof.
  destruct i as [|i], j as [|j]; unfold candidate; intros H.
  - reflexivity.
  - apply append_longer in H; [destruct H | discriminate].
  - symmetry in H. apply append_longer in H; [destruct H | discriminate].
  - apply append_inv_head in H. cbn [String.append] in H. injection H as H.
    apply str_int_inj in H. lia.
Qed.

Lemma dict_mem_in {V} (d : list (string * V)) (k : string) :
  dict_mem d k = true -> In k (map fst d).
Proof.
  unfold dict_mem. induction d as [|[k' v] d IH]; cbn [dict_get map fst];
    [discriminate|].
  destruct (String.eqb_spec k k') as [->|_]; [left; reflexivity|].
  intros H. right. apply IH. exact H.
Qed.

Lemma candidates_nodup (base : string) (n : nat) :
  forall start, NoDup (map (candidate base) (seq start n)).
Proof.
  induction n as [|n IH]; intros start; cbn [seq map]; constructor; [|apply IH].
  intros H. apply in_map_iff in H as (j & Hj & Hin).
  apply candidate_inj in Hj. apply in_seq in Hin. lia.
Qed.

(** Among the first [length d + 1] candidates one is not a key of [d]. *)
Lemma first_free (test : nat -> bool) (m : nat) :
  (exists i, (i < m)%nat /\ test i = false
             /\ forall i', (i' < i)%nat -> test i' = true)
  \/ (forall i, (i < m)%nat -> test i = true).
Proof.
  induction m as [|m [(i & Hi & Hf & Hb)|Hall]].
  - right. intros i Hi. lia.
  - left. exists i. split; [lia|]. split; assumption.
  - destruct (test m) eqn:E.
    + right. intros i Hi. destruct (Nat.eq_dec i m) as [->|Hne];
        [exact E | apply Hall; lia].
    + left. exists m. split; [lia|]. split; [exact E|]. exact Hall.
Qed.

Lemma free_candidate {V} (d : list (string * V)) (base : string) :
  exists i, (i <= List.length d)%nat
            /\ dict_mem d (candidate base i) = false
            /\ forall i', (i' < i)%nat -> dict_mem d (candidate base i') = true.
Proof.
  destruct (first_free (fun i => dict_mem d (candidate base i)) (S (List.length d)))
    as [(i & Hi & Hf & Hb)|Hall].
  - exists i. split; [lia|]. split; assumption.
  - exfalso.
    assert (Hincl : incl (map (candidate base) (seq 0 (S (List.length d))))
                      (map fst d)).
    { intros k Hk. apply in_map_iff in Hk as (i & <- & Hin).
      apply in_seq in Hin. apply dict_mem_in, Hall. lia. }
    apply (NoDup_incl_length (candidates_nodup base _ 0)) in Hincl.
    rewrite !length_map, length_seq in Hincl. lia.
Qed.

Lemma key_loop_finds (rotations : t) (base : string) (i : nat) :
  dict_mem rotations (candidate base i) = false ->
  (forall i', (i' < i)%nat -> dict_mem rotations (candidate base i') = true) ->
  forall fuel j, (j <= i)%nat -> (i < j + fuel)%nat ->
    key_loop fuel rotations base (candidate base j) (Z.of_nat j + 1)
    = Some (candidate base i).
Proof.
  intros Hfree Hbelow. induction fuel as [|fuel IH]; intros j Hj Hi; [lia|].
  cbn [key_loop]. destruct (Nat.eq_dec j i) as [->|Hne].
  - rewrite Hfree. reflexivity.
  - rewrite Hbelow by lia.
    replace (base ++ "_" ++ Str.str_int (Z.of_nat j + 1))
      with (candidate base (S j))
      by (unfold candidate; do 3 f_equal; lia).
    replace (Z.of_nat j + 1 + 1) with (Z.of_nat (S j) + 1) by lia.
    apply IH; lia.
Qed.

(** X16.  The loop of [_generate_key] ends after at most [len(self.rotations)
    + 1] tests, and the key it returns is not a key of the manager: it
    is the base key, or the first of [base_1], [base_2], ... that is
    free. *)
Theorem generate_key_is_free (fuel : nat) (self : t) (rotation : Rotation.t) :
  (List.length self < fuel)%nat ->
  exists i,
    (i <= List.length self)%nat
    /\ _generate_key fuel self rotation = Some (candidate (base_key rotation) i)
    /\ dict_mem self (candidate (base_key rotation) i) = false
    /\ forall i', (i' < i)%nat ->
                  dict_mem self (candidate (base_key rotation) i') = true.
Proof.
  intros Hfuel.
  destruct (free_candidate self (base_key rotation)) as (i & Hi & Hfree & Hbelow).
  exists i. split; [exact Hi|]. split; [|split; assumption].
  unfold _generate_key.
  apply (key_loop_finds self (base_key rotation) i Hfree Hbelow fuel 0%nat); lia.
Qed.

Lemma generate_key_is_free_witness :
  exists i,
    (i <= 1)%nat
    /\ _generate_key 2 [("Priest Holy Rotation_Priest_Holy", Samples.holy)]
         Samples.holy_heal
       = Some (candidate (base_key Samples.holy_heal) i)
    /\ dict_mem [("Priest Holy Rotation_Priest_Holy", Samples.holy)]
         (candidate (base_key Samples.holy_heal) i) = false
    /\ forall i', (i' < i)%nat ->
                  dict_mem [("Priest Holy Rotation_Priest_Holy", Samples.holy)]
                    (candidate (base_key Samples.holy_heal) i') = true.
Proof.
  apply (generate_key_is_free 2 [("Priest Holy Rotation_Priest_Holy", Samples.holy)]
           Samples.holy_heal).
  cbn. lia.
Defined.

Lemma dict_set_new {V} (d : list (string * V)) (k : string) (v : V) :
  dict_mem d k = false -> dict_set d k v = (d ++ [(k, v)])%list.
Proof.
  unfold dict_mem. induction d as [|[k' v'] d IH]; cbn [dict_get dict_set app];
    [reflexivity|].
  destruct (String.eqb k k'); [discriminate|].
  intros H. rewrite IH by exact H. reflexivity.
Qed.

Lemma dict_get_app {V} (d : list (string * V)) (k k' : string) (v v' : V) :
  dict_get d k = Some v -> dict_get (d ++ [(k', v')])%list k = Some v.
Proof.
  induction d as [|[k0 v0] d IH]; cbn [dict_get app]; [discriminate|].
  destruct (String.eqb k k0); [intros H; exact H | exact IH].
Qed.

(** X17.  [create_rotation] with a known class and spec stores the new
    rotation under a key the manager did not have: the rotations stored
    before stay under their keys, and [get_rotations()] lists them as
    before, followed by the new one. *)
Theorem create_rotation_keeps_the_others (fuel : nat) (t0 t1 : timestamp) (self : t)
        (class_name spec_name : string) (name : option string) :
  (List.length self < fuel)%nat ->
  spec_id_missing (spell_data.get_spec_id class_name spec_name) = false ->
  exists rotation key,
    create_rotation fuel t0 t1 self class_name spec_name name
    = Some (Return (rotation, (self ++ [(key, rotation)])%list))
    /\ dict_mem self key = false
    /\ (forall k r, dict_get self k = Some r ->
                    dict_get (self ++ [(key, rotation)])%list k = Some r)
    /\ get_rotations (self ++ [(key, rotation)])%list None None
       = (get_rotations self None None ++ [rotation])%list.
Proof.
  intros Hfuel Hspec. unfold create_rotation, Rotation.init.
  cbn [spec_id]. rewrite Hspec.
  match goal with
  | |- context [_generate_key fuel self ?r] => set (rotation := r)
  end.
  destruct (free_candidate self (base_key rotation)) as (i & Hi & Hfree & Hbelow).
  assert (Hkey : _generate_key fuel self rotation
                 = Some (candidate (base_key rotation) i))
    by (apply (key_loop_finds self (base_key rotation) i Hfree Hbelow fuel 0%nat);
        lia).
  rewrite Hkey. exists rotation, (candidate (base_key rotation) i).
  rewrite (dict_set_new _ _ _ Hfree).
  split; [reflexivity|]. split; [exact Hfree|]. split.
  - intros k r Hk. apply dict_get_app. exact Hk.
  - unfold get_rotations. rewrite map_app. reflexivity.
Qed.

Lemma create_rotation_keeps_the_others_witness :
  exists rotation key,
    create_rotation 2 300 301 [("Priest Holy Rotation_Priest_Holy", Samples.holy)]
      "Priest" "Holy" None
    = Some (Return (rotation,
                    ([("Priest Holy Rotation_Priest_Holy", Samples.holy)]
                     ++ [(key, rotation)])%list))
    /\ dict_mem [("Priest Holy Rotation_Priest_Holy", Samples.holy)] key = false
    /\ (forall k r,
          dict_get [("Priest Holy Rotation_Priest_Holy", Samples.holy)] k = Some r ->
          dict_get ([("Priest Holy Rotation_Priest_Holy", Samples.holy)]
                    ++ [(key, rotation)])%list k = Some r)
    /\ get_rotations ([("Priest Holy Rotation_Priest_Holy", Samples.holy)]
                      ++ [(key, rotation)])%list None None
       = (get_rotations [("Priest Holy Rotation_Priest_Holy", Samples.holy)] None None
          ++ [rotation])%list.
Proof.
  apply (create_rotation_keeps_the_others 2 300 301
           [("Priest Holy Rotation_Priest_Holy", Samples.holy)] "Priest" "Holy" None);
    [cbn; lia | reflexivity].
Defined.

End Manager.

Section SoeFailures.
Import Rotation RotationImporter.

Lemma search_needs_literal (l : string) (r : Re.regex) (s : string) :
  Str.contains l s = false -> Re.search (Re.Seq (Re.Lit l) r) s = None.
Proof.
  assert (Hat : forall s', String.prefix l s' = false ->
                           Re.match_at (Re.Seq (Re.Lit l) r) s' = None).
  { intros s' Hp. unfold Re.match_at. cbn [Re.rmatch].
    destruct (Re.lit l s' _) as [x|] eqn:E; [|reflexivity].
    apply lit_is_prefix in E. rewrite E in Hp. discriminate Hp. }
  induction s as [|c s IH]; cbn [Str.contains Re.search].
  - destruct (String.prefix l "") eqn:E; [discriminate|].
    intros _. rewrite (Hat _ E). reflexivity.
  - destruct (String.prefix l (String c s)) eqn:E; [discriminate|].
    intros H. rewrite (Hat _ E). apply IH. exact H.
Qed.

(** X18.  [from_soe] raises nothing but a [ValueError] whose text starts with
    "Error parsing SOE Engine code: "; on a text in which "register("
    does not occur the text goes on with "Could not find spec ID in SOE
    code". *)
Theorem from_soe_failures (clk : nat -> timestamp) (content : string) :
  (forall e, from_soe clk content = Raise e ->
             exists reason,
               e = ValueError ("Error parsing SOE Engine code: " ++ reason))
  /\ (Str.contains "register(" content = false ->
      from_soe clk content
      = Raise (ValueError
                 "Error parsing SOE Engine code: Could not find spec ID in SOE code")).
Proof.
  split.
  - intros e. unfold from_soe, try_except.
    destruct (match Re.search register_pattern content with
              | Some _ => _ | None => _ end) as [r|e'];
      [discriminate|].
    intros H. inversion H. eexists. reflexivity.
  - intros H. unfold from_soe, register_pattern. cbn [Re.cat].
    rewrite (search_needs_literal _ _ _ H). reflexivity.
Qed.

Lemma from_soe_failures_witness :
  from_soe Samples.clock "-- a rotation without its table"
  = Raise (ValueError
             "Error parsing SOE Engine code: Could not find spec ID in SOE code").
Proof.
  apply (proj2 (from_soe_failures Samples.clock "-- a rotation without its table")).
  reflexivity.
Defined.

End SoeFailures.

Section RotationValidity.
Import Rotation RotationValidator.

Lemma condition_errors_returns (l : list SpellEntry.t) :
  exists errs,
    condition_errors l = Return errs
    /\ (errs = []
        <-> Forall (fun s => exists reason,
                       ConditionValidator.validate_condition (SpellEntry.condition s)
                       = Return (true, reason)) l).
Proof.
  induction l as [|s l (errs & IH & Hiff)]; cbn [condition_errors].
  - exists []. split; [reflexivity|]. split; [constructor | reflexivity].
  - destruct (validate_condition_with_returns
                (fun c => Return (ConditionValidator._check_basic_syntax c))
                (fun c => Return (ConditionValidator._validate_operators c))
                (fun c => Return (ConditionValidator._validate_parentheses c))
                ConditionValidator._validate_components (SpellEntry.condition s))
      as (valid & reason & Hv).
    change (ConditionValidator.validate_condition_with _ _ _ _ (SpellEntry.condition s))
      with (ConditionValidator.validate_condition (SpellEntry.condition s)) in Hv.
    rewrite Hv, IH. cbn [bind]. eexists. split; [reflexivity|].
    destruct valid; cbn [negb app].
    + rewrite Hiff. split.
      * intros H. constructor; [exists reason; exact Hv | exact H].
      * intros H. inversion H; assumption.
    + split; [discriminate|].
      intros H. inversion H as [|? ? [r Hr] _]; subst.
      rewrite Hv in Hr. discriminate Hr.
Qed.

Lemma list_mem_in (x : string) (l : list string) :
  list_mem x l = true <-> In x l.
Proof.
  unfold list_mem. rewrite existsb_exists. split.
  - intros (y & Hy & E). apply String.eqb_eq in E. subst y. exact Hy.
  - intros H. exists x. split; [exact H | apply String.eqb_refl].
Qed.

Lemma filter_is_nil {A} (test : A -> bool) (l : list A) :
  filter test l = [] <-> forall x, In x l -> test x = false.
Proof.
  induction l as [|y l IH]; cbn [filter].
  - split; [intros _ x [] | reflexivity].
  - destruct (test y) eqn:E.
    + split; [discriminate|]. intros H. rewrite (H y (or_introl eq_refl)) in E.
      discriminate E.
    + rewrite IH. split.
      * intros H x [<-|Hx]; [exact E | apply H; exact Hx].
      * intros H x Hx. apply H. right. exact Hx.
Qed.

Lemma length_zero_app {A} (a b : list A) :
  Nat.eqb (List.length (a ++ b)) 0 = true <-> a = [] /\ b = [].
Proof.
  rewrite Nat.eqb_eq. split.
  - intros H. apply length_zero_iff_nil in H. apply app_eq_nil in H. exact H.
  - intros [-> ->]. reflexivity.
Qed.

Lemma report_is_nil (head : string) (names : list string) :
  report head names = [] <-> names = [].
Proof. destruct names; cbn [report]; split; congruence. Qed.

(** X19.  [validate_rotation] always returns a result, and the result is valid
    exactly when every critical spell of the rotation's class and spec
    is the name of an entry and every entry has a condition that is not
    empty and that [validate_condition] accepts. *)
Theorem rotation_validity (order : list string -> list string) (r : Rotation.t) :
  exists result,
    validate_rotation order r = Return result
    /\ (is_valid result = true
        <-> (forall name,
                In name (get_list
                           (get_list CRITICAL_SPELLS
                              (RotationMetadata.class_name (metadata r)))
                           (RotationMetadata.spec_name (metadata r))) ->
                In name (map SpellEntry.name (spells r)))
            /\ Forall (fun s => SpellEntry.condition s <> ""
                                /\ exists reason,
                                     ConditionValidator.validate_condition
                                       (SpellEntry.condition s)
                                     = Return (true, reason))
                      (spells r)).
Proof.
  unfold validate_rotation. cbv zeta.
  destruct (condition_errors_returns (spells r)) as (invalid & -> & Hinvalid).
  cbn [bind]. eexists. split; [reflexivity|]. cbn [is_valid].
  set (critical := get_list _ _).
  set (missing := filter _ (nodup string_dec critical)).
  set (empty := filter _ (spells r)).
  assert (Hmissing : missing = []
                     <-> forall name, In name critical ->
                                      In name (map SpellEntry.name (spells r))).
  { unfold missing. rewrite filter_is_nil. split.
    - intros H name Hname.
      specialize (H name (proj2 (nodup_In string_dec critical name) Hname)).
      apply negb_false_iff, list_mem_in, filter_In in H. apply H.
    - intros H name Hname. apply nodup_In in Hname.
      apply negb_false_iff, list_mem_in, filter_In.
      split; [apply H; exact Hname | apply list_mem_in; exact Hname]. }
  assert (Hempty : empty = []
                   <-> Forall (fun s => SpellEntry.condition s <> "") (spells r)).
  { unfold empty. rewrite filter_is_nil, Forall_forall. split.
    - intros H s Hs Hc. specialize (H s Hs). rewrite Hc in H. discriminate H.
    - intros H s Hs. apply String.eqb_neq. apply H. exact Hs. }
  rewrite Forall_forall in Hempty, Hinvalid. rewrite Forall_forall.
  split.
  - intros H. apply length_zero_app in H as [H Hi].
    apply app_eq_nil in H as [Hm He].
    apply report_is_nil, map_eq_nil in He.
    split.
    + apply Hmissing. destruct missing; [reflexivity | discriminate Hm].
    + intros s Hs. split; [apply (proj1 Hempty He) | apply (proj1 Hinvalid Hi)];
        exact Hs.
  - intros [Hc H]. apply length_zero_app. split; [|apply Hinvalid].
    + rewrite (proj2 Hmissing Hc).
      replace empty with (@nil SpellEntry.t); [reflexivity|].
      symmetry. apply Hempty. intros s Hs. apply H. exact Hs.
    + intros s Hs. apply H. exact Hs.
Qed.

(** Case analysis on the comparisons of a symbolic key with the keys of a
    table. *)
Ltac table_keys H :=
  repeat match type of H with
         | context [String.eqb ?a ?b] =>
             destruct (String.eqb_spec a b); [subst|]; cbn [dict_get] in H
         end.

(** X20.  A rotation as its constructor leaves it is not valid, whatever its
    class and spec: it lacks the critical spells, and the two warnings
    for defensive and cooldown abilities are given. *)
Theorem fresh_rotation_is_invalid (order : list string -> list string)
        (t0 t1 : timestamp) (class_name spec_name : string) (r : Rotation.t) :
  init t0 t1 class_name spec_name = Return r ->
  exists result,
    validate_rotation order r = Return result
    /\ is_valid result = false
    /\ List.length (errors result) = 1%nat
    /\ warnings result = ["No defensive abilities in rotation";
                          "No cooldown abilities in rotation"].
Proof.
  unfold init. cbn [spec_id].
  destruct (spec_id_missing (spell_data.get_spec_id class_name spec_name)) eqn:E;
    [discriminate|].
  intros H. injection H as <-.
  unfold spell_data.get_spec_id, spell_data.SPEC_IDS in E. cbn [dict_get] in E.
  table_keys E; try discriminate E;
    (eexists; split;
     [unfold validate_rotation; cbv zeta; cbn [spells condition_errors bind];
      reflexivity
     |split; [|split]; vm_compute; reflexivity]).
Qed.

Lemma fresh_rotation_is_invalid_witness :
  exists result,
    validate_rotation (fun names => names) Samples.holy = Return result
    /\ is_valid result = false
    /\ List.length (errors result) = 1%nat
    /\ warnings result = ["No defensive abilities in rotation";
                          "No cooldown abilities in rotation"].
Proof.
  apply (fresh_rotation_is_invalid (fun names => names) 100 101 "Priest" "Holy").
  reflexivity.
Defined.

(** X21.  For every class and spec, the rotation that is made by the
    constructor and then given the critical spells of the spec, each by
    [add_spell] with the default condition and no priority, is valid:
    every critical spell is a spell of the catalog for its spec. *)
Theorem critical_rotation_is_valid (order : list string -> list string)
        (t0 t1 : timestamp) (times : string -> timestamp)
        (class_name spec_name : string) (r : Rotation.t) :
  init t0 t1 class_name spec_name = Return r ->
  exists r' result,
    Calls.run r
      (map (fun name => (times name, Calls.AddSpell name "true" None))
         (get_list (get_list CRITICAL_SPELLS class_name) spec_name))
    = Some r'
    /\ validate_rotation order r' = Return result
    /\ is_valid result = true
    /\ errors result = [].
Proof.
  unfold init. cbn [spec_id].
  destruct (spec_id_missing (spell_data.get_spec_id class_name spec_name)) eqn:E;
    [discriminate|].
  intros H. injection H as <-.
  unfold spell_data.get_spec_id, spell_data.SPEC_IDS in E. cbn [dict_get] in E.
  table_keys E; try discriminate E;
    (eexists; eexists; split; [vm_compute; reflexivity|];
     split; [vm_compute; reflexivity|]; split; reflexivity).
Qed.

Lemma critical_rotation_is_valid_witness :
  exists r' result,
    Calls.run Samples.holy
      (map (fun name => (200, Calls.AddSpell name "true" None))
         (get_list (get_list CRITICAL_SPELLS "Priest") "Holy"))
    = Some r'
    /\ validate_rotation (fun names => names) r' = Return result
    /\ is_valid result = true
    /\ errors result = [].
Proof.
  apply (critical_rotation_is_valid (fun names => names) 100 101 (fun _ => 200)
           "Priest" "Holy").
  reflexivity.
Defined.

Lemma sorted_keeps_appended (l : list SpellEntry.t) (x : SpellEntry.t) :
  In x (_sort_spells (l ++ [x])).
Proof.
  unfold _sort_spells.
  apply (Permutation_in x (Permutation_sym (sort_by_perm SpellEntry.priority _))).
  apply in_or_app. right. left. reflexivity.
Qed.

(** An entry with the empty condition is an error. *)
Lemma empty_condition_is_an_error (order : list string -> list string)
      (r : Rotation.t) (x : SpellEntry.t) :
  In x (spells r) -> SpellEntry.condition x = "" ->
  exists result, validate_rotation order r = Return result
                 /\ is_valid result = false.
Proof.
  intros Hx Hc. unfold validate_rotation. cbv zeta.
  destruct (condition_errors_returns (spells r)) as (invalid & -> & _).
  cbn [bind]. eexists. split; [reflexivity|]. cbn [is_valid].
  apply Nat.eqb_neq. intros H. apply length_zero_iff_nil in H.
  apply app_eq_nil in H as [H _]. apply app_eq_nil in H as [_ H].
  apply report_is_nil, map_eq_nil in H.
  apply (proj1 (filter_is_nil _ _) H) in Hx. rewrite Hc in Hx. discriminate Hx.
Qed.

(** X22.  The empty condition passes the check of [add_spell], which adds the
    entry, and the rotation is then not valid for [validate_rotation],
    which reports the empty condition. *)
Theorem empty_condition_accepted_then_flagged (order : list string -> list string)
        (now : timestamp) (self : Rotation.t) (spell_name : string)
        (priority : option Z) :
  list_mem spell_name
    (spell_data.get_spells_for_spec
       (RotationMetadata.class_name (metadata self))
       (RotationMetadata.spec_name (metadata self))) = true ->
  exists spell self' result,
    add_spell now self spell_name "" priority = (Return spell, self')
    /\ validate_rotation order self' = Return result
    /\ is_valid result = false.
Proof.
  intros Hn. unfold add_spell. rewrite Hn. cbn [negb].
  change (ConditionValidator.validate_condition "") with (@Return (bool * string) (true, "")).
  cbn [negb].
  pose proof (empty_condition_is_an_error order) as Hflag.
  destruct priority as [p|]; eexists; eexists.
  - destruct (Hflag
                (touch now
                   (set_spells
                      (_sort_spells (shift_up p (spells self)
                                     ++ [SpellEntry.new spell_name "" p]))
                      self))
                (SpellEntry.new spell_name "" p)) as (result & Hr & Hv);
      [apply sorted_keeps_appended | reflexivity|].
    exists result. split; [reflexivity|]. split; assumption.
  - destruct (Hflag
                (touch now
                   (set_spells
                      (_sort_spells
                         (spells self
                          ++ [SpellEntry.new spell_name ""
                                (Z.of_nat (List.length (spells self)) + 1)]))
                      self))
                (SpellEntry.new spell_name ""
                   (Z.of_nat (List.length (spells self)) + 1)))
      as (result & Hr & Hv);
      [apply sorted_keeps_appended | reflexivity|].
    exists result. split; [reflexivity|]. split; assumption.
Qed.

Lemma empty_condition_accepted_then_flagged_witness :
  exists spell self' result,
    add_spell 300 Samples.holy_heal "Renew" "" None = (Return spell, self')
    /\ validate_rotation (fun names => names) self' = Return result
    /\ is_valid result = false.
Proof.
  apply (empty_condition_accepted_then_flagged (fun names => names) 300
           Samples.holy_heal "Renew" None).
  reflexivity.
Defined.

End RotationValidity.

Section BareClauses.
Import ConditionValidator ConditionBuilder Clauses.

(** *** Characters *)

Lemma all_chars_mem (q : ascii -> bool) (s : string) (a : ascii) :
  Str.all_chars q s = true -> Str.mem_char a s = true -> q a = true.
Proof.
  induction s as [|c s IH]; cbn [Str.all_chars Str.mem_char]; [discriminate|].
  intros H Ha. apply andb_prop in H as [Hc Hs].
  apply orb_prop in Ha as [Ha|Ha]; [|apply IH; assumption].
  apply Ascii.eqb_eq in Ha. subst a. exact Hc.
Qed.

Lemma letter_is (q : ascii -> bool) (a : ascii) :
  Str.all_chars q letters = true -> letter a = true -> q a = true.
Proof. intros Hq Ha. exact (all_chars_mem q letters a Hq Ha). Qed.

Lemma all_chars_weaken (p q : ascii -> bool) (s : string) :
  (forall c, p c = true -> q c = true) ->
  Str.all_chars p s = true -> Str.all_chars q s = true.
Proof.
  intros Hpq. induction s as [|c s IH]; cbn [Str.all_chars]; [reflexivity|].
  intros H. apply andb_prop in H as [Hc Hs]. rewrite (Hpq c Hc), (IH Hs).
  reflexivity.
Qed.

(** *** [sub in s] *)

Lemma prefix_head (x : ascii) (sub : string) (a : ascii) (s : string) :
  a <> x -> String.prefix (String x sub) (String a s) = false.
Proof.
  intros H. cbn [String.prefix]. destruct (ascii_dec x a) as [E|_]; [|reflexivity].
  symmetry in E. contradiction.
Qed.

(** A run of letters holds no occurrence of a text that begins with
    another character. *)
Lemma contains_after_letters (x : ascii) (sub w t : string) :
  letter x = false -> Str.all_chars letter w = true ->
  Str.contains (String x sub) (w ++ t) = Str.contains (String x sub) t.
Proof.
  intros Hx. induction w as [|a w IH]; cbn [String.append Str.all_chars];
    [reflexivity|].
  intros H. apply andb_prop in H as [Ha Hw]. cbn [Str.contains].
  rewrite prefix_head by (intros ->; rewrite Hx in Ha; discriminate Ha).
  apply IH. exact Hw.
Qed.

(** A string without the character [x] holds no text that begins with
    [x]. *)
Lemma contains_absent (x : ascii) (sub s : string) :
  Str.all_chars (fun c => negb (Ascii.eqb c x)) s = true ->
  Str.contains (String x sub) s = false.
Proof.
  induction s as [|a s IH]; cbn [Str.all_chars Str.contains]; [reflexivity|].
  intros H. apply andb_prop in H as [Ha Hs].
  rewrite prefix_head, (IH Hs); [reflexivity|].
  intros ->. rewrite Ascii.eqb_refl in Ha. discriminate Ha.
Qed.

(** *** The text of a run of clauses *)

Lemma bare_letters (p : string) : bare p = true -> Str.all_chars letter p = true.
Proof.
  unfold bare. intros H. apply andb_prop in H as [H _].
  apply andb_prop in H as [_ H]. exact H.
Qed.

Lemma bare_starts (p t : string) : bare p = true -> starts (p ++ t) = true.
Proof.
  unfold bare. intros H. apply andb_prop in H as [H _].
  apply andb_prop in H as [Hlen Hl].
  destruct p as [|a p]; [discriminate Hlen|].
  cbn [Str.all_chars] in Hl. apply andb_prop in Hl as [Ha _]. exact Ha.
Qed.

Lemma starts_text (p : string) (rest : list (string * string)) :
  bare p = true -> starts (text p rest) = true.
Proof.
  intros H. destruct rest as [|[op q] rest]; cbn [text].
  - rewrite <- (string_app_nil p). apply bare_starts. exact H.
  - apply bare_starts. exact H.
Qed.

Lemma prefix_at_start (x : ascii) (sub u : string) :
  letter x = false -> starts u = true -> String.prefix (String x sub) u = false.
Proof.
  intros Hx Hu. destruct u as [|a u]; [discriminate Hu|].
  apply prefix_head. intros ->. cbn [starts] in Hu. rewrite Hx in Hu.
  discriminate Hu.
Qed.

Lemma logical_cases (op : string) : logical op = true -> op = "&&" \/ op = "||".
Proof.
  unfold logical, list_mem. cbn [existsb].
  destruct (String.eqb_spec op "&&") as [->|_]; [left; reflexivity|].
  destruct (String.eqb_spec op "||") as [->|_]; [right; reflexivity|].
  discriminate.
Qed.

Lemma contains_in_text (sub : string) (p : string) (rest : list (string * string)) :
  (forall u, starts u = true ->
             Str.contains sub (" && " ++ u) = Str.contains sub u
             /\ Str.contains sub (" || " ++ u) = Str.contains sub u) ->
  (exists x sub', sub = String x sub' /\ letter x = false) ->
  bare p = true -> well rest -> Str.contains sub (text p rest) = false.
Proof.
  intros Hstep (x & sub' & -> & Hx).
  revert p. induction rest as [|[op q] rest IH]; intros p Hp Hr; cbn [text].
  - rewrite <- (string_app_nil p).
    rewrite (contains_after_letters _ _ p _ Hx (bare_letters p Hp)). reflexivity.
  - inversion Hr as [|? ? [Hop Hq] Hr']; subst. cbn [fst snd] in Hop, Hq.
    rewrite (contains_after_letters _ _ p _ Hx (bare_letters p Hp)).
    destruct (Hstep _ (starts_text q rest Hq)) as [Hand Hor].
    cbn [String.append] in Hand, Hor.
    destruct (logical_cases op Hop) as [-> | ->]; cbn [String.append];
      [rewrite Hand | rewrite Hor]; apply IH; assumption.
Qed.

Lemma double_space_free (p : string) (rest : list (string * string)) :
  bare p = true -> well rest -> Str.contains "  " (text p rest) = false.
Proof.
  apply contains_in_text; [|eexists; eexists; split; reflexivity].
  intros u Hu. split; cbn; rewrite (prefix_at_start " " _ _ eq_refl Hu);
    reflexivity.
Qed.

Lemma no_four_ampersands (p : string) (rest : list (string * string)) :
  bare p = true -> well rest -> Str.contains "&&&&" (text p rest) = false.
Proof.
  apply contains_in_text; [|eexists; eexists; split; reflexivity].
  intros u Hu. split; cbn; reflexivity.
Qed.

Lemma no_four_bars (p : string) (rest : list (string * string)) :
  bare p = true -> well rest -> Str.contains "||||" (text p rest) = false.
Proof.
  apply contains_in_text; [|eexists; eexists; split; reflexivity].
  intros u Hu. split; cbn; reflexivity.
Qed.

(** The occurrences of a text in the operator between two clauses. *)
Ltac scan Hu :=
  cbn [Str.contains String.append]; repeat rewrite prefix_cons;
  rewrite ?prefix_nil; cbn [Ascii.eqb Bool.eqb];
  rewrite ?(prefix_at_start " " _ _ eq_refl Hu),
    ?(prefix_at_start "&" _ _ eq_refl Hu), ?(prefix_at_start "|" _ _ eq_refl Hu).

(** An operator occurs in the text only with a space on each side. *)
Lemma ampersands_spaced (p : string) (rest : list (string * string)) :
  bare p = true -> well rest ->
  Str.contains "&&" (text p rest) = Str.contains " && " (text p rest).
Proof.
  revert p. induction rest as [|[op q] rest IH]; intros p Hp Hr; cbn [text].
  - rewrite <- (string_app_nil p).
    rewrite (contains_after_letters "&" _ p _ eq_refl (bare_letters p Hp)).
    rewrite (contains_after_letters " " _ p _ eq_refl (bare_letters p Hp)).
    reflexivity.
  - inversion Hr as [|? ? [Hop Hq] Hr']; subst. cbn [fst snd] in Hop, Hq.
    pose proof (starts_text q rest Hq) as Hu.
    specialize (IH q Hq Hr').
    rewrite (contains_after_letters "&" _ p _ eq_refl (bare_letters p Hp)).
    rewrite (contains_after_letters " " _ p _ eq_refl (bare_letters p Hp)).
    destruct (logical_cases op Hop) as [-> | ->]; scan Hu;
      [reflexivity | exact IH].
Qed.

Lemma bars_spaced (p : string) (rest : list (string * string)) :
  bare p = true -> well rest ->
  Str.contains "||" (text p rest) = Str.contains " || " (text p rest).
Proof.
  revert p. induction rest as [|[op q] rest IH]; intros p Hp Hr; cbn [text].
  - rewrite <- (string_app_nil p).
    rewrite (contains_after_letters "|" _ p _ eq_refl (bare_letters p Hp)).
    rewrite (contains_after_letters " " _ p _ eq_refl (bare_letters p Hp)).
    reflexivity.
  - inversion Hr as [|? ? [Hop Hq] Hr']; subst. cbn [fst snd] in Hop, Hq.
    pose proof (starts_text q rest Hq) as Hu.
    specialize (IH q Hq Hr').
    rewrite (contains_after_letters "|" _ p _ eq_refl (bare_letters p Hp)).
    rewrite (contains_after_letters " " _ p _ eq_refl (bare_letters p Hp)).
    destruct (logical_cases op Hop) as [-> | ->]; scan Hu;
      [exact IH | reflexivity].
Qed.

(** *** The characters of the text *)

Lemma text_chars (q : ascii -> bool) (p : string) (rest : list (string * string)) :
  Str.all_chars q (letters ++ " &|") = true ->
  bare p = true -> well rest -> Str.all_chars q (text p rest) = true.
Proof.
  intros Hq.
  assert (Hl : forall w, Str.all_chars letter w = true -> Str.all_chars q w = true).
  { intros w. apply all_chars_weaken. intros c Hc.
    apply (all_chars_mem q (letters ++ " &|") c Hq).
    unfold letter in Hc. clear Hq.
    induction letters as [|d l IH]; [discriminate Hc|].
    cbn [Str.mem_char String.append] in *.
    destruct (Ascii.eqb c d); [reflexivity | apply IH; exact Hc]. }
  assert (Hs : q " "%char = true)
    by (apply (all_chars_mem q _ _ Hq); reflexivity).
  assert (Ha : q "&"%char = true)
    by (apply (all_chars_mem q _ _ Hq); reflexivity).
  assert (Hb : q "|"%char = true)
    by (apply (all_chars_mem q _ _ Hq); reflexivity).
  revert p. induction rest as [|[op r] rest IH]; intros p Hp Hr; cbn [text].
  - apply Hl, bare_letters; exact Hp.
  - inversion Hr as [|? ? [Hop Hr0] Hr']; subst. cbn [fst snd] in Hop, Hr0.
    rewrite all_chars_app, (Hl p (bare_letters p Hp)).
    destruct (logical_cases op Hop) as [-> | ->];
      cbn [String.append Str.all_chars]; rewrite ?Hs, ?Ha, ?Hb;
      apply IH; assumption.
Qed.

(** *** The checks of the validator *)

Lemma text_basic_syntax (p : string) (rest : list (string * string)) :
  bare p = true -> well rest -> _check_basic_syntax (text p rest) = true.
Proof.
  intros Hp Hr. unfold _check_basic_syntax.
  rewrite (double_space_free p rest Hp Hr).
  rewrite (text_chars (fun c => Str.mem_char c valid_chars) p rest eq_refl Hp Hr).
  reflexivity.
Qed.

Lemma text_operators (p : string) (rest : list (string * string)) :
  bare p = true -> well rest -> _validate_operators (text p rest) = true.
Proof.
  intros Hp Hr. unfold _validate_operators, invalid_combinations, OPERATORS.
  assert (Habsent : forall x sub,
             Str.all_chars (fun c => negb (Ascii.eqb c x)) (letters ++ " &|") = true ->
             Str.contains (String x sub) (text p rest) = false).
  { intros x sub Hx. apply contains_absent.
    apply (text_chars _ p rest Hx Hp Hr). }
  cbn [existsb]. unfold operator_misused. cbn [String.append].
  rewrite (no_four_ampersands p rest Hp Hr), (no_four_bars p rest Hp Hr).
  rewrite !(Habsent "!"%char _ eq_refl), !(Habsent "<"%char _ eq_refl),
    !(Habsent ">"%char _ eq_refl), !(Habsent "="%char _ eq_refl).
  rewrite (ampersands_spaced p rest Hp Hr), (bars_spaced p rest Hp Hr).
  destruct (Str.contains " && " (text p rest)),
    (Str.contains " || " (text p rest)); reflexivity.
Qed.

Lemma no_parentheses (s : string) :
  Str.all_chars (fun c => negb (Ascii.eqb c "(") && negb (Ascii.eqb c ")")) s = true ->
  forall stack, parentheses_loop stack s = Nat.eqb (List.length stack) 0.
Proof.
  induction s as [|c s IH]; cbn [Str.all_chars parentheses_loop]; [reflexivity|].
  intros H stack. apply andb_prop in H as [Hc Hs].
  apply andb_prop in Hc as [Ho Hcl].
  apply negb_true_iff in Ho, Hcl. rewrite Ho, Hcl. apply IH. exact Hs.
Qed.

Lemma text_parentheses (p : string) (rest : list (string * string)) :
  bare p = true -> well rest -> _validate_parentheses (text p rest) = true.
Proof.
  intros Hp Hr. unfold _validate_parentheses.
  rewrite no_parentheses; [reflexivity|].
  apply (text_chars (fun c => negb (Ascii.eqb c "(") && negb (Ascii.eqb c ")"))
           p rest eq_refl Hp Hr).
Qed.

(** *** The split at the logical operators *)

Lemma letter_no_space (a : ascii) : letter a = true -> Str.isspace a = false.
Proof.
  intros Ha. apply negb_true_iff.
  apply (letter_is (fun c => negb (Str.isspace c)) a eq_refl Ha).
Qed.

Lemma no_separator_at_letter (a : ascii) (s : string) :
  letter a = true -> Re.match_at logical_separator (String a s) = None.
Proof.
  intros Ha. unfold Re.match_at, logical_separator. cbn [Re.rmatch].
  rewrite (letter_no_space a Ha). reflexivity.
Qed.

Lemma split_letters (w : string) :
  forall cur t, Str.all_chars letter w = true ->
    Re.split_go logical_separator 0 cur (w ++ t)
    = Re.split_go logical_separator 0 (Str.rev_acc w cur) t.
Proof.
  induction w as [|a w IH]; intros cur t; cbn [String.append Str.all_chars Str.rev_acc];
    [reflexivity|].
  intros H. apply andb_prop in H as [Ha Hw].
  cbn [Re.split_go]. rewrite (no_separator_at_letter a _ Ha). apply IH. exact Hw.
Qed.

Lemma separator_matched (op u : string) :
  op = "&&" \/ op = "||" -> starts u = true ->
  Re.match_at logical_separator (" " ++ op ++ " " ++ u) = Some ([], u).
Proof.
  intros Hop Hu. destruct u as [|a u]; [discriminate Hu|]. cbn [starts] in Hu.
  pose proof (letter_no_space a Hu) as Ha.
  unfold Re.match_at, logical_separator.
  destruct Hop as [-> | ->]; cbn [String.append Re.rmatch Re.star Re.lit];
    cbn -[Str.isspace]; rewrite ?Ha; cbn; rewrite ?Ha; reflexivity.
Qed.

Lemma split_separator (op u cur : string) :
  op = "&&" \/ op = "||" -> starts u = true ->
  Re.split_go logical_separator 0 cur (" " ++ op ++ " " ++ u)
  = Str.rev cur :: Re.split_go logical_separator 0 EmptyString u.
Proof.
  intros Hop Hu. pose proof (separator_matched op u Hop Hu) as Hm.
  destruct Hop as [-> | ->]; cbn [String.append] in Hm |- *;
    cbn [Re.split_go]; rewrite Hm; f_equal;
    cbn [String.length];
    replace (S (S (S (S (String.length u)))) - String.length u - 1)%nat
      with 3%nat by lia;
    reflexivity.
Qed.

Lemma split_text (p : string) (rest : list (string * string)) :
  bare p = true -> well rest ->
  Re.split logical_separator (text p rest) = p :: map snd rest.
Proof.
  unfold Re.split. revert p.
  induction rest as [|[op q] rest IH]; intros p Hp Hr; cbn [text map snd].
  - rewrite <- (string_app_nil p) at 1.
    rewrite (split_letters p _ _ (bare_letters p Hp)). cbn [Re.split_go].
    fold (Str.rev p). rewrite rev_involutive. reflexivity.
  - inversion Hr as [|? ? [Hop Hq] Hr']; subst. cbn [fst snd] in Hop, Hq.
    rewrite (split_letters p _ _ (bare_letters p Hp)).
    rewrite (split_separator op _ _ (logical_cases op Hop) (starts_text q rest Hq)).
    fold (Str.rev p). rewrite rev_involutive, (IH q Hq Hr'). reflexivity.
Qed.

Lemma text_components (p : string) (rest : list (string * string)) :
  bare p = true -> well rest -> _validate_components (text p rest) = Return true.
Proof.
  intros Hp Hr. unfold _validate_components. rewrite (split_text p rest Hp Hr).
  assert (Hc : forall w, bare w = true -> check_component w = Return true).
  { intros w Hw. unfold bare in Hw. apply andb_prop in Hw as [_ Hw].
    destruct (check_component w) as [[]|]; try discriminate Hw. reflexivity. }
  cbn [components_loop]. rewrite (Hc p Hp). cbn [bind].
  clear Hp. induction Hr as [|[op q] rest [_ Hq] _ IH]; cbn [map components_loop];
    [reflexivity|].
  cbn [snd] in *. rewrite (Hc q Hq). cbn [bind]. exact IH.
Qed.

(** *** No white space around the text *)

Lemma starts_app (a b : string) : starts a = true -> starts (a ++ b) = true.
Proof. destruct a; [discriminate | intros H; exact H]. Qed.

Lemma starts_rev_letters (w : string) :
  w <> EmptyString -> Str.all_chars letter w = true -> starts (Str.rev w) = true.
Proof.
  intros Hne Hw. rewrite <- all_chars_rev in Hw.
  destruct (Str.rev w) as [|a r] eqn:E.
  - apply rev_empty in E. contradiction.
  - cbn [Str.all_chars] in Hw. apply andb_prop in Hw as [Ha _]. exact Ha.
Qed.

Lemma bare_not_empty (p : string) : bare p = true -> p <> EmptyString.
Proof. intros H ->. discriminate H. Qed.

Lemma text_ends (p : string) (rest : list (string * string)) :
  bare p = true -> well rest -> starts (Str.rev (text p rest)) = true.
Proof.
  revert p. induction rest as [|[op q] rest IH]; intros p Hp Hr; cbn [text].
  - apply starts_rev_letters; [apply bare_not_empty | apply bare_letters]; exact Hp.
  - inversion Hr as [|? ? [Hop Hq] Hr']; subst. cbn [fst snd] in Hop, Hq.
    rewrite <- !append_assoc, rev_app. apply starts_app, IH; assumption.
Qed.

Lemma starts_trimmed (s : string) : starts s = true -> trimmed_left s = true.
Proof.
  destruct s as [|a s]; [discriminate|]. cbn [starts trimmed_left].
  intros Ha. rewrite (letter_no_space a Ha). reflexivity.
Qed.

Lemma text_stripped (p : string) (rest : list (string * string)) :
  bare p = true -> well rest -> Str.strip (text p rest) = text p rest.
Proof.
  intros Hp Hr. unfold Str.strip.
  rewrite (lstrip_of_trimmed (text p rest))
    by (apply starts_trimmed, starts_text; exact Hp).
  rewrite (lstrip_of_trimmed (Str.rev (text p rest)))
    by (apply starts_trimmed, text_ends; assumption).
  apply rev_involutive.
Qed.

Lemma text_length (p : string) (rest : list (string * string)) :
  bare p = true -> (5 <= String.length (text p rest))%nat.
Proof.
  intros Hp. unfold bare in Hp. apply andb_prop in Hp as [Hp _].
  apply andb_prop in Hp as [Hp _]. apply Nat.leb_le in Hp.
  destruct rest as [|[op q] rest]; cbn [text]; [exact Hp|].
  rewrite length_append. lia.
Qed.

(** A condition of bare clauses is valid. *)
Lemma text_valid (p : string) (rest : list (string * string)) :
  bare p = true -> well rest -> validate_condition (text p rest) = Return (true, "").
Proof.
  intros Hp Hr. pose proof (text_length p rest Hp) as Hlen.
  unfold validate_condition, validate_condition_with, validate_body.
  rewrite (text_stripped p rest Hp Hr).
  destruct (String.eqb_spec (text p rest) "") as [E|_];
    [rewrite E in Hlen; cbn in Hlen; lia|].
  destruct (String.eqb_spec (text p rest) "true") as [E|_];
    [rewrite E in Hlen; cbn in Hlen; lia|].
  cbn [orb]. unfold try_except. cbn [bind].
  rewrite (text_basic_syntax p rest Hp Hr). cbn [negb].
  rewrite (text_operators p rest Hp Hr). cbn [negb].
  rewrite (text_parentheses p rest Hp Hr). cbn [negb].
  rewrite (text_components p rest Hp Hr). reflexivity.
Qed.

(** *** What the builder joins *)

Lemma parts_of_steps (rest : list (string * (string * string))) :
  forall b,
    condition_parts
      (fold_left step
         (flat_map
            (fun st =>
               [AddLogicalOperator (fst st);
                AddConditionPart (fst (snd st)) (snd (snd st)) "" ""])
            rest) b)
    = (condition_parts b
       ++ flat_map
            (fun st => [fst st; (fst (snd st) ++ "." ++ snd (snd st))%string])
            rest)%list.
Proof.
  induction rest as [|[op [c s]] rest IH]; intros b; cbn [flat_map fold_left app].
  - rewrite app_nil_r. reflexivity.
  - rewrite IH. cbn [step add_logical_operator add_condition_part condition_parts
                     fst snd String.eqb negb andb].
    rewrite <- !app_assoc. reflexivity.
Qed.

Lemma join_cons (sep p q : string) (ps : list string) :
  Str.join sep (p :: q :: ps) = p ++ sep ++ Str.join sep (q :: ps).
Proof. reflexivity. Qed.

Lemma join_text (p : string) (rest : list (string * (string * string))) :
  Str.join " "
    (p :: flat_map (fun st => [fst st; fst (snd st) ++ "." ++ snd (snd st)]) rest)
  = text p (map (fun st => (fst st, fst (snd st) ++ "." ++ snd (snd st))) rest).
Proof.
  revert p. induction rest as [|[op [c s]] rest IH]; intros p;
    cbn [flat_map app map text fst snd]; [reflexivity|].
  rewrite !join_cons, IH. reflexivity.
Qed.

Lemma condition_of_actions (first : string * string)
      (rest : list (string * (string * string))) :
  get_condition (run (actions first rest))
  = text (fst first ++ "." ++ snd first)
      (map (fun st => (fst st, fst (snd st) ++ "." ++ snd (snd st))) rest).
Proof.
  unfold get_condition, run, actions. cbn [fold_left]. rewrite parts_of_steps.
  cbn [step add_condition_part init condition_parts String.eqb negb andb app].
  apply join_text.
Qed.

(** Every pair that the builder offers without a class is a bare path. *)
Lemma offered_is_bare (category condition : string) :
  offered init category condition = true ->
  bare (category ++ "." ++ condition) = true.
Proof.
  unfold offered. intros H. apply andb_prop in H as [Hc Hs].
  apply list_mem_in in Hc. vm_compute in Hc.
  repeat (destruct Hc as [<-|Hc]);
    try (destruct Hc);
    (apply dict_mem_in in Hs; cbn in Hs;
     repeat (destruct Hs as [<-|Hs]); try (destruct Hs);
     vm_compute; reflexivity).
Qed.

(** X23.  Bare clauses of the vocabulary that the builder offers without a
    class, joined by [&&] or [||], make a condition that [validate]
    accepts, however many they are. *)
Theorem bare_clauses_accepted (first : string * string)
        (rest : list (string * (string * string))) :
  offered init (fst first) (snd first) = true ->
  Forall (fun st => logical (fst st) = true
                    /\ offered init (fst (snd st)) (snd (snd st)) = true) rest ->
  validate (run (actions first rest)) = Return (true, "").
Proof.
  intros Hf Hr. unfold validate. rewrite condition_of_actions.
  apply text_valid; [apply offered_is_bare; exact Hf|].
  unfold well. induction Hr as [|[op [c s]] rest [Hop Hcs] _ IH]; cbn [map];
    constructor; [|exact IH].
  cbn [fst snd] in *. split; [exact Hop | apply offered_is_bare; exact Hcs].
Qed.

Lemma bare_clauses_accepted_witness :
  validate
    (run (actions ("player", "moving")
            [("&&", ("target", "exists")); ("||", ("toggle", "aoe"))]))
  = Return (true, "").
Proof.
  apply (bare_clauses_accepted ("player", "moving")
           [("&&", ("target", "exists")); ("||", ("toggle", "aoe"))]).
  - reflexivity.
  - repeat constructor.
Defined.

End BareClauses.

Section UpdateSpell.
Import Rotation Calls.

Lemma priorities_setattrs (kw : kwargs) (i : nat) (l : list SpellEntry.t) :
  kw_priority kw = None ->
  priorities (PyList.update_at i (setattrs kw) l) = priorities l.
Proof.
  intros Hp. revert i. induction l as [|s l IH]; intros [|i];
    cbn [PyList.update_at priorities map]; try reflexivity.
  - f_equal. unfold setattrs. rewrite Hp.
    destruct (kw_id kw), (kw_notes kw), (kw_enabled kw), (kw_condition kw),
      (kw_name kw); reflexivity.
  - f_equal. apply IH.
Qed.

(** X24.  [update_spell] changes no priority and leaves the entries in their
    order, so priorities that are 1 to N stay so.  Its first parameter
    is itself named [priority], so that no call passes a [priority]
    keyword. *)
Theorem update_spell_keeps_the_order :
  forall now self priority kw outcome self',
    kw_priority kw = None ->
    update_spell now self priority kw = (Return outcome, self') ->
    priorities (spells self') = priorities (spells self)
    /\ (dense (spells self) -> dense (spells self')).
Proof.
  intros now self priority kw outcome self' Hp. unfold update_spell.
  destruct (PyList.find_index _ _) as [i|];
    [|intros H; inversion H; subst; split; [reflexivity | intros Hd; exact Hd]].
  assert (Hkeep : priorities
                    (spells (touch now
                               (set_spells
                                  (PyList.update_at i (setattrs kw) (spells self))
                                  self)))
                  = priorities (spells self))
    by (cbn [touch set_spells set_metadata spells];
        apply priorities_setattrs; exact Hp).
  assert (Hlen : List.length
                   (spells (touch now
                              (set_spells
                                 (PyList.update_at i (setattrs kw) (spells self))
                                 self)))
                 = List.length (spells self)).
  { pose proof (f_equal (@List.length Z) Hkeep) as H.
    unfold priorities in H. rewrite !length_map in H. exact H. }
  destruct (kw_condition kw) as [c|].
  - destruct (ConditionValidator.validate_condition c) as [[valid reason]|e];
      cbn [bind]; [|discriminate].
    destruct valid; cbn [negb]; [|discriminate].
    intros H. inversion H; subst. split; [exact Hkeep|].
    unfold dense. rewrite Hkeep, Hlen. intros Hd. exact Hd.
  - intros H. inversion H; subst. split; [exact Hkeep|].
    unfold dense. rewrite Hkeep, Hlen. intros Hd. exact Hd.
Qed.

Lemma update_spell_keeps_the_order_witness :
  priorities
    (spells (snd (update_spell 500 (SoeText.holy_pair "Heal" "true" "Renew" "true") 2
                    (mk_kwargs None (Some "player.moving") None (Some false)
                       None None))))
  = priorities (spells (SoeText.holy_pair "Heal" "true" "Renew" "true"))
  /\ (dense (spells (SoeText.holy_pair "Heal" "true" "Renew" "true")) ->
      dense
        (spells (snd (update_spell 500
                        (SoeText.holy_pair "Heal" "true" "Renew" "true") 2
                        (mk_kwargs None (Some "player.moving") None (Some false)
                           None None))))).
Proof.
  apply (update_spell_keeps_the_order 500
           (SoeText.holy_pair "Heal" "true" "Renew" "true") 2
           (mk_kwargs None (Some "player.moving") None (Some false) None None)
           true);
    reflexivity.
Defined.

End UpdateSpell.

Section SoeExport.
Import Rotation.

Lemma flat_map_filter {A B} (keep : A -> bool) (f : A -> list B) (l : list A) :
  (forall x, keep x = false -> f x = []) ->
  flat_map f (filter keep l) = flat_map f l.
Proof.
  intros H. induction l as [|x l IH]; cbn [filter flat_map]; [reflexivity|].
  destruct (keep x) eqn:E.
  - cbn [flat_map]. rewrite IH. reflexivity.
  - rewrite (H x E), IH. reflexivity.
Qed.

(** X25.  [to_soe_format] writes the enabled entries only, and nothing of an
    entry but its name and its condition: the text of a rotation is the
    text of the rotation without its disabled entries, and it does not
    change with the priorities, the notes or the ids of the entries. *)
Theorem to_soe_format_writes_enabled_names (self : Rotation.t) :
  to_soe_format self
  = to_soe_format (set_spells (filter SpellEntry.enabled (spells self)) self)
  /\ (forall priority notes id,
         to_soe_format
           (set_spells
              (map (fun s => SpellEntry.set_id id
                               (SpellEntry.set_notes notes
                                  (SpellEntry.set_priority priority s)))
                 (spells self)) self)
         = to_soe_format self).
Proof.
  split.
  - unfold to_soe_format. cbn [set_spells metadata spells spec_id].
    rewrite flat_map_filter; [reflexivity|].
    intros s Hs. rewrite Hs. reflexivity.
  - intros priority notes id. unfold to_soe_format.
    cbn [set_spells metadata spells spec_id].
    do 3 f_equal. rewrite flat_map_concat_map, map_map, <- flat_map_concat_map.
    reflexivity.
Qed.

End SoeExport.

Section BuilderUndo.
Import ConditionBuilder.



End BuilderUndo.

Section JsonKeepsWitness.
Import Rotation RotationExporter RotationImporter Calls.

Lemma json_round_trip_keeps_the_rest_witness :
  from_json Samples.clock (to_json Samples.holy_heal)
  = Return
      (Rotation.mk
         (RotationMetadata.set_modified_at (Samples.clock 2)
            (metadata Samples.holy_heal))
         (spells Samples.holy_heal) (spec_id Samples.holy_heal)).
Proof.
  apply (json_round_trip_keeps_the_rest Samples.clock Samples.holy_heal).
  - reflexivity.
  - reflexivity.
  - reflexivity.
  - constructor; [|constructor]. repeat split; reflexivity.
Defined.

End JsonKeepsWitness.
